(** * libiio: the XML description-to-model codec and the channels mask

    A shallow embedding of [src/xml.c] (the builder that turns a parsed XML
    tree into a context / device / channel model) and of the channels-mask
    primitives of [src/iio-private.h].

    Conventions of the embedding.
    - A C string is a [string]; a nullable [char *] is an [option string].
    - An [xmlAttr] is its name and the text [attr->children->content]; an
      [xmlNode] is its name, its ordered attributes and its ordered children.
    - C functions that mutate an object through a pointer and report an
      [int] are state passing: they return the [int] together with the
      object as it is left in memory, also on the error paths.
    - Pointer-encoded errors ([iio_ptr] / [iio_err]) are the sum [iio_ptr].
    - [zalloc], [realloc] and [iio_strdup] are taken to succeed; the
      diagnostics macros ([chn_dbg], [dev_err], ...) have no effect on the
      model and are left out.
    - [unsigned int] is 32 bits wide, [long] and [long long] are 64 bits
      wide (LP64), with the wrap-around written out. *)

From Stdlib Require Import ZArith Lia Ascii.
From stdpp Require Import base list strings.

Local Open Scope Z_scope.
Set Warnings "-register-all".

(** ** Constants of <errno.h> and <stdio.h> *)

Definition ENOENT : Z := 2.
Definition ENOMEM : Z := 12.
Definition EINVAL : Z := 22.
Definition EOF : Z := -1.

Definition UINT_MODULUS : Z := 2 ^ 32.
Definition ULONG_MAX : Z := 2 ^ 64 - 1.
Definition LONG_MIN : Z := - 2 ^ 63.
Definition LONG_MAX : Z := 2 ^ 63 - 1.

(** ** The C library on strings *)

Module Libc.

Definition code (c : ascii) : Z := Z.of_N (N_of_ascii c).

(** [isspace] in the "C" locale: space and the controls 9 to 13. *)
Definition isspace (c : ascii) : bool :=
  (code c =? 32) || ((9 <=? code c) && (code c <=? 13)).

Definition isdigit (c : ascii) : bool :=
  (48 <=? code c) && (code c <=? 57).

(** Value of a character as a digit in bases up to 36. *)
Definition digit_of (c : ascii) : option Z :=
  if isdigit c then Some (code c - 48)
  else if (97 <=? code c) && (code c <=? 122) then Some (code c - 87)
  else if (65 <=? code c) && (code c <=? 90) then Some (code c - 55)
  else None.

Definition digit_in (base : Z) (c : ascii) : bool :=
  match digit_of c with
  | Some d => d <? base
  | None => false
  end.

(** [strchr(s, c) != NULL] *)
Fixpoint strchr (s : string) (c : ascii) : bool :=
  match s with
  | EmptyString => false
  | String x s' => if Ascii.eqb x c then true else strchr s' c
  end.

(** [strcmp(a, b) == 0] *)
Definition streq (a b : string) : bool := String.eqb a b.

Fixpoint skip_space (s : string) : string :=
  match s with
  | String c s' => if isspace c then skip_space s' else s
  | EmptyString => EmptyString
  end.

(** Longest run of digits of [base] at the head of [s], accumulated
    exactly; returns the value and the text left. *)
Fixpoint scan_digits (base acc : Z) (s : string) : Z * string :=
  match s with
  | String c s' =>
      match digit_of c with
      | Some d => if d <? base then scan_digits base (base * acc + d) s'
                  else (acc, s)
      | None => (acc, s)
      end
  | EmptyString => (acc, s)
  end.

(** An optional sign: whether it is a minus, and the text after it. *)
Definition scan_sign (s : string) : bool * string :=
  match s with
  | String c s' =>
      if Ascii.eqb c "-" then (true, s')
      else if Ascii.eqb c "+" then (false, s')
      else (false, s)
  | EmptyString => (false, s)
  end.

Definition starts_with_digit (base : Z) (s : string) : bool :=
  match s with
  | String c _ => digit_in base c
  | EmptyString => false
  end.

(** *** strtol / strtoll *)

(** What a [strto*] call leaves behind: the value returned, the text at
    [*endptr], whether [endptr] moved off the start of the input, and
    whether [errno] was set to [ERANGE]. *)
Record strto_result := {
  st_value : Z;
  st_end : string;
  st_moved : bool;
  st_erange : bool
}.

(** Base selection of [strtol]: a "0x"/"0X" prefix followed by a hex digit
    selects base 16 when the base is 0 or 16; otherwise base 0 means
    octal after a leading "0" and decimal in all other cases. *)
Definition select_base (base : Z) (s : string) : Z * string :=
  match s with
  | String c0 (String c1 s2) =>
      if ((base =? 0) || (base =? 16)) && Ascii.eqb c0 "0"
         && (Ascii.eqb c1 "x" || Ascii.eqb c1 "X")
         && starts_with_digit 16 s2
      then (16, s2)
      else if base =? 0 then (if Ascii.eqb c0 "0" then (8, s) else (10, s))
      else (base, s)
  | String c0 EmptyString =>
      if base =? 0 then (if Ascii.eqb c0 "0" then (8, s) else (10, s))
      else (base, s)
  | EmptyString => (if base =? 0 then 10 else base, s)
  end.

(** [strtol]-family conversion to a signed type with range [lo..hi]:
    the result saturates and reports [ERANGE] out of range. *)
Definition strto_signed (lo hi : Z) (content : string) (base : Z)
  : strto_result :=
  let '(neg, s1) := scan_sign (skip_space content) in
  let '(b, s2) := select_base base s1 in
  if starts_with_digit b s2 then
    let '(m, rest) := scan_digits b 0 s2 in
    let v := if neg : bool then - m else m in
    if v <? lo then
      {| st_value := lo; st_end := rest; st_moved := true; st_erange := true |}
    else if hi <? v then
      {| st_value := hi; st_end := rest; st_moved := true; st_erange := true |}
    else
      {| st_value := v; st_end := rest; st_moved := true; st_erange := false |}
  else
    {| st_value := 0; st_end := content; st_moved := false;
       st_erange := false |}.

Definition strtol := strto_signed LONG_MIN LONG_MAX.
Definition strtoll := strto_signed LONG_MIN LONG_MAX.

(** *** sscanf, for the directives the library uses *)

Inductive directive :=
| D_char                (* %c : one character, no white space skipped *)
| D_uint                (* %u : white space, optional sign, decimal digits *)
| D_lit (c : ascii).    (* an ordinary character of the format *)

Inductive scan_value :=
| V_char (c : ascii)
| V_uint (u : Z).

Inductive scan_stop := Completed | MatchingFailure | InputFailure.

(** The value [%u] stores in an [unsigned int]: the digits are converted
    as by [strtoul] (saturating at [ULONG_MAX], negated modulo 2^64 after
    a minus sign) and the result is truncated to 32 bits. *)
Definition uint_of (neg : bool) (m : Z) : Z :=
  (if ULONG_MAX <? m then ULONG_MAX
   else if neg then (- m) mod (ULONG_MAX + 1) else m) mod UINT_MODULUS.

Inductive conv_result :=
| Conv (u : Z) (rest : string)
| ConvMatchingFailure
| ConvInputFailure.

Definition scan_uint (s : string) : conv_result :=
  match skip_space s with
  | EmptyString => ConvInputFailure
  | String c r as s1 =>
      let '(neg, s2) := scan_sign s1 in
      if starts_with_digit 10 s2 then
        let '(m, rest) := scan_digits 10 0 s2 in Conv (uint_of neg m) rest
      else ConvMatchingFailure
  end.

(** Runs the directives over the input; yields the values assigned, in
    the order of the pointer arguments, and why the scan stopped. *)
Fixpoint run_scan (fmt : list directive) (inp : string)
  : list scan_value * scan_stop :=
  match fmt with
  | [] => ([], Completed)
  | D_lit c :: fmt' =>
      match inp with
      | EmptyString => ([], InputFailure)
      | String x inp' =>
          if Ascii.eqb x c then run_scan fmt' inp' else ([], MatchingFailure)
      end
  | D_char :: fmt' =>
      match inp with
      | EmptyString => ([], InputFailure)
      | String x inp' =>
          let '(vs, st) := run_scan fmt' inp' in (V_char x :: vs, st)
      end
  | D_uint :: fmt' =>
      match scan_uint inp with
      | Conv u rest =>
          let '(vs, st) := run_scan fmt' rest in (V_uint u :: vs, st)
      | ConvMatchingFailure => ([], MatchingFailure)
      | ConvInputFailure => ([], InputFailure)
      end
  end.

(** [sscanf]: the number of items assigned ([EOF] when the input ends
    before the first conversion), and the items. *)
Definition sscanf (inp : string) (fmt : list directive)
  : Z * list scan_value :=
  let '(vs, st) := run_scan fmt inp in
  (match vs, st with
   | [], InputFailure => EOF
   | _, _ => Z.of_nat (length vs)
   end, vs).

(** What [strtof] leaves behind: the value, how many characters were
    consumed ([end - content]) and whether [errno] became [ERANGE]. *)
Record strtof_result (float : Type) := {
  sf_value : float;
  sf_consumed : nat;
  sf_erange : bool
}.
Arguments sf_value {float}.
Arguments sf_consumed {float}.
Arguments sf_erange {float}.
Arguments Build_strtof_result {float}.

End Libc.

(** ** Channels mask ([src/iio-private.h]) *)

Module Mask.

(** [struct iio_channels_mask]: the word count and the 32-bit words. *)
Record iio_channels_mask := {
  words : nat;
  mask : list Z
}.

(** An [int] result, reduced to the 32-bit two's complement range. *)
Definition wrap_int (z : Z) : Z := (z + 2 ^ 31) mod 2 ^ 32 - 2 ^ 31.

(** Conversion of an [int] to [uint32_t]. *)
Definition to_uint32 (z : Z) : Z := z mod 2 ^ 32.

(** [#define BIT(x) (1 << (x))], an [int]; [1 << 31] is taken with the
    two's complement wrap-around, [INT_MIN]. *)
Definition BIT (x : Z) : Z := wrap_int (Z.shiftl 1 x).

(** [#define BIT_MASK(bit) BIT((bit) % 32)] *)
Definition BIT_MASK (bit : Z) : Z := BIT (bit mod 32).

(** [#define BIT_WORD(bit) ((bit) / 32)] *)
Definition BIT_WORD (bit : Z) : Z := bit / 32.

(** [mask->mask[i]]; the C code does not check [i], a read past the
    words is modelled as 0 and a write past them as dropped. *)
Definition word_at (m : iio_channels_mask) (i : Z) : Z :=
  default 0 (mask m !! Z.to_nat i).

Definition set_word (m : iio_channels_mask) (i : Z) (w : Z)
  : iio_channels_mask :=
  {| words := words m; mask := <[Z.to_nat i := w]> (mask m) |}.

Definition iio_channels_mask_test_bit (m : iio_channels_mask) (bit : Z)
  : bool :=
  negb (Z.land (word_at m (BIT_WORD bit)) (to_uint32 (BIT_MASK bit)) =? 0).

Definition iio_channels_mask_set_bit (m : iio_channels_mask) (bit : Z)
  : iio_channels_mask :=
  set_word m (BIT_WORD bit)
    (Z.lor (word_at m (BIT_WORD bit)) (to_uint32 (BIT_MASK bit))).

Definition iio_channels_mask_clear_bit (m : iio_channels_mask) (bit : Z)
  : iio_channels_mask :=
  set_word m (BIT_WORD bit)
    (Z.land (word_at m (BIT_WORD bit))
            (to_uint32 (Z.lnot (BIT_MASK bit)))).

(** A mask as the library keeps it: [words] words, each a [uint32_t]. *)
Definition wf (m : iio_channels_mask) : Prop :=
  length (mask m) = words m /\ Forall (fun w => 0 <= w < 2 ^ 32) (mask m).

(** Zero-initialised storage. *)
Definition zeroed (m : iio_channels_mask) : Prop :=
  Forall (fun w => w = 0) (mask m).

(** The bit indexes the mask has room for. *)
Definition in_range (m : iio_channels_mask) (bit : Z) : Prop :=
  0 <= bit < 32 * Z.of_nat (words m).

(** Modelled from the spec: [iio_create_channels_mask] is declared in
    [iio-private.h] but defined elsewhere; the spec has it allocate
    ceil(channel_count / 32) zero-initialised words. *)
Definition iio_create_channels_mask (nb_channels : Z) : iio_channels_mask :=
  let n := Z.to_nat ((nb_channels + 31) / 32) in
  {| words := n; mask := replicate n 0 |}.

End Mask.

(** ** Byte order ([src/iio-private.h]) *)

Module Endian.

(** A [uint32_t] shifted left: the bits pushed past bit 31 are lost. *)
Definition shl32 (x k : Z) : Z := Z.shiftl x k mod 2 ^ 32.

(** [((word & 0xff) << 24) | ((word & 0xff00) << 8) |
     ((word >> 8) & 0xff00) | ((word >> 24) & 0xff)], which is also what
    [__builtin_bswap32] computes. *)
Definition bswap32 (word : Z) : Z :=
  Z.lor
    (Z.lor
       (Z.lor (shl32 (Z.land word 255) 24) (shl32 (Z.land word 65280) 8))
       (Z.land (Z.shiftr word 8) 65280))
    (Z.land (Z.shiftr word 24) 255).

(** [is_little_endian()] is a constant of the build; it is a parameter
    here. *)
Definition iio_be32toh (is_little_endian : bool) (word : Z) : Z :=
  if negb is_little_endian then word else bswap32 word.

Definition iio_htobe32 (is_little_endian : bool) (word : Z) : Z :=
  iio_be32toh is_little_endian word.

(** The 32-bit word whose bytes are [b3 b2 b1 b0], from the most
    significant to the least. *)
Definition word_of_bytes (b3 b2 b1 b0 : Z) : Z :=
  Z.lor (Z.shiftl b3 24) (Z.lor (Z.shiftl b2 16) (Z.lor (Z.shiftl b1 8) b0)).

Definition is_byte (b : Z) : Prop := 0 <= b < 256.

(** Where bit [n] of a swapped word comes from. *)
Definition swapped_bit (n : Z) : Z :=
  if n <? 8 then n + 24
  else if n <? 16 then n + 8
  else if n <? 24 then n - 8
  else n - 24.

End Endian.

(** ** The cursor of the XML printers ([src/iio-private.h]) *)

Module XmlIndexes.

(** The values of [ssize_t], a [long] on the platforms of this file. *)
Definition in_ssize (z : Z) : bool := (LONG_MIN <=? z) && (z <=? LONG_MAX).

(** What [iio_update_xml_indexes] reaches through its pointers: the write
    position [*ptr], as an offset from the start of the buffer it points
    into ([None] for NULL), the room left [*len] and the length
    accumulated [*alen]. *)
Record cursor := {
  ptr : option Z;
  len : Z;
  alen : Z
}.

(** [*ptr += ret; *len -= ret; *alen += ret] is C arithmetic: the sums
    of [ssize_t] are defined when they are values of [ssize_t], and the
    position when it stays in the buffer, of [size] bytes, or one past
    its end.  The result is [None] when one of them is undefined. *)
Definition iio_update_xml_indexes (size ret : Z) (c : cursor)
  : option cursor :=
  match ptr c with
  | Some p =>
      if (0 <=? p + ret) && (p + ret <=? size) && in_ssize (len c - ret)
         && in_ssize (alen c + ret)
      then Some {| ptr := Some (p + ret); len := len c - ret;
                   alen := alen c + ret |}
      else None
  | None =>
      if in_ssize (alen c + ret)
      then Some {| ptr := None; len := len c; alen := alen c + ret |}
      else None
  end.

(** The updates for the pieces of a document, one after the other. *)
Fixpoint update_all (size : Z) (rets : list Z) (c : cursor)
  : option cursor :=
  match rets with
  | [] => Some c
  | ret :: rets =>
      match iio_update_xml_indexes size ret c with
      | Some c' => update_all size rets c'
      | None => None
      end
  end.

Definition total (rets : list Z) : Z := fold_right Z.add 0 rets.

(** The running sums of the pieces, from [acc]. *)
Fixpoint prefix_sums (acc : Z) (rets : list Z) : list Z :=
  match rets with
  | [] => []
  | ret :: rets => (acc + ret) :: prefix_sums (acc + ret) rets
  end.

(** A cursor moved by [s] in exact arithmetic. *)
Definition moved (s : Z) (c : cursor) : cursor :=
  match ptr c with
  | Some p => {| ptr := Some (p + s); len := len c - s; alen := alen c + s |}
  | None => {| ptr := None; len := len c; alen := alen c + s |}
  end.

(** The cursors C can hold for a buffer of [size] bytes. *)
Definition representable (size : Z) (c : cursor) : Prop :=
  in_ssize (alen c) = true
  /\ match ptr c with
     | Some p => 0 <= p <= size /\ in_ssize (len c) = true
     | None => True
     end.

End XmlIndexes.

(** ** The document tree handed over by libxml2 *)

Record xmlAttr := {
  attr_name : string;
  attr_content : string
}.

Inductive xmlNode := XmlNode {
  node_name : string;
  properties : list xmlAttr;
  children : list xmlNode
}.

(** [xmlDocGetRootElement]: a document is its root element. *)
Definition xmlDoc := xmlNode.

(** ** Pointer-encoded results ([iio_ptr], [iio_err]) *)

Inductive iio_ptr (T : Type) :=
| Err (err : Z)
| Ptr (obj : T).
Arguments Err {T}.
Arguments Ptr {T}.

Definition iio_err {T} (p : iio_ptr T) : Z :=
  match p with
  | Err e => e
  | Ptr _ => 0
  end.

(** ** Loops over sibling lists *)

(** How one turn of a loop body ends: it falls through to the next
    sibling, or leaves the function with a code ([return err] or
    [goto err_free_...]). *)
Inductive flow :=
| Next
| Leave (err : Z).

(** [for (x = first; x; x = x->next) body]: the state the loop ends with,
    and whether it ran to the end of the list. *)
Fixpoint for_each {A S : Type} (body : S -> A -> flow * S)
    (l : list A) (s : S) : flow * S :=
  match l with
  | [] => (Next, s)
  | x :: l' =>
      match body s x with
      | (Next, s') => for_each body l' s'
      | (Leave err, s') => (Leave err, s')
      end
  end.

Definition nonzero (e : Z) : bool := negb (e =? 0).
Definition negative (e : Z) : bool := e <? 0.

(** [err = call; if (failed err) leave with err;] *)
Definition leave_if {S : Type} (failed : Z -> bool) (r : Z * S) : flow * S :=
  if failed (fst r) then (Leave (fst r), snd r) else (Next, snd r).

(** ** What the embedding takes from the platform *)

(** The C floating-point type with the value of all-zero storage, [strtof]
    (whose value depends on the binary format and rounding of the
    platform), and the public [struct iio_context_params]. *)
Class Platform := {
  float : Type;
  float_zero : float;
  strtof : string -> Libc.strtof_result float;
  iio_context_params : Type
}.

Section Model.

Context {PF : Platform}.

(** *** Data model ([iio.h], [iio-private.h]) *)

Record iio_data_format := {
  fmt_length : Z;
  fmt_bits : Z;
  fmt_shift : Z;
  fmt_is_signed : bool;
  fmt_is_fully_defined : bool;
  fmt_is_be : bool;
  fmt_with_scale : bool;
  fmt_scale : float;
  fmt_repeat : Z
}.

Record iio_channel_attr := {
  ca_name : option string;
  ca_filename : option string
}.

Record iio_channel := {
  chn_is_output : bool;
  chn_is_scan_element : bool;
  chn_format : iio_data_format;
  chn_name : option string;
  chn_id : option string;
  chn_index : Z;
  chn_modifier : Z;
  chn_type : Z;
  chn_attrs : list iio_channel_attr;
  chn_number : Z
}.

(** [struct iio_dev_attrs]: [num] is the length of [names]. *)
Definition iio_dev_attrs := list string.

Record iio_device := {
  dev_name : option string;
  dev_id : option string;
  dev_label : option string;
  dev_attrs : iio_dev_attrs;
  dev_buffer_attrs : iio_dev_attrs;
  dev_debug_attrs : iio_dev_attrs;
  dev_channels : list iio_channel;
  dev_mask : option Mask.iio_channels_mask
}.

Record iio_context := {
  ctx_name : option string;
  ctx_description : option string;
  ctx_major : Z;
  ctx_minor : Z;
  ctx_git_tag : option string;
  ctx_devices : list iio_device;
  ctx_xml : option string;
  ctx_attrs : list (string * string);
  ctx_params : option iio_context_params
}.

Record iio_backend := {
  api_version : Z;
  backend_name : string;
  uri_prefix : string
}.

Inductive iio_attr_type :=
| IIO_ATTR_TYPE_DEVICE
| IIO_ATTR_TYPE_DEBUG
| IIO_ATTR_TYPE_BUFFER.

(** *** Field updates *)

Definition set_fmt_length v (f : iio_data_format) :=
  {| fmt_length := v; fmt_bits := fmt_bits f; fmt_shift := fmt_shift f;
     fmt_is_signed := fmt_is_signed f;
     fmt_is_fully_defined := fmt_is_fully_defined f;
     fmt_is_be := fmt_is_be f; fmt_with_scale := fmt_with_scale f;
     fmt_scale := fmt_scale f; fmt_repeat := fmt_repeat f |}.
Definition set_fmt_bits v (f : iio_data_format) :=
  {| fmt_length := fmt_length f; fmt_bits := v; fmt_shift := fmt_shift f;
     fmt_is_signed := fmt_is_signed f;
     fmt_is_fully_defined := fmt_is_fully_defined f;
     fmt_is_be := fmt_is_be f; fmt_with_scale := fmt_with_scale f;
     fmt_scale := fmt_scale f; fmt_repeat := fmt_repeat f |}.
Definition set_fmt_shift v (f : iio_data_format) :=
  {| fmt_length := fmt_length f; fmt_bits := fmt_bits f; fmt_shift := v;
     fmt_is_signed := fmt_is_signed f;
     fmt_is_fully_defined := fmt_is_fully_defined f;
     fmt_is_be := fmt_is_be f; fmt_with_scale := fmt_with_scale f;
     fmt_scale := fmt_scale f; fmt_repeat := fmt_repeat f |}.
Definition set_fmt_repeat v (f : iio_data_format) :=
  {| fmt_length := fmt_length f; fmt_bits := fmt_bits f;
     fmt_shift := fmt_shift f; fmt_is_signed := fmt_is_signed f;
     fmt_is_fully_defined := fmt_is_fully_defined f;
     fmt_is_be := fmt_is_be f; fmt_with_scale := fmt_with_scale f;
     fmt_scale := fmt_scale f; fmt_repeat := v |}.
Definition set_fmt_flags (be sg fd : bool) (f : iio_data_format) :=
  {| fmt_length := fmt_length f; fmt_bits := fmt_bits f;
     fmt_shift := fmt_shift f; fmt_is_signed := sg;
     fmt_is_fully_defined := fd; fmt_is_be := be;
     fmt_with_scale := fmt_with_scale f;
     fmt_scale := fmt_scale f; fmt_repeat := fmt_repeat f |}.
Definition set_fmt_with_scale (b : bool) (f : iio_data_format) :=
  {| fmt_length := fmt_length f; fmt_bits := fmt_bits f;
     fmt_shift := fmt_shift f; fmt_is_signed := fmt_is_signed f;
     fmt_is_fully_defined := fmt_is_fully_defined f;
     fmt_is_be := fmt_is_be f; fmt_with_scale := b;
     fmt_scale := fmt_scale f; fmt_repeat := fmt_repeat f |}.
Definition set_fmt_scale (v : float) (f : iio_data_format) :=
  {| fmt_length := fmt_length f; fmt_bits := fmt_bits f;
     fmt_shift := fmt_shift f; fmt_is_signed := fmt_is_signed f;
     fmt_is_fully_defined := fmt_is_fully_defined f;
     fmt_is_be := fmt_is_be f; fmt_with_scale := fmt_with_scale f;
     fmt_scale := v; fmt_repeat := fmt_repeat f |}.

Definition set_chn_format f (c : iio_channel) :=
  {| chn_is_output := chn_is_output c;
     chn_is_scan_element := chn_is_scan_element c; chn_format := f;
     chn_name := chn_name c; chn_id := chn_id c; chn_index := chn_index c;
     chn_modifier := chn_modifier c; chn_type := chn_type c;
     chn_attrs := chn_attrs c; chn_number := chn_number c |}.
Definition set_chn_index v (c : iio_channel) :=
  {| chn_is_output := chn_is_output c;
     chn_is_scan_element := chn_is_scan_element c;
     chn_format := chn_format c;
     chn_name := chn_name c; chn_id := chn_id c; chn_index := v;
     chn_modifier := chn_modifier c; chn_type := chn_type c;
     chn_attrs := chn_attrs c; chn_number := chn_number c |}.
Definition set_chn_name v (c : iio_channel) :=
  {| chn_is_output := chn_is_output c;
     chn_is_scan_element := chn_is_scan_element c;
     chn_format := chn_format c;
     chn_name := v; chn_id := chn_id c; chn_index := chn_index c;
     chn_modifier := chn_modifier c; chn_type := chn_type c;
     chn_attrs := chn_attrs c; chn_number := chn_number c |}.
Definition set_chn_id v (c : iio_channel) :=
  {| chn_is_output := chn_is_output c;
     chn_is_scan_element := chn_is_scan_element c;
     chn_format := chn_format c;
     chn_name := chn_name c; chn_id := v; chn_index := chn_index c;
     chn_modifier := chn_modifier c; chn_type := chn_type c;
     chn_attrs := chn_attrs c; chn_number := chn_number c |}.
Definition set_chn_is_output v (c : iio_channel) :=
  {| chn_is_output := v;
     chn_is_scan_element := chn_is_scan_element c;
     chn_format := chn_format c;
     chn_name := chn_name c; chn_id := chn_id c; chn_index := chn_index c;
     chn_modifier := chn_modifier c; chn_type := chn_type c;
     chn_attrs := chn_attrs c; chn_number := chn_number c |}.
Definition set_chn_is_scan_element v (c : iio_channel) :=
  {| chn_is_output := chn_is_output c;
     chn_is_scan_element := v;
     chn_format := chn_format c;
     chn_name := chn_name c; chn_id := chn_id c; chn_index := chn_index c;
     chn_modifier := chn_modifier c; chn_type := chn_type c;
     chn_attrs := chn_attrs c; chn_number := chn_number c |}.
Definition set_chn_attrs v (c : iio_channel) :=
  {| chn_is_output := chn_is_output c;
     chn_is_scan_element := chn_is_scan_element c;
     chn_format := chn_format c;
     chn_name := chn_name c; chn_id := chn_id c; chn_index := chn_index c;
     chn_modifier := chn_modifier c; chn_type := chn_type c;
     chn_attrs := v; chn_number := chn_number c |}.

Definition set_dev_name v (d : iio_device) :=
  {| dev_name := v; dev_id := dev_id d; dev_label := dev_label d;
     dev_attrs := dev_attrs d; dev_buffer_attrs := dev_buffer_attrs d;
     dev_debug_attrs := dev_debug_attrs d;
     dev_channels := dev_channels d; dev_mask := dev_mask d |}.
Definition set_dev_id v (d : iio_device) :=
  {| dev_name := dev_name d; dev_id := v; dev_label := dev_label d;
     dev_attrs := dev_attrs d; dev_buffer_attrs := dev_buffer_attrs d;
     dev_debug_attrs := dev_debug_attrs d;
     dev_channels := dev_channels d; dev_mask := dev_mask d |}.
Definition set_dev_label v (d : iio_device) :=
  {| dev_name := dev_name d; dev_id := dev_id d; dev_label := v;
     dev_attrs := dev_attrs d; dev_buffer_attrs := dev_buffer_attrs d;
     dev_debug_attrs := dev_debug_attrs d;
     dev_channels := dev_channels d; dev_mask := dev_mask d |}.
Definition set_dev_attrs v (d : iio_device) :=
  {| dev_name := dev_name d; dev_id := dev_id d; dev_label := dev_label d;
     dev_attrs := v; dev_buffer_attrs := dev_buffer_attrs d;
     dev_debug_attrs := dev_debug_attrs d;
     dev_channels := dev_channels d; dev_mask := dev_mask d |}.
Definition set_dev_buffer_attrs v (d : iio_device) :=
  {| dev_name := dev_name d; dev_id := dev_id d; dev_label := dev_label d;
     dev_attrs := dev_attrs d; dev_buffer_attrs := v;
     dev_debug_attrs := dev_debug_attrs d;
     dev_channels := dev_channels d; dev_mask := dev_mask d |}.
Definition set_dev_debug_attrs v (d : iio_device) :=
  {| dev_name := dev_name d; dev_id := dev_id d; dev_label := dev_label d;
     dev_attrs := dev_attrs d; dev_buffer_attrs := dev_buffer_attrs d;
     dev_debug_attrs := v;
     dev_channels := dev_channels d; dev_mask := dev_mask d |}.
Definition set_dev_channels v (d : iio_device) :=
  {| dev_name := dev_name d; dev_id := dev_id d; dev_label := dev_label d;
     dev_attrs := dev_attrs d; dev_buffer_attrs := dev_buffer_attrs d;
     dev_debug_attrs := dev_debug_attrs d;
     dev_channels := v; dev_mask := dev_mask d |}.

Definition set_ctx_params v (c : iio_context) :=
  {| ctx_name := ctx_name c; ctx_description := ctx_description c;
     ctx_major := ctx_major c; ctx_minor := ctx_minor c;
     ctx_git_tag := ctx_git_tag c; ctx_devices := ctx_devices c;
     ctx_xml := ctx_xml c; ctx_attrs := ctx_attrs c; ctx_params := v |}.
Definition set_ctx_version (major minor : Z) (tag : option string)
    (c : iio_context) :=
  {| ctx_name := ctx_name c; ctx_description := ctx_description c;
     ctx_major := major; ctx_minor := minor;
     ctx_git_tag := tag; ctx_devices := ctx_devices c;
     ctx_xml := ctx_xml c; ctx_attrs := ctx_attrs c;
     ctx_params := ctx_params c |}.

(** [zalloc]: every field zero, every pointer NULL. *)
Definition zalloc_format : iio_data_format :=
  {| fmt_length := 0; fmt_bits := 0; fmt_shift := 0;
     fmt_is_signed := false; fmt_is_fully_defined := false;
     fmt_is_be := false; fmt_with_scale := false;
     fmt_scale := float_zero; fmt_repeat := 0 |}.
Definition zalloc_channel : iio_channel :=
  {| chn_is_output := false; chn_is_scan_element := false;
     chn_format := zalloc_format; chn_name := None; chn_id := None;
     chn_index := 0; chn_modifier := 0; chn_type := 0;
     chn_attrs := []; chn_number := 0 |}.
Definition zalloc_device : iio_device :=
  {| dev_name := None; dev_id := None; dev_label := None;
     dev_attrs := []; dev_buffer_attrs := []; dev_debug_attrs := [];
     dev_channels := []; dev_mask := None |}.

(** *** Functions of the library defined outside [xml.c] *)

(** [xml.c] calls these and acts on what they return; their bodies are
    in other files of the library.  Each takes what the C function
    reads and returns its [int] with the object it may have changed; the
    one that returns a pointer yields an object or an encoded error.
    [add_iio_dev_attr] gets the device and the registry its second
    argument points to, and returns that registry: it is taken to write
    the device through that pointer only. *)
Class Collaborators := {
  iio_context_create_from_backend :
    iio_backend -> option string -> iio_ptr iio_context;
  iio_context_add_attr :
    iio_context -> string -> string -> Z * iio_context;
  iio_context_add_device :
    iio_context -> iio_device -> Z * iio_context;
  iio_context_init : iio_context -> Z * iio_context;
  add_iio_dev_attr :
    iio_device -> iio_dev_attrs -> string -> string -> Z * iio_dev_attrs;
  iio_channel_init_finalize : iio_channel -> iio_channel
}.

Context {CO : Collaborators}.

Import Libc.

(** *** [add_attr_to_channel] *)

(** The attribute loop: the last [name] and [filename] seen. *)
Definition channel_attr_fields (st : option string * option string)
    (attr : xmlAttr) : option string * option string :=
  if streq (attr_name attr) "name" then (Some (attr_content attr), snd st)
  else if streq (attr_name attr) "filename" then
    (fst st, Some (attr_content attr))
  else st.

Definition add_attr_to_channel (chn : iio_channel) (n : xmlNode)
  : Z * iio_channel :=
  let '(name, filename) :=
    fold_left channel_attr_fields (properties n) (None, None) in
  match name with
  | None => (- EINVAL, chn)
  | Some nm =>
      let filename := match filename with
                      | Some f => Some f
                      | None => Some nm
                      end in
      (0, set_chn_attrs
            (chn_attrs chn ++ [{| ca_name := Some nm;
                                  ca_filename := filename |}]) chn)
  end.

(** *** [add_attr_to_device] *)

Definition device_attr_name (name : option string) (attr : xmlAttr)
  : option string :=
  if streq (attr_name attr) "name" then Some (attr_content attr) else name.

Definition add_attr_to_device (dev : iio_device) (n : xmlNode)
    (type : iio_attr_type) : Z * iio_device :=
  match fold_left device_attr_name (properties n) None with
  | None => (- EINVAL, dev)
  | Some name =>
      match type with
      | IIO_ATTR_TYPE_DEBUG =>
          let '(ret, attrs) :=
            add_iio_dev_attr dev (dev_debug_attrs dev) name " debug" in
          (ret, set_dev_debug_attrs attrs dev)
      | IIO_ATTR_TYPE_DEVICE =>
          let '(ret, attrs) :=
            add_iio_dev_attr dev (dev_attrs dev) name "" in
          (ret, set_dev_attrs attrs dev)
      | IIO_ATTR_TYPE_BUFFER =>
          let '(ret, attrs) :=
            add_iio_dev_attr dev (dev_buffer_attrs dev) name " buffer" in
          (ret, set_dev_buffer_attrs attrs dev)
      end
  end.

(** *** [setup_scan_element] *)

(** The formats ["%ce:%c%u/%uX%u>>%u"] and ["%ce:%c%u/%u>>%u"]. *)
Definition FORMAT_REPEAT : list directive :=
  [D_char; D_lit "e"; D_lit ":"; D_char; D_uint; D_lit "/"; D_uint;
   D_lit "X"; D_uint; D_lit ">"; D_lit ">"; D_uint].
Definition FORMAT_PLAIN : list directive :=
  [D_char; D_lit "e"; D_lit ":"; D_char; D_uint; D_lit "/"; D_uint;
   D_lit ">"; D_lit ">"; D_uint].

(** The objects the pointer arguments of [iio_sscanf] refer to. *)
Inductive scan_target :=
| T_e | T_s | T_bits | T_length | T_repeat | T_shift.

(** The locals [e], [s] (indeterminate until assigned) and the format. *)
Record scan_state := {
  loc_e : option ascii;
  loc_s : option ascii;
  loc_format : iio_data_format
}.

Definition store (t : scan_target) (v : scan_value) (st : scan_state)
  : scan_state :=
  match t, v with
  | T_e, V_char c =>
      {| loc_e := Some c; loc_s := loc_s st; loc_format := loc_format st |}
  | T_s, V_char c =>
      {| loc_e := loc_e st; loc_s := Some c; loc_format := loc_format st |}
  | T_bits, V_uint u =>
      {| loc_e := loc_e st; loc_s := loc_s st;
         loc_format := set_fmt_bits u (loc_format st) |}
  | T_length, V_uint u =>
      {| loc_e := loc_e st; loc_s := loc_s st;
         loc_format := set_fmt_length u (loc_format st) |}
  | T_repeat, V_uint u =>
      {| loc_e := loc_e st; loc_s := loc_s st;
         loc_format := set_fmt_repeat u (loc_format st) |}
  | T_shift, V_uint u =>
      {| loc_e := loc_e st; loc_s := loc_s st;
         loc_format := set_fmt_shift u (loc_format st) |}
  | _, _ => st
  end.

Fixpoint store_all (ts : list scan_target) (vs : list scan_value)
    (st : scan_state) : scan_state :=
  match ts, vs with
  | t :: ts', v :: vs' => store_all ts' vs' (store t v st)
  | _, _ => st
  end.

(** [iio_sscanf(content, fmt, args...)], which is [sscanf]: the count
    returned and the state after the assignments that were made. *)
Definition iio_sscanf (content : string) (fmt : list directive)
    (args : list scan_target) (st : scan_state) : Z * scan_state :=
  let '(ret, vs) := sscanf content fmt in (ret, store_all args vs st).

Definition char_is (c : option ascii) (x : ascii) : bool :=
  match c with
  | Some c => Ascii.eqb c x
  | None => false
  end.

(** The three assignments that follow a complete scan. *)
Definition format_flags (st : scan_state) : iio_data_format :=
  let f := loc_format st in
  set_fmt_flags
    (char_is (loc_e st) "b")
    (char_is (loc_s st) "s" || char_is (loc_s st) "S")
    (char_is (loc_s st) "S" || char_is (loc_s st) "U"
     || (fmt_bits f =? fmt_length f))
    f.

(** The body of the attribute loop of [setup_scan_element]. *)
Definition setup_scan_element_attr (chn : iio_channel) (attr : xmlAttr)
  : flow * iio_channel :=
  let name := attr_name attr in
  let content := attr_content attr in
  if streq name "index" then
    let r := strtoll content 0 in
    if negb (st_moved r) || (st_value r <? 0) || st_erange r
    then (Leave (- EINVAL), chn)
    else (Next, set_chn_index (st_value r) chn)
  else if streq name "format" then
    if strchr content "X" then
      let '(err, st) :=
        iio_sscanf content FORMAT_REPEAT
          [T_e; T_s; T_bits; T_length; T_repeat; T_shift]
          {| loc_e := None; loc_s := None; loc_format := chn_format chn |} in
      if negb (err =? 6) then
        (Leave (- EINVAL), set_chn_format (loc_format st) chn)
      else (Next, set_chn_format (format_flags st) chn)
    else
      let '(err, st) :=
        iio_sscanf content FORMAT_PLAIN
          [T_e; T_s; T_bits; T_length; T_shift]
          {| loc_e := None; loc_s := None;
             loc_format := set_fmt_repeat 1 (chn_format chn) |} in
      if negb (err =? 5) then
        (Leave (- EINVAL), set_chn_format (loc_format st) chn)
      else (Next, set_chn_format (format_flags st) chn)
  else if streq name "scale" then
    let r := strtof content in
    if (sf_consumed r =? 0)%nat || sf_erange r then
      (Leave (- EINVAL),
       set_chn_format (set_fmt_with_scale false (chn_format chn)) chn)
    else
      (Next, set_chn_format
               (set_fmt_scale (sf_value r)
                  (set_fmt_with_scale true (chn_format chn))) chn)
  else (Next, chn).

(** The [int] a function returns after a loop: the code it left the
    loop with, or the [return 0] after it. *)
Definition returned (f : flow) : Z :=
  match f with
  | Next => 0
  | Leave err => err
  end.

Definition setup_scan_element (chn : iio_channel) (n : xmlNode)
  : Z * iio_channel :=
  let '(f, chn) := for_each setup_scan_element_attr (properties n) chn in
  (returned f, chn).

(** *** [create_channel] *)

Definition create_channel_attr (chn : iio_channel) (attr : xmlAttr)
  : iio_channel :=
  let name := attr_name attr in
  let content := attr_content attr in
  if streq name "name" then set_chn_name (Some content) chn
  else if streq name "id" then set_chn_id (Some content) chn
  else if streq name "type" then
    if streq content "output" then set_chn_is_output true chn else chn
  else chn.

Definition create_channel_child (chn : iio_channel) (n : xmlNode)
  : flow * iio_channel :=
  if streq (node_name n) "attribute" then
    leave_if negative (add_attr_to_channel chn n)
  else if streq (node_name n) "scan-element" then
    leave_if negative
      (setup_scan_element (set_chn_is_scan_element true chn) n)
  else (Next, chn).

Definition create_channel (n : xmlNode) : iio_ptr iio_channel :=
  let chn := set_chn_index (- ENOENT) zalloc_channel in
  let chn := fold_left create_channel_attr (properties n) chn in
  match chn_id chn with
  | None => Err (- EINVAL)
  | Some _ =>
      match for_each create_channel_child (children n) chn with
      | (Leave err, _) => Err err
      | (Next, chn) => Ptr (iio_channel_init_finalize chn)
      end
  end.

(** *** [create_device] *)

Definition create_device_attr (dev : iio_device) (attr : xmlAttr)
  : iio_device :=
  let name := attr_name attr in
  let content := attr_content attr in
  if streq name "name" then set_dev_name (Some content) dev
  else if streq name "label" then set_dev_label (Some content) dev
  else if streq name "id" then set_dev_id (Some content) dev
  else dev.

Definition create_device_child (dev : iio_device) (n : xmlNode)
  : flow * iio_device :=
  if streq (node_name n) "channel" then
    match create_channel n with
    | Err err => (Leave err, dev)
    | Ptr chn => (Next, set_dev_channels (dev_channels dev ++ [chn]) dev)
    end
  else if streq (node_name n) "attribute" then
    leave_if negative (add_attr_to_device dev n IIO_ATTR_TYPE_DEVICE)
  else if streq (node_name n) "debug-attribute" then
    leave_if negative (add_attr_to_device dev n IIO_ATTR_TYPE_DEBUG)
  else if streq (node_name n) "buffer-attribute" then
    leave_if negative (add_attr_to_device dev n IIO_ATTR_TYPE_BUFFER)
  else (Next, dev).

Definition create_device (n : xmlNode) : iio_ptr iio_device :=
  let dev := fold_left create_device_attr (properties n) zalloc_device in
  match dev_id dev with
  | None => Err (- EINVAL)
  | Some _ =>
      match for_each create_device_child (children n) dev with
      | (Leave err, _) => Err err
      | (Next, dev) => Ptr dev
      end
  end.

(** *** The backend and the context *)

Definition IIO_BACKEND_API_V1 : Z := 1.

Definition iio_xml_backend : iio_backend :=
  {| api_version := IIO_BACKEND_API_V1; backend_name := "xml";
     uri_prefix := "xml:" |}.

Definition context_attr_fields (st : option string * option string)
    (attr : xmlAttr) : option string * option string :=
  if streq (attr_name attr) "name" then (Some (attr_content attr), snd st)
  else if streq (attr_name attr) "value" then
    (fst st, Some (attr_content attr))
  else st.

Definition parse_context_attr (ctx : iio_context) (n : xmlNode)
  : Z * iio_context :=
  match fold_left context_attr_fields (properties n) (None, None) with
  | (Some name, Some value) => iio_context_add_attr ctx name value
  | _ => (- EINVAL, ctx)
  end.

Definition populate_child (ctx : iio_context) (n : xmlNode)
  : flow * iio_context :=
  if streq (node_name n) "context-attribute" then
    leave_if nonzero (parse_context_attr ctx n)
  else if negb (streq (node_name n) "device") then (Next, ctx)
  else
    match create_device n with
    | Err err => (Leave err, ctx)
    | Ptr dev => leave_if nonzero (iio_context_add_device ctx dev)
    end.

Definition iio_populate_xml_context_helper (ctx : iio_context)
    (root : xmlNode) : Z * iio_context :=
  match for_each populate_child (children root) ctx with
  | (Leave err, ctx) => (err, ctx)
  | (Next, ctx) => iio_context_init ctx
  end.

(** The locals of [iio_create_xml_context_helper] the attribute loop
    assigns. *)
Record root_fields := {
  rf_description : option string;
  rf_git_tag : option string;
  rf_major : Z;
  rf_minor : Z
}.

Definition root_attr (st : root_fields) (attr : xmlAttr) : root_fields :=
  let content := attr_content attr in
  if streq (attr_name attr) "description" then
    {| rf_description := Some content; rf_git_tag := rf_git_tag st;
       rf_major := rf_major st; rf_minor := rf_minor st |}
  else if streq (attr_name attr) "version-major" then
    {| rf_description := rf_description st; rf_git_tag := rf_git_tag st;
       rf_major := st_value (strtol content 10); rf_minor := rf_minor st |}
  else if streq (attr_name attr) "version-minor" then
    {| rf_description := rf_description st; rf_git_tag := rf_git_tag st;
       rf_major := rf_major st; rf_minor := st_value (strtol content 10) |}
  else if streq (attr_name attr) "version-git" then
    {| rf_description := rf_description st; rf_git_tag := Some content;
       rf_major := rf_major st; rf_minor := rf_minor st |}
  else st.

Definition root_fields_init : root_fields :=
  {| rf_description := None; rf_git_tag := None;
     rf_major := 0; rf_minor := 0 |}.

(** Conversion of a [long] to [unsigned int]. *)
Definition to_uint (z : Z) : Z := z mod UINT_MODULUS.

Definition iio_create_xml_context_helper (params : iio_context_params)
    (doc : xmlDoc) : iio_ptr iio_context :=
  let root := doc in
  if negb (streq (node_name root) "context") then Err (- EINVAL)
  else
    let rf := fold_left root_attr (properties root) root_fields_init in
    match iio_context_create_from_backend iio_xml_backend
            (rf_description rf) with
    | Err err => Err err
    | Ptr ctx =>
        let ctx := set_ctx_params (Some params) ctx in
        let ctx :=
          match rf_git_tag rf with
          | Some tag =>
              set_ctx_version (to_uint (rf_major rf)) (to_uint (rf_minor rf))
                (Some tag) ctx
          | None => ctx
          end in
        let '(err, ctx) := iio_populate_xml_context_helper ctx root in
        if nonzero err then Err err else Ptr ctx
    end.

(** *** The contexts [iio_create_xml_context_helper] constructs *)

(** A context is constructed by [iio_context_create_from_backend] and
    released by [iio_context_destroy], and by nothing else in [xml.c].
    The value the helper returns does not show whether it has called
    them, so the helper is followed a second time with these calls
    written down in the order they are made: the one call of the
    constructor, after the root name has been tested and the attributes
    of the root have been read, and the call of the destructor when the
    population of the context fails (the one after a failed
    [iio_strdup] is among the allocation failures left out). *)
Inductive context_call :=
| Create_from_backend (backend : iio_backend) (description : option string)
| Destroy (ctx : iio_context).

Definition iio_create_xml_context_helper_traced
    (params : iio_context_params) (doc : xmlDoc)
  : iio_ptr iio_context * list context_call :=
  let root := doc in
  if negb (streq (node_name root) "context") then (Err (- EINVAL), [])
  else
    let rf := fold_left root_attr (properties root) root_fields_init in
    let created := [Create_from_backend iio_xml_backend (rf_description rf)] in
    match iio_context_create_from_backend iio_xml_backend
            (rf_description rf) with
    | Err err => (Err err, created)
    | Ptr ctx =>
        let ctx := set_ctx_params (Some params) ctx in
        let ctx :=
          match rf_git_tag rf with
          | Some tag =>
              set_ctx_version (to_uint (rf_major rf)) (to_uint (rf_minor rf))
                (Some tag) ctx
          | None => ctx
          end in
        let '(err, ctx) := iio_populate_xml_context_helper ctx root in
        if nonzero err then (Err err, created ++ [Destroy ctx])
        else (Ptr ctx, created)
    end.

(** The contexts constructed and not released by a sequence of calls. *)
Definition live_contexts (calls : list context_call) : Z :=
  fold_left (fun n c => match c with
                        | Create_from_backend _ _ => n + 1
                        | Destroy _ => n - 1
                        end) calls 0.

(** *** [xml_create_context] and [xml_create_context_mem] *)

(** The two readers of libxml2 the backend calls: the document parsed
    from a text in memory or from the file of a given name, [None] for
    the NULL they return when there is no document. *)
Class XmlReader := {
  xmlReadMemory : string -> option xmlDoc;
  xmlReadFile : string -> option xmlDoc
}.

Context {XR : XmlReader}.

(** [#define XML_HEADER]: <?xml version="1.0" encoding="utf-8"?> *)
Definition XML_HEADER : string :=
  "<?xml version=" +:+ String "034" ("1.0" +:+ String "034"
    (" encoding=" +:+ String "034" ("utf-8" +:+ String "034" "?>"))).

(** [strncmp(a, b, n) == 0] *)
Fixpoint strncmp_eq (a b : string) (n : nat) {struct n} : bool :=
  match n with
  | O => true
  | S n' =>
      match a, b with
      | EmptyString, EmptyString => true
      | String x a', String y b' => Ascii.eqb x y && strncmp_eq a' b' n'
      | _, _ => false
      end
  end.

Definition strlen (s : string) : nat := String.length s.

Definition xml_create_context (params : iio_context_params) (arg : string)
  : iio_ptr iio_context :=
  let doc :=
    if strncmp_eq arg XML_HEADER (strlen XML_HEADER)
    then xmlReadMemory arg
    else xmlReadFile arg in
  match doc with
  | None => Err (- EINVAL)
  | Some doc => iio_create_xml_context_helper params doc
  end.

(** [xmlReadMemory(xml, len, ...)] reads the first [len] characters. *)
Definition xml_create_context_mem (params : iio_context_params)
    (xml : string) (len : nat) : iio_ptr iio_context :=
  match xmlReadMemory (String.substring 0 len xml) with
  | None => Err (- EINVAL)
  | Some doc => iio_create_xml_context_helper params doc
  end.

End Model.

(** ** A reference platform *)

Module Reference.

Import Libc.

(** A decimal floating literal as read, before any rounding to the
    binary format: its value is [(-1)^neg * mant * 10^exp10]. *)
Record decimal := {
  dec_neg : bool;
  dec_mant : Z;
  dec_exp10 : Z
}.

Fixpoint strlen (s : string) : nat :=
  match s with
  | EmptyString => O
  | String _ s' => S (strlen s')
  end.

(** Digits of the fraction: each one extends the mantissa and lowers the
    decimal exponent by one. *)
Fixpoint scan_fraction (mant e10 : Z) (s : string) : Z * Z * string :=
  match s with
  | String c s' =>
      if isdigit c then scan_fraction (10 * mant + (code c - 48)) (e10 - 1) s'
      else (mant, e10, s)
  | EmptyString => (mant, e10, s)
  end.

(** An exponent part [e|E, optional sign, digits]; it is consumed only
    when at least one digit follows. *)
Definition scan_exponent (s : string) : Z * string :=
  match s with
  | String c s' =>
      if Ascii.eqb c "e" || Ascii.eqb c "E" then
        let '(neg, s2) := scan_sign s' in
        if starts_with_digit 10 s2 then
          let '(e, rest) := scan_digits 10 0 s2 in
          (if neg : bool then - e else e, rest)
        else (0, s)
      else (0, s)
  | EmptyString => (0, s)
  end.

(** [ERANGE] for binary32: the magnitude rounds beyond [FLT_MAX], or is
    not zero and lies below [FLT_MIN]. *)
Definition out_of_float_range (mant e10 : Z) : bool :=
  if mant =? 0 then false
  else if 0 <=? e10 then (2 ^ 25 - 1) * 2 ^ 103 <=? mant * 10 ^ e10
  else ((2 ^ 25 - 1) * 2 ^ 103 * 10 ^ (- e10) <=? mant)
       || (mant * 2 ^ 126 <? 10 ^ (- e10)).

(** [strtof] on decimal literals: white space, an optional sign, digits
    with an optional fraction, an optional exponent.  The hexadecimal,
    INF and NAN forms are not part of this reference. *)
Definition strtof_decimal (content : string) : strtof_result decimal :=
  let '(neg, s1) := scan_sign (skip_space content) in
  let '(m, s2) := scan_digits 10 0 s1 in
  let '(m, e10, s3) :=
    match s2 with
    | String c s' => if Ascii.eqb c "." then scan_fraction m 0 s'
                     else (m, 0, s2)
    | EmptyString => (m, 0, s2)
    end in
  let has_digits :=
    starts_with_digit 10 s1
    || match s1 with
       | String c s' => Ascii.eqb c "." && starts_with_digit 10 s'
       | EmptyString => false
       end in
  if has_digits then
    let '(e, rest) := scan_exponent s3 in
    {| sf_value := {| dec_neg := neg; dec_mant := m; dec_exp10 := e10 + e |};
       sf_consumed := (strlen content - strlen rest)%nat;
       sf_erange := out_of_float_range m (e10 + e) |}
  else
    {| sf_value := {| dec_neg := false; dec_mant := 0; dec_exp10 := 0 |};
       sf_consumed := O; sf_erange := false |}.

#[export] Instance platform : Platform := {|
  float := decimal;
  float_zero := {| dec_neg := false; dec_mant := 0; dec_exp10 := 0 |};
  strtof := strtof_decimal;
  iio_context_params := unit
|}.

(** Modelled from the spec: [iio_context_create_from_backend] is defined
    outside [xml.c]; the spec has it construct an empty Context from the
    backend identity and the given description. *)
Definition context_create_from_backend (backend : iio_backend)
    (description : option string) : iio_ptr iio_context :=
  Ptr {| ctx_name := Some (backend_name backend);
         ctx_description := description;
         ctx_major := 0; ctx_minor := 0; ctx_git_tag := None;
         ctx_devices := []; ctx_xml := None; ctx_attrs := [];
         ctx_params := None |}.

Definition has_key (key : string) (l : list (string * string)) : bool :=
  existsb (fun kv => streq (fst kv) key) l.

(** Modelled from the spec: [iio_context_add_attr] is defined outside
    [xml.c]; the spec has it insert the pair unless the key is already
    there, in which case the first occurrence is kept. *)
Definition context_add_attr (ctx : iio_context) (key value : string)
  : Z * iio_context :=
  if has_key key (ctx_attrs ctx) then (0, ctx)
  else
    (0, {| ctx_name := ctx_name ctx;
           ctx_description := ctx_description ctx;
           ctx_major := ctx_major ctx; ctx_minor := ctx_minor ctx;
           ctx_git_tag := ctx_git_tag ctx; ctx_devices := ctx_devices ctx;
           ctx_xml := ctx_xml ctx;
           ctx_attrs := ctx_attrs ctx ++ [(key, value)];
           ctx_params := ctx_params ctx |}).

(** Modelled from the spec: [iio_context_add_device] is defined outside
    [xml.c]; the spec has the Context own its Devices in document
    order. *)
Definition context_add_device (ctx : iio_context) (dev : iio_device)
  : Z * iio_context :=
  (0, {| ctx_name := ctx_name ctx;
         ctx_description := ctx_description ctx;
         ctx_major := ctx_major ctx; ctx_minor := ctx_minor ctx;
         ctx_git_tag := ctx_git_tag ctx;
         ctx_devices := ctx_devices ctx ++ [dev];
         ctx_xml := ctx_xml ctx; ctx_attrs := ctx_attrs ctx;
         ctx_params := ctx_params ctx |}).

Definition number_channel (i : nat) (c : iio_channel) : iio_channel :=
  {| chn_is_output := chn_is_output c;
     chn_is_scan_element := chn_is_scan_element c;
     chn_format := chn_format c; chn_name := chn_name c;
     chn_id := chn_id c; chn_index := chn_index c;
     chn_modifier := chn_modifier c; chn_type := chn_type c;
     chn_attrs := chn_attrs c; chn_number := Z.of_nat i |}.

Definition finalize_device (d : iio_device) : iio_device :=
  {| dev_name := dev_name d; dev_id := dev_id d; dev_label := dev_label d;
     dev_attrs := dev_attrs d; dev_buffer_attrs := dev_buffer_attrs d;
     dev_debug_attrs := dev_debug_attrs d;
     dev_channels := imap number_channel (dev_channels d);
     dev_mask :=
       Some (Mask.iio_create_channels_mask
               (Z.of_nat (length (dev_channels d)))) |}.

(** Modelled from the spec: [iio_context_init] is defined outside
    [xml.c]; the spec has it number the channels of each device and size
    the device's mask to its channel count. *)
Definition context_init (ctx : iio_context) : Z * iio_context :=
  (0, {| ctx_name := ctx_name ctx;
         ctx_description := ctx_description ctx;
         ctx_major := ctx_major ctx; ctx_minor := ctx_minor ctx;
         ctx_git_tag := ctx_git_tag ctx;
         ctx_devices := map finalize_device (ctx_devices ctx);
         ctx_xml := ctx_xml ctx; ctx_attrs := ctx_attrs ctx;
         ctx_params := ctx_params ctx |}).

(** Modelled from the spec: [add_iio_dev_attr] is defined outside
    [xml.c]; the spec has it keep the names of a registry distinct, in
    insertion order, a name already present being a success that
    changes nothing. *)
Definition dev_attr_add (dev : iio_device) (attrs : iio_dev_attrs)
    (attr type : string) : Z * iio_dev_attrs :=
  if existsb (streq attr) attrs then (0, attrs) else (0, attrs ++ [attr]).

(** Modelled from the spec: [iio_channel_init_finalize] is defined
    outside [xml.c]; the spec gives it no effect on the fields the
    builder fills. *)
Definition channel_init_finalize (chn : iio_channel) : iio_channel := chn.

#[export] Instance collaborators : Collaborators := {|
  iio_context_create_from_backend := context_create_from_backend;
  iio_context_add_attr := context_add_attr;
  iio_context_add_device := context_add_device;
  iio_context_init := context_init;
  add_iio_dev_attr := dev_attr_add;
  iio_channel_init_finalize := channel_init_finalize
|}.

End Reference.

Import Libc.


(** ** The properties, in the words of the description *)

Section Properties.

Context {PF : Platform}.

Import Libc.

Definition format_attr (content : string) : xmlAttr :=
  {| attr_name := "format"; attr_content := content |}.
Definition scale_attr (content : string) : xmlAttr :=
  {| attr_name := "scale"; attr_content := content |}.

(** A <scan-element> with the given attributes. *)
Definition scan_element_node (attrs : list xmlAttr) : xmlNode :=
  XmlNode "scan-element" attrs [].

(** *** The format descriptor *)

Fixpoint all_chars (p : ascii -> bool) (s : string) : bool :=
  match s with
  | EmptyString => true
  | String c s' => p c && all_chars p s'
  end.

Fixpoint decimal_from (acc : Z) (ds : string) : Z :=
  match ds with
  | EmptyString => acc
  | String c ds' => decimal_from (10 * acc + (code c - 48)) ds'
  end.

(** The number a run of decimal digits denotes. *)
Definition decimal_value (ds : string) : Z := decimal_from 0 ds.

(** One or more decimal digits, then the rest of the text. *)
Fixpoint after_digits (seen : bool) (s : string) : option string :=
  match s with
  | String c s' => if isdigit c then after_digits true s'
                   else if seen then Some s else None
  | EmptyString => if seen then Some s else None
  end.

Definition after_char (c : ascii) (s : string) : option string :=
  match s with
  | String x s' => if Ascii.eqb x c then Some s' else None
  | EmptyString => None
  end.

Definition one_of (cs : list ascii) (s : string) : option string :=
  match s with
  | String x s' => if existsb (Ascii.eqb x) cs then Some s' else None
  | EmptyString => None
  end.

(** The descriptor grammar of the description, read strictly:
    [b|l] e : [s|S|u|U] digits / digits [X digits] >> digits, and then
    the end of the text; the repeat clause is there exactly when
    [has_repeat] says so. *)
Definition spec_format_shape (has_repeat : bool) (s : string) : bool :=
  match
    s0 ← one_of ["b"; "l"]%char s;
    s1 ← after_char "e" s0;
    s2 ← after_char ":" s1;
    s3 ← one_of ["s"; "S"; "u"; "U"]%char s2;
    s4 ← after_digits false s3;
    s5 ← after_char "/" s4;
    s6 ← after_digits false s5;
    s7 ← (if has_repeat
          then s' ← after_char "X" s6; after_digits false s'
          else Some s6);
    s8 ← after_char ">" s7;
    s9 ← after_char ">" s8;
    after_digits false s9
  with
  | Some EmptyString => true
  | _ => false
  end.

(** The text [%u] accepts for one field, and the value it stores:
    white space, an optional sign, one or more decimal digits. *)
Definition uint_field (f : string) (u : Z) : Prop :=
  exists ws sg ds,
    f = ws +:+ sg +:+ ds
    /\ all_chars isspace ws = true
    /\ (sg = "" \/ sg = "+" \/ sg = "-")
    /\ ds <> ""
    /\ all_chars isdigit ds = true
    /\ u = uint_of (String.eqb sg "-") (decimal_value ds).

(** The texts the decoder accepts without a repeat clause: a prefix
    [<char> e : <char> <uint> / <uint> >> <uint>], then anything that
    does not go on with a digit. *)
Definition plain_shape (content : string) (e s : ascii) (b l h : Z)
  : Prop :=
  exists B L H rest,
    content = String e ("e:" +:+ String s (B +:+ "/" +:+ L +:+ ">>"
                                           +:+ H +:+ rest))
    /\ uint_field B b /\ uint_field L l /\ uint_field H h
    /\ starts_with_digit 10 rest = false.

(** The same with the repeat clause [X <uint>]. *)
Definition repeat_shape (content : string) (e s : ascii) (b l r h : Z)
  : Prop :=
  exists B L R H rest,
    content = String e ("e:" +:+ String s (B +:+ "/" +:+ L +:+ "X" +:+ R
                                           +:+ ">>" +:+ H +:+ rest))
    /\ uint_field B b /\ uint_field L l /\ uint_field R r
    /\ uint_field H h
    /\ starts_with_digit 10 rest = false.

(** The shape the decoder tries is chosen by an 'X' anywhere in the
    text. *)
Definition accepted_shape (content : string) (e s : ascii)
    (b l r h : Z) : Prop :=
  (strchr content "X" = false /\ r = 1 /\ plain_shape content e s b l h)
  \/ (strchr content "X" = true /\ repeat_shape content e s b l r h).

(** The Data Format a descriptor with these fields decodes to; the
    scale fields are those of the format before. *)
Definition decoded_format (e s : ascii) (b l r h : Z)
    (before : iio_data_format) : iio_data_format :=
  {| fmt_length := l; fmt_bits := b; fmt_shift := h;
     fmt_is_signed := Ascii.eqb s "s" || Ascii.eqb s "S";
     fmt_is_fully_defined :=
       Ascii.eqb s "S" || Ascii.eqb s "U" || (b =? l);
     fmt_is_be := Ascii.eqb e "b";
     fmt_with_scale := fmt_with_scale before;
     fmt_scale := fmt_scale before;
     fmt_repeat := r |}.

(** *** What a complete scan is *)

Definition starts_with_space (s : string) : bool :=
  match s with
  | String c _ => isspace c
  | EmptyString => false
  end.

Definition is_conversion (d : directive) : bool :=
  match d with
  | D_lit _ => false
  | _ => true
  end.

Definition conversions (fmt : list directive) : nat :=
  length (List.filter is_conversion fmt).

Definition ends_in_conversion (fmt : list directive) : bool :=
  match last fmt with
  | Some d => is_conversion d
  | None => false
  end.

(** [scans fmt inp vs]: the input matches every directive of the format,
    the conversions storing [vs]; what follows the last directive is not
    looked at. *)
Inductive scans : list directive -> string -> list scan_value -> Prop :=
| scans_nil inp : scans [] inp []
| scans_lit c fmt inp vs :
    scans fmt inp vs -> scans (D_lit c :: fmt) (String c inp) vs
| scans_char x fmt inp vs :
    scans fmt inp vs ->
    scans (D_char :: fmt) (String x inp) (V_char x :: vs)
| scans_uint f u rest fmt vs :
    uint_field f u -> starts_with_digit 10 rest = false ->
    scans fmt rest vs ->
    scans (D_uint :: fmt) (f +:+ rest) (V_uint u :: vs).

(** *** Attributes of a node *)

(** The text of the last attribute called [key], as the attribute loops
    keep it. *)
Definition last_attr (key : string) (attrs : list xmlAttr)
  : option string :=
  fold_left
    (fun found a => if streq (attr_name a) key then Some (attr_content a)
                    else found)
    attrs None.

Definition has_attr (key : string) (n : xmlNode) : Prop :=
  exists a, a ∈ properties n /\ streq (attr_name a) key = true.

(** The number read from the last attribute called [key], 0 when
    there is none. *)
Definition parsed_number (key : string) (attrs : list xmlAttr) : Z :=
  match last_attr key attrs with
  | Some text => st_value (strtol text 10)
  | None => 0
  end.

(** *** Unknown attributes and elements *)

Definition known (names : list string) (name : string) : bool :=
  existsb (streq name) names.

Definition keep_attrs (names : list string) (attrs : list xmlAttr)
  : list xmlAttr :=
  List.filter (fun a => known names (attr_name a)) attrs.

(** An element of which only attributes are read. *)
Definition strip_leaf (names : list string) (n : xmlNode) : xmlNode :=
  XmlNode (node_name n) (keep_attrs names (properties n)) [].

Definition strip_channel_child (n : xmlNode) : xmlNode :=
  if streq (node_name n) "attribute"
  then strip_leaf ["name"; "filename"] n
  else strip_leaf ["index"; "format"; "scale"] n.

Definition strip_channel (n : xmlNode) : xmlNode :=
  XmlNode (node_name n)
    (keep_attrs ["name"; "id"; "type"] (properties n))
    (map strip_channel_child
       (List.filter
          (fun c => known ["attribute"; "scan-element"] (node_name c))
          (children n))).

Definition strip_device_child (n : xmlNode) : xmlNode :=
  if streq (node_name n) "channel" then strip_channel n
  else strip_leaf ["name"] n.

Definition strip_device (n : xmlNode) : xmlNode :=
  XmlNode (node_name n)
    (keep_attrs ["name"; "label"; "id"] (properties n))
    (map strip_device_child
       (List.filter
          (fun c => known ["channel"; "attribute"; "debug-attribute";
                           "buffer-attribute"] (node_name c))
          (children n))).

Definition strip_context_child (n : xmlNode) : xmlNode :=
  if streq (node_name n) "device" then strip_device n
  else strip_leaf ["name"; "value"] n.

(** The document without anything the schema does not name: unknown
    attributes and unknown child elements are removed at every level
    (context, context-attribute, device, the three attribute elements,
    channel, channel attribute, scan-element). *)
Definition strip_unknown (doc : xmlDoc) : xmlDoc :=
  XmlNode (node_name doc)
    (keep_attrs ["description"; "version-major"; "version-minor";
                 "version-git"; "name"] (properties doc))
    (map strip_context_child
       (List.filter
          (fun c => known ["context-attribute"; "device"] (node_name c))
          (children doc))).

(** *** The version of a context *)

Definition version (ctx : iio_context) : Z * Z * option string :=
  (ctx_major ctx, ctx_minor ctx, ctx_git_tag ctx).

(** What the claims on the version need of the functions defined
    outside [xml.c]: a new context has no version yet, and adding
    attributes or devices and the final initialisation leave the version
    alone. *)
Definition keep_version (CO : Collaborators) : Prop :=
  (forall backend description ctx,
      iio_context_create_from_backend backend description = Ptr ctx ->
      version ctx = (0, 0, None))
  /\ (forall ctx key value,
         version (snd (iio_context_add_attr ctx key value)) = version ctx)
  /\ (forall ctx dev,
         version (snd (iio_context_add_device ctx dev)) = version ctx)
  /\ (forall ctx, version (snd (iio_context_init ctx)) = version ctx).

(** *** Elements by name, and what is read off them *)

Definition index_attr (content : string) : xmlAttr :=
  {| attr_name := "index"; attr_content := content |}.

Definition is_named (name : string) (n : xmlNode) : bool :=
  streq (node_name n) name.

(** The pair a channel <attribute> stands for. *)
Definition channel_attr_of (n : xmlNode) : iio_channel_attr :=
  {| ca_name := last_attr "name" (properties n);
     ca_filename :=
       match last_attr "filename" (properties n) with
       | Some f => Some f
       | None => last_attr "name" (properties n)
       end |}.

(** Whether some attribute called [key] has the text [content]. *)
Definition has_attr_value (key content : string) (attrs : list xmlAttr)
  : bool :=
  existsb (fun a => streq (attr_name a) key && streq (attr_content a) content)
    attrs.

(** What the properties of built channels need of
    [iio_channel_init_finalize], defined outside [xml.c]: it leaves the
    fields the builder has filled as they are. *)
Definition finalize_keeps_parsed (CO : Collaborators) : Prop :=
  forall c,
    chn_is_output (iio_channel_init_finalize c) = chn_is_output c
    /\ chn_is_scan_element (iio_channel_init_finalize c)
       = chn_is_scan_element c
    /\ chn_format (iio_channel_init_finalize c) = chn_format c
    /\ chn_name (iio_channel_init_finalize c) = chn_name c
    /\ chn_id (iio_channel_init_finalize c) = chn_id c
    /\ chn_index (iio_channel_init_finalize c) = chn_index c
    /\ chn_attrs (iio_channel_init_finalize c) = chn_attrs c.

(** The root without its [version-major] and [version-minor]
    attributes. *)
Definition without_version_numbers (doc : xmlDoc) : xmlDoc :=
  XmlNode (node_name doc)
    (List.filter
       (fun a => negb (streq (attr_name a) "version-major"
                       || streq (attr_name a) "version-minor"))
       (properties doc))
    (children doc).

(** The three kinds of attribute element [create_device] hands to
    [add_attr_to_device]. *)
Definition is_device_attribute (n : xmlNode) : bool :=
  is_named "attribute" n || is_named "debug-attribute" n
  || is_named "buffer-attribute" n.

(** The fields of a channel a scan-element leaves alone. *)
Definition outside_scan_element (c : iio_channel) :=
  (chn_is_output c, chn_is_scan_element c, chn_name c, chn_id c, chn_attrs c).

(** The texts of a decimal index: digits that do not begin with the octal
    prefix 0, of a value a [long long] holds. *)
Definition decimal_index_text (ds : string) : Prop :=
  all_chars isdigit ds = true
  /\ starts_with_digit 10 ds = true
  /\ (forall ds', ds <> String "0" ds')
  /\ decimal_value ds <= LONG_MAX.

(** A change of the format inside the state of a scan. *)
Definition map_format (g : iio_data_format -> iio_data_format)
    (st : scan_state) : scan_state :=
  {| loc_e := loc_e st; loc_s := loc_s st; loc_format := g (loc_format st) |}.

(** Changes of a format that commute with everything the decoding of a
    descriptor assigns. *)
Definition beside_descriptor (g : iio_data_format -> iio_data_format)
  : Prop :=
  (forall u f, g (set_fmt_bits u f) = set_fmt_bits u (g f))
  /\ (forall u f, g (set_fmt_length u f) = set_fmt_length u (g f))
  /\ (forall u f, g (set_fmt_repeat u f) = set_fmt_repeat u (g f))
  /\ (forall u f, g (set_fmt_shift u f) = set_fmt_shift u (g f))
  /\ (forall be sg fd f,
         g (set_fmt_flags be sg fd f) = set_fmt_flags be sg fd (g f))
  /\ (forall f, fmt_bits (g f) = fmt_bits f)
  /\ (forall f, fmt_length (g f) = fmt_length f).

(** One turn of the attribute loop of [setup_scan_element], as a change
    of the channel. *)
Definition scan_attr_step (chn : iio_channel) (a : xmlAttr) : iio_channel :=
  snd (setup_scan_element_attr chn a).

(** Whether the loop of [setup_scan_element] goes on after an attribute. *)
Definition scan_attr_accepted (a : xmlAttr) : bool :=
  match fst (setup_scan_element_attr zalloc_channel a) with
  | Next => true
  | Leave _ => false
  end.

(** A field of a descriptor as it is printed: one or more decimal digits,
    of a value below [bound]. *)
Definition digits_below (bound : Z) (ds : string) : Prop :=
  ds <> "" /\ all_chars isdigit ds = true /\ decimal_value ds < bound.

(** The descriptor without and with a repeat clause. *)
Definition plain_descriptor (e s : ascii) (B L H : string) : string :=
  String e ("e:" +:+ String s (B +:+ "/" +:+ L +:+ ">>" +:+ H)).
Definition repeat_descriptor (e s : ascii) (B L R H : string) : string :=
  String e ("e:" +:+ String s (B +:+ "/" +:+ L +:+ "X" +:+ R +:+ ">>" +:+ H)).

End Properties.
(** ** Sample documents *)

Section Documents.

Import Reference.

Definition attr (name content : string) : xmlAttr :=
  {| attr_name := name; attr_content := content |}.

(** <context version-major="1" version-minor="2" description="demo">
      <context-attribute name="uri" value="xml:demo"/>
      <device id="iio:device0" name="adc" vendor="x">
        <channel id="voltage0" type="input">
          <scan-element index="0" format="le:s12/16>>4" scale="0.5"/>
          <attribute name="raw" filename="in_voltage0_raw"/>
          <attribute name="scale"/>
          <comment/>
        </channel>
        <channel id="voltage1" type="output"/>
        <attribute name="sampling_frequency"/>
        <debug-attribute name="direct_reg_access"/>
      </device>
      <extension/>
    </context> *)
Definition demo_document : xmlDoc :=
  XmlNode "context"
    [attr "version-major" "1"; attr "version-minor" "2";
     attr "description" "demo"]
    [XmlNode "context-attribute" [attr "name" "uri"; attr "value" "xml:demo"]
       [];
     XmlNode "device"
       [attr "id" "iio:device0"; attr "name" "adc"; attr "vendor" "x"]
       [XmlNode "channel" [attr "id" "voltage0"; attr "type" "input"]
          [XmlNode "scan-element"
             [attr "index" "0"; attr "format" "le:s12/16>>4";
              attr "scale" "0.5"] [];
           XmlNode "attribute"
             [attr "name" "raw"; attr "filename" "in_voltage0_raw"] [];
           XmlNode "attribute" [attr "name" "scale"] [];
           XmlNode "comment" [] []];
        XmlNode "channel" [attr "id" "voltage1"; attr "type" "output"] [];
        XmlNode "attribute" [attr "name" "sampling_frequency"] [];
        XmlNode "debug-attribute" [attr "name" "direct_reg_access"] []];
     XmlNode "extension" [] []].

(** A channel whose scan-element gives a format and no index. *)
Definition demo_channel : xmlNode :=
  XmlNode "channel" [attr "id" "voltage2"]
    [XmlNode "scan-element" [attr "format" "be:u8/8>>0"] [];
     XmlNode "attribute" [attr "name" "raw"] []].

(** The same document with a second device that has no [id]. *)
Definition broken_document : xmlDoc :=
  XmlNode "context" (properties demo_document)
    (children demo_document ++ [XmlNode "device" [attr "name" "dac"] []]).

(** A device with two channels and two attributes. *)
Definition demo_device : xmlNode :=
  XmlNode "device" [attr "name" "adc"; attr "id" "iio:device0"]
    [XmlNode "channel" [attr "id" "voltage0"; attr "type" "output"]
       [XmlNode "attribute" [attr "name" "raw"] []];
     XmlNode "attribute" [attr "name" "sampling_frequency"] [];
     demo_channel;
     XmlNode "debug-attribute" [attr "name" "direct_reg_access"] []].

(** A document whose only channel has no [id]. *)
Definition anonymous_channel_document : xmlDoc :=
  XmlNode "context" []
    [XmlNode "device" [attr "id" "iio:device0"]
       [XmlNode "channel" [attr "name" "voltage0"] []]].

(** A document whose only channel has a scan-element with a negative
    index. *)
Definition negative_index_document : xmlDoc :=
  XmlNode "context" []
    [XmlNode "device" [attr "id" "iio:device0"]
       [XmlNode "channel" [attr "id" "voltage0"]
          [XmlNode "scan-element"
             [attr "format" "le:s12/16>>4"; attr "index" "-1"] []]]].

(** A document with a context-attribute that has no value. *)
Definition valueless_attribute_document : xmlDoc :=
  XmlNode "context" []
    [XmlNode "context-attribute" [attr "name" "uri"] [];
     XmlNode "device" [attr "id" "iio:device0"] []].

(** A document whose device has a debug-attribute without a name. *)
Definition nameless_attribute_document : xmlDoc :=
  XmlNode "context" []
    [XmlNode "device" [attr "id" "iio:device0"]
       [XmlNode "debug-attribute" [attr "filename" "direct_reg_access"] []]].

End Documents.


(** * Proofs *)

(** ** Characters and numeric fields *)

Section ScanFacts.

Import Libc.

Ltac by_cases_on_char c :=
  destruct c as [[] [] [] [] [] [] [] []]; vm_compute; intuition congruence.

Lemma append_cons (c : ascii) (a b : string) :
  String c a +:+ b = String c (a +:+ b).
Proof. reflexivity. Qed.

Lemma append_nil (b : string) : "" +:+ b = b.
Proof. reflexivity. Qed.

Lemma append_assoc (a b c : string) : (a +:+ b) +:+ c = a +:+ b +:+ c.
Proof.
  induction a as [|x a IH]; [reflexivity|].
  rewrite !append_cons, IH. reflexivity.
Qed.

Lemma digit_in_10 (c : ascii) : digit_in 10 c = isdigit c.
Proof. by_cases_on_char c. Qed.

Lemma digit_of_10 (c : ascii) :
  isdigit c = true -> digit_of c = Some (code c - 48).
Proof. unfold digit_of. intros ->. reflexivity. Qed.

Lemma digit_not_space (c : ascii) : isdigit c = true -> isspace c = false.
Proof. by_cases_on_char c. Qed.

Lemma digit_not_sign (c : ascii) :
  isdigit c = true -> Ascii.eqb c "-" = false /\ Ascii.eqb c "+" = false.
Proof. by_cases_on_char c. Qed.

Lemma scan_digits_10_step (acc : Z) (c : ascii) (s : string) :
  scan_digits 10 acc (String c s) =
  if isdigit c then scan_digits 10 (10 * acc + (code c - 48)) s
  else (acc, String c s).
Proof.
  simpl. destruct (isdigit c) eqn:Hd.
  - rewrite (digit_of_10 c Hd).
    assert (H : digit_in 10 c = true) by (rewrite digit_in_10; exact Hd).
    unfold digit_in in H. rewrite (digit_of_10 c Hd) in H. rewrite H.
    reflexivity.
  - assert (H : digit_in 10 c = false) by (rewrite digit_in_10; exact Hd).
    unfold digit_in in H. destruct (digit_of c); [rewrite H|]; reflexivity.
Qed.

Lemma scan_digits_10_sound (s : string) : forall acc m rest,
  scan_digits 10 acc s = (m, rest) ->
  exists ds, s = ds +:+ rest /\ all_chars isdigit ds = true
             /\ m = decimal_from acc ds
             /\ starts_with_digit 10 rest = false.
Proof.
  induction s as [|c s IH]; intros acc m rest H.
  - injection H as <- <-. exists "". repeat split; reflexivity.
  - rewrite scan_digits_10_step in H. destruct (isdigit c) eqn:Hd.
    + destruct (IH _ _ _ H) as (ds & -> & Hall & -> & Hrest).
      exists (String c ds). rewrite append_cons. simpl. rewrite Hd.
      repeat split; assumption.
    + injection H as <- <-. exists "". rewrite append_nil. simpl.
      rewrite digit_in_10. repeat split; assumption.
Qed.

Lemma scan_digits_10_complete (ds : string) : forall acc rest,
  all_chars isdigit ds = true ->
  starts_with_digit 10 rest = false ->
  scan_digits 10 acc (ds +:+ rest) = (decimal_from acc ds, rest).
Proof.
  induction ds as [|c ds IH]; intros acc rest Hall Hrest.
  - rewrite append_nil.
    destruct rest as [|x rest]; [reflexivity|].
    rewrite scan_digits_10_step. simpl in Hrest. rewrite digit_in_10 in Hrest.
    rewrite Hrest. reflexivity.
  - simpl in Hall. apply andb_prop in Hall as [Hc Hall].
    rewrite append_cons, scan_digits_10_step, Hc. simpl. apply IH; assumption.
Qed.

Lemma skip_space_sound (s : string) :
  exists ws, s = ws +:+ skip_space s /\ all_chars isspace ws = true
             /\ starts_with_space (skip_space s) = false.
Proof.
  induction s as [|c s (ws & Heq & Hall & Hrest)].
  - exists "". repeat split; reflexivity.
  - simpl. destruct (isspace c) eqn:Hc.
    + exists (String c ws). rewrite append_cons, <- Heq. simpl. rewrite Hc.
      repeat split; assumption.
    + exists "". rewrite append_nil. simpl. repeat split; assumption.
Qed.

Lemma skip_space_complete (ws t : string) :
  all_chars isspace ws = true -> starts_with_space t = false ->
  skip_space (ws +:+ t) = t.
Proof.
  induction ws as [|c ws IH]; intros Hall Ht.
  - rewrite append_nil. destruct t as [|x t]; [reflexivity|].
    simpl in *. rewrite Ht. reflexivity.
  - rewrite append_cons. simpl in *.
    apply andb_prop in Hall as [-> Hall]. auto.
Qed.

Lemma scan_uint_sound (s : string) (u : Z) (rest : string) :
  scan_uint s = Conv u rest ->
  exists f, s = f +:+ rest /\ uint_field f u
            /\ starts_with_digit 10 rest = false.
Proof.
  unfold scan_uint. intros H.
  destruct (skip_space_sound s) as (ws & Heq & Hws & Hnsp).
  destruct (skip_space s) as [|c r] eqn:Hs1; [discriminate|].
  destruct (scan_sign (String c r)) as [neg s2] eqn:Hsign.
  destruct (starts_with_digit 10 s2) eqn:Hd; [|discriminate].
  destruct (scan_digits 10 0 s2) as [m rest'] eqn:Hdig.
  injection H as <- <-.
  destruct (scan_digits_10_sound _ _ _ _ Hdig) as (ds & -> & Hall & -> & Hrest).
  assert (Hne : ds <> "").
  { intros ->. rewrite append_nil in Hd. congruence. }
  assert (Hsg : exists sg, String c r = sg +:+ ds +:+ rest'
                /\ (sg = "" \/ sg = "+" \/ sg = "-")
                /\ neg = String.eqb sg "-").
  { unfold scan_sign in Hsign.
    destruct (Ascii.eqb c "-") eqn:Hm.
    - apply Ascii.eqb_eq in Hm as ->. injection Hsign as <- <-.
      exists "-". auto.
    - destruct (Ascii.eqb c "+") eqn:Hp.
      + apply Ascii.eqb_eq in Hp as ->. injection Hsign as <- <-.
        exists "+". auto.
      + injection Hsign as <- <-. exists "". auto. }
  destruct Hsg as (sg & Hsg & Hsgn & ->).
  exists (ws +:+ sg +:+ ds). split.
  - rewrite Heq, Hsg.
    rewrite !append_assoc. reflexivity.
  - split; [|assumption]. exists ws, sg, ds. auto 10.
Qed.

Lemma scan_uint_complete (f rest : string) (u : Z) :
  uint_field f u -> starts_with_digit 10 rest = false ->
  scan_uint (f +:+ rest) = Conv u rest.
Proof.
  intros (ws & sg & ds & -> & Hws & Hsg & Hne & Hds & ->) Hrest.
  destruct ds as [|d ds]; [congruence|].
  simpl in Hds. apply andb_prop in Hds as [Hd Hds].
  pose proof (digit_not_space d Hd) as Hdsp.
  destruct (digit_not_sign d Hd) as [Hdm Hdp].
  unfold scan_uint.
  rewrite !append_assoc.
  assert (Hscan : scan_digits 10 0 (String d ds +:+ rest)
                  = (decimal_value (String d ds), rest)).
  { apply scan_digits_10_complete; [simpl; rewrite Hd; exact Hds|exact Hrest]. }
  assert (Hstart : starts_with_digit 10 (String d ds +:+ rest) = true).
  { simpl. rewrite digit_in_10. exact Hd. }
  destruct Hsg as [-> | [-> | ->]].
  - rewrite skip_space_complete
      by (rewrite ?append_nil, ?append_cons; simpl; assumption).
    rewrite append_nil in *. rewrite append_cons in *.
    unfold scan_sign. rewrite Hdm, Hdp, Hstart, Hscan. reflexivity.
  - rewrite skip_space_complete by (try assumption; reflexivity).
    rewrite (append_cons "+"), append_nil.
    unfold scan_sign.
    change (Ascii.eqb "+" "-") with false. change (Ascii.eqb "+" "+") with true.
    cbv iota. rewrite Hstart, Hscan. reflexivity.
  - rewrite skip_space_complete by (try assumption; reflexivity).
    rewrite (append_cons "-"), append_nil.
    unfold scan_sign.
    change (Ascii.eqb "-" "-") with true.
    cbv iota. rewrite Hstart, Hscan. reflexivity.
Qed.

End ScanFacts.

Section FormatScan.

Import Libc.

Lemma run_scan_scans (fmt : list directive) : forall inp vs,
  run_scan fmt inp = (vs, Completed) <-> scans fmt inp vs.
Proof.
  induction fmt as [|d fmt IH]; intros inp vs.
  - simpl. split.
    + intros [= <-]. constructor.
    + inversion 1. reflexivity.
  - destruct d as [| |c]; simpl.
    + destruct inp as [|x inp].
      * split; [discriminate|inversion 1].
      * destruct (run_scan fmt inp) as [vs' st] eqn:Hrun. split.
        -- intros [= <- ->]. constructor. apply IH. assumption.
        -- intros H. inversion H as [| |x' fmt' inp' vs0 Hs|]; subst.
           apply IH in Hs. rewrite Hrun in Hs.
           injection Hs as -> ->. reflexivity.
    + destruct (scan_uint inp) as [u rest| |] eqn:Hu.
      * destruct (run_scan fmt rest) as [vs' st] eqn:Hrun. split.
        -- intros [= <- ->].
           destruct (scan_uint_sound _ _ _ Hu) as (f & -> & Hf & Hrest).
           constructor; [assumption..|]. apply IH. assumption.
        -- intros H.
           inversion H as [| | |f u' rest' fmt' vs0 Hf Hr Hs]; subst.
           rewrite (scan_uint_complete _ _ _ Hf Hr) in Hu.
           injection Hu as <- <-. apply IH in Hs. rewrite Hrun in Hs.
           injection Hs as -> ->. reflexivity.
      * split; [discriminate|]. intros H.
        inversion H as [| | |f u' rest' fmt' vs0 Hf Hr Hs]; subst.
        rewrite (scan_uint_complete _ _ _ Hf Hr) in Hu. discriminate.
      * split; [discriminate|]. intros H.
        inversion H as [| | |f u' rest' fmt' vs0 Hf Hr Hs]; subst.
        rewrite (scan_uint_complete _ _ _ Hf Hr) in Hu. discriminate.
    + destruct inp as [|x inp].
      * split; [discriminate|inversion 1].
      * destruct (Ascii.eqb x c) eqn:Hx.
        -- apply Ascii.eqb_eq in Hx as ->. rewrite IH. split.
           ++ intros. constructor. assumption.
           ++ intros H. inversion H. assumption.
        -- split; [discriminate|]. intros H. inversion H; subst.
           rewrite Ascii.eqb_refl in Hx. discriminate.
Qed.

Lemma conversions_pos (fmt : list directive) :
  ends_in_conversion fmt = true -> (0 < conversions fmt)%nat.
Proof.
  unfold ends_in_conversion, conversions.
  induction fmt as [|d fmt IH]; [discriminate|].
  destruct fmt as [|d' fmt].
  - simpl. intros ->. simpl. lia.
  - intros H. specialize (IH H). simpl in *.
    destruct (is_conversion d); simpl; lia.
Qed.

Lemma run_scan_count (fmt : list directive) : forall inp vs st,
  run_scan fmt inp = (vs, st) ->
  (st = Completed -> length vs = conversions fmt)
  /\ (st <> Completed -> ends_in_conversion fmt = true ->
      (length vs < conversions fmt)%nat).
Proof.
  induction fmt as [|d fmt IH]; intros inp vs st H.
  - injection H as <- <-. split; [reflexivity|congruence].
  - assert (Hend : ends_in_conversion (d :: fmt) = true ->
                   fmt <> [] -> ends_in_conversion fmt = true).
    { unfold ends_in_conversion. destruct fmt; [congruence|]. auto. }
    assert (Hpos : ends_in_conversion (d :: fmt) = true ->
                   (0 < conversions (d :: fmt))%nat)
      by apply conversions_pos.
    assert (Hnil : fmt = [] -> forall i v s, run_scan fmt i = (v, s) ->
                   s = Completed).
    { intros -> i v s [= _ <-]. reflexivity. }
    unfold conversions in *.
    destruct d as [| |c]; simpl in H |- *.
    + destruct inp as [|x inp].
      * injection H as <- <-. split; [discriminate|]. simpl. lia.
      * destruct (run_scan fmt inp) as [vs' st'] eqn:Hrun.
        injection H as <- <-. destruct (IH _ _ _ Hrun) as [H1 H2].
        split; intros; simpl; [auto|].
        destruct (decide (fmt = [])) as [He|He].
        -- exfalso. eauto.
        -- apply -> Nat.succ_lt_mono. auto.
    + destruct (scan_uint inp) as [u rest| |].
      * destruct (run_scan fmt rest) as [vs' st'] eqn:Hrun.
        injection H as <- <-. destruct (IH _ _ _ Hrun) as [H1 H2].
        split; intros; simpl; [auto|].
        destruct (decide (fmt = [])) as [He|He].
        -- exfalso. eauto.
        -- apply -> Nat.succ_lt_mono. auto.
      * injection H as <- <-. split; [discriminate|]. simpl. lia.
      * injection H as <- <-. split; [discriminate|]. simpl. lia.
    + destruct inp as [|x inp].
      * injection H as <- <-. split; [discriminate|]. simpl. auto.
      * destruct (Ascii.eqb x c).
        -- destruct (IH _ _ _ H) as [H1 H2]. split; [assumption|].
           intros Hst He. apply H2; [assumption|]. apply Hend; [assumption|].
           intros ->. injection H as _ <-. congruence.
        -- injection H as <- <-. split; [discriminate|]. simpl. auto.
Qed.

(** A count equal to the number of conversions of a format that ends in
    a conversion means that the whole format was matched. *)
Lemma sscanf_full (fmt : list directive) (content : string) :
  ends_in_conversion fmt = true ->
  fst (sscanf content fmt) = Z.of_nat (conversions fmt) ->
  exists vs, sscanf content fmt = (Z.of_nat (conversions fmt), vs)
             /\ scans fmt content vs.
Proof.
  unfold sscanf. intros Hend H.
  destruct (run_scan fmt content) as [vs st] eqn:Hrun.
  destruct (run_scan_count _ _ _ _ Hrun) as [H1 H2].
  pose proof (conversions_pos _ Hend) as Hpos.
  assert (Hdec : st = Completed \/ st <> Completed)
    by (destruct st; auto; right; discriminate).
  destruct Hdec as [->|Hst].
  - exists vs. apply run_scan_scans in Hrun. split; [|assumption].
    rewrite <- (H1 eq_refl). destruct vs; reflexivity.
  - specialize (H2 Hst Hend). exfalso. simpl in H.
    destruct vs; destruct st; simpl in H; try congruence; unfold EOF in H;
      simpl in *; lia.
Qed.

Lemma sscanf_scans (fmt : list directive) (content : string) vs :
  scans fmt content vs ->
  sscanf content fmt = (Z.of_nat (conversions fmt), vs).
Proof.
  intros H. apply run_scan_scans in H as Hrun. unfold sscanf.
  rewrite Hrun. destruct (run_scan_count _ _ _ _ Hrun) as [H1 _].
  rewrite <- (H1 eq_refl). destruct vs; reflexivity.
Qed.

End FormatScan.

Section FormatDecoding.

Context {PF : Platform}.

Import Libc.

Local Ltac invert_scans :=
  repeat match goal with
    | H : scans (_ :: _) _ _ |- _ => inversion H; subst; clear H
    | H : scans [] _ _ |- _ => inversion H; subst; clear H
    end.

Lemma plain_shape_scans (content : string) (e s : ascii) (b l h : Z) :
  plain_shape content e s b l h <->
  scans FORMAT_PLAIN content
    [V_char e; V_char s; V_uint b; V_uint l; V_uint h].
Proof.
  unfold FORMAT_PLAIN. split.
  - intros (B & L & H & rest & -> & HB & HL & HH & Hrest).
    apply scans_char. apply (scans_lit "e"). apply (scans_lit ":").
    apply scans_char.
    apply scans_uint; [assumption|reflexivity|]. apply (scans_lit "/").
    apply scans_uint; [assumption|reflexivity|]. apply (scans_lit ">").
    apply (scans_lit ">").
    apply scans_uint; [assumption|assumption|constructor].
  - intros H. invert_scans.
    eexists _, _, _, _. split; [reflexivity|]. auto.
Qed.

Lemma repeat_shape_scans (content : string) (e s : ascii) (b l r h : Z) :
  repeat_shape content e s b l r h <->
  scans FORMAT_REPEAT content
    [V_char e; V_char s; V_uint b; V_uint l; V_uint r; V_uint h].
Proof.
  unfold FORMAT_REPEAT. split.
  - intros (B & L & R & H & rest & -> & HB & HL & HR & HH & Hrest).
    apply scans_char. apply (scans_lit "e"). apply (scans_lit ":").
    apply scans_char.
    apply scans_uint; [assumption|reflexivity|]. apply (scans_lit "/").
    apply scans_uint; [assumption|reflexivity|]. apply (scans_lit "X").
    apply scans_uint; [assumption|reflexivity|]. apply (scans_lit ">").
    apply (scans_lit ">").
    apply scans_uint; [assumption|assumption|constructor].
  - intros H. invert_scans.
    eexists _, _, _, _, _. split; [reflexivity|]. auto 6.
Qed.

Lemma scans_plain_values (content : string) (vs : list scan_value) :
  scans FORMAT_PLAIN content vs ->
  exists e s b l h, vs = [V_char e; V_char s; V_uint b; V_uint l; V_uint h].
Proof. unfold FORMAT_PLAIN. intros H. invert_scans. eauto 6. Qed.

Lemma scans_repeat_values (content : string) (vs : list scan_value) :
  scans FORMAT_REPEAT content vs ->
  exists e s b l r h,
    vs = [V_char e; V_char s; V_uint b; V_uint l; V_uint r; V_uint h].
Proof. unfold FORMAT_REPEAT. intros H. invert_scans. eauto 7. Qed.

(** C2, as amended.  Decoding a format descriptor either succeeds or
    fails with -EINVAL.  It succeeds exactly on the texts that begin
    with one of two shapes, the one with the repeat clause when the text
    holds an 'X' anywhere and the one without otherwise:
    [<char> e : <char> <uint> / <uint> [X <uint>] >> <uint>], each
    [<uint>] being white space, an optional sign and decimal digits;
    what follows the digits of the shift is not examined.  On success
    every field of the format is the one decoded from the text. *)
Theorem format_decoding_accepts_prefix (chn : iio_channel)
    (content : string) :
  let r :=
    setup_scan_element chn (scan_element_node [format_attr content]) in
  (fst r = 0 /\
   exists e s b l rp h,
     accepted_shape content e s b l rp h
     /\ snd r = set_chn_format
                  (decoded_format e s b l rp h (chn_format chn)) chn)
  \/ (fst r = - EINVAL /\
      forall e s b l rp h, ~ accepted_shape content e s b l rp h).
Proof.
  unfold setup_scan_element, scan_element_node. simpl.
  unfold setup_scan_element_attr. simpl.
  unfold iio_sscanf.
  destruct (strchr content "X") eqn:HX.
  - destruct (sscanf content FORMAT_REPEAT) as [ret vs] eqn:Hs.
    destruct (ret =? 6) eqn:Hret; simpl.
    + left. split; [reflexivity|]. apply Z.eqb_eq in Hret as ->.
      destruct (sscanf_full FORMAT_REPEAT content eq_refl) as (vs' & Hs' & Hsc).
      { rewrite Hs. reflexivity. }
      rewrite Hs in Hs'. injection Hs' as ->.
      destruct (scans_repeat_values _ _ Hsc) as (e & s & b & l & r & h & ->).
      exists e, s, b, l, r, h. split.
      * right. split; [assumption|]. apply repeat_shape_scans. assumption.
      * reflexivity.
    + right. split; [reflexivity|]. intros e s b l rp h [[HX' _]|[_ Hsh]].
      * congruence.
      * apply repeat_shape_scans, sscanf_scans in Hsh. rewrite Hs in Hsh.
        injection Hsh as -> _. discriminate.
  - destruct (sscanf content FORMAT_PLAIN) as [ret vs] eqn:Hs.
    destruct (ret =? 5) eqn:Hret; simpl.
    + left. split; [reflexivity|]. apply Z.eqb_eq in Hret as ->.
      destruct (sscanf_full FORMAT_PLAIN content eq_refl) as (vs' & Hs' & Hsc).
      { rewrite Hs. reflexivity. }
      rewrite Hs in Hs'. injection Hs' as ->.
      destruct (scans_plain_values _ _ Hsc) as (e & s & b & l & h & ->).
      exists e, s, b, l, 1, h. split.
      * left. split; [assumption|]. split; [reflexivity|].
        apply plain_shape_scans. assumption.
      * reflexivity.
    + right. split; [reflexivity|]. intros e s b l rp h [[_ [_ Hsh]]|[HX' _]].
      * apply plain_shape_scans, sscanf_scans in Hsh. rewrite Hs in Hsh.
        injection Hsh as -> _. discriminate.
      * congruence.
Qed.

End FormatDecoding.

(** ** The channel format codec *)

Section Codec.

Context {PF : Platform}.

Import Libc.

Lemma store_keeps_repeat (t : scan_target) (v : scan_value)
    (st : scan_state) :
  t <> T_repeat ->
  fmt_repeat (loc_format (store t v st)) = fmt_repeat (loc_format st).
Proof. destruct t, v; simpl; congruence. Qed.

Lemma store_all_keeps_repeat (ts : list scan_target) :
  forall vs st,
    Forall (fun t => t <> T_repeat) ts ->
    fmt_repeat (loc_format (store_all ts vs st))
    = fmt_repeat (loc_format st).
Proof.
  induction ts as [|t ts IH]; intros vs st Hts; [reflexivity|].
  destruct vs as [|v vs]; [reflexivity|]. simpl.
  inversion Hts; subst. rewrite IH, store_keeps_repeat; auto.
Qed.

(** C1.  Decoding "be:s16/16>>0" gives big-endian, signed, 16 bits in 16,
    repeat 1, shift 0, fully defined; decoding "le:u12/16X4>>2" gives
    little-endian, unsigned, 12 bits in 16, repeat 4, shift 2; and a
    descriptor without the repeat separator always leaves repeat at 1. *)
Theorem format_decoding_examples (chn : iio_channel) :
  setup_scan_element chn (scan_element_node [format_attr "be:s16/16>>0"])
  = (0, set_chn_format
          {| fmt_length := 16; fmt_bits := 16; fmt_shift := 0;
             fmt_is_signed := true; fmt_is_fully_defined := true;
             fmt_is_be := true;
             fmt_with_scale := fmt_with_scale (chn_format chn);
             fmt_scale := fmt_scale (chn_format chn);
             fmt_repeat := 1 |} chn)
  /\ setup_scan_element chn
       (scan_element_node [format_attr "le:u12/16X4>>2"])
     = (0, set_chn_format
             {| fmt_length := 16; fmt_bits := 12; fmt_shift := 2;
                fmt_is_signed := false; fmt_is_fully_defined := false;
                fmt_is_be := false;
                fmt_with_scale := fmt_with_scale (chn_format chn);
                fmt_scale := fmt_scale (chn_format chn);
                fmt_repeat := 4 |} chn)
  /\ forall content,
       strchr content "X" = false ->
       fmt_repeat
         (chn_format
            (snd (setup_scan_element chn
                    (scan_element_node [format_attr content])))) = 1.
Proof.
  split; [reflexivity|]. split; [reflexivity|].
  intros content HX.
  unfold setup_scan_element, scan_element_node. simpl.
  unfold setup_scan_element_attr. simpl. rewrite HX.
  unfold iio_sscanf. destruct (sscanf content FORMAT_PLAIN) as [ret vs].
  assert (Hrep : forall st0,
             loc_format st0 = set_fmt_repeat 1 (chn_format chn) ->
             fmt_repeat
               (loc_format
                  (store_all [T_e; T_s; T_bits; T_length; T_shift] vs st0))
             = 1).
  { intros st0 Hst0. rewrite store_all_keeps_repeat.
    - rewrite Hst0. reflexivity.
    - repeat constructor; discriminate. }
  destruct (ret =? 5); simpl; apply Hrep; reflexivity.
Qed.

(** C5, as amended.  The scale decoder fails exactly when [strtof]
    converts nothing or reports a range error: it then clears
    [with_scale] and returns -EINVAL.  Otherwise it sets [with_scale],
    stores the value and returns 0, whatever follows the number in the
    text.  Nothing else of the channel changes. *)
Theorem scale_decoding (chn : iio_channel) (content : string) :
  let r := strtof content in
  let out :=
    setup_scan_element chn (scan_element_node [scale_attr content]) in
  let f := chn_format (snd out) in
  (if (sf_consumed r =? 0)%nat || sf_erange r
   then fst out = - EINVAL /\ fmt_with_scale f = false
        /\ fmt_scale f = fmt_scale (chn_format chn)
   else fst out = 0 /\ fmt_with_scale f = true
        /\ fmt_scale f = sf_value r)
  /\ snd out
     = set_chn_format
         (set_fmt_scale (fmt_scale f)
            (set_fmt_with_scale (fmt_with_scale f) (chn_format chn))) chn.
Proof.
  unfold setup_scan_element, scan_element_node. simpl.
  unfold setup_scan_element_attr. simpl.
  destruct ((sf_consumed (strtof content) =? 0)%nat
            || sf_erange (strtof content)); simpl.
  - split; [auto|]. destruct chn as [? ? []]; reflexivity.
  - split; [auto|]. reflexivity.
Qed.

Lemma channel_attr_fields_last (attrs : list xmlAttr) :
  forall st,
    fold_left channel_attr_fields attrs st
    = (match last_attr "name" attrs with
       | Some v => Some v
       | None => fst st
       end,
       match last_attr "filename" attrs with
       | Some v => Some v
       | None => snd st
       end).
Proof.
  unfold last_attr.
  induction attrs as [|a attrs IH] using rev_ind; intros [nm fn];
    [reflexivity|].
  rewrite !fold_left_app. simpl. rewrite IH. simpl.
  unfold channel_attr_fields. simpl.
  destruct (streq (attr_name a) "name") eqn:Hn.
  - unfold streq in Hn. apply String.eqb_eq in Hn. rewrite Hn. reflexivity.
  - destruct (streq (attr_name a) "filename"); reflexivity.
Qed.

(** C8, as amended.  Without a [name] attribute the channel attribute is
    refused with -EINVAL and the channel is left as it was.  With one,
    the pair appended to the channel has that name and the text of the
    [filename] attribute, or the name again when there is no
    [filename]; both are present, and either is the text of the
    document as it stands, the empty text included. *)
Theorem channel_attribute_fields (chn : iio_channel) (n : xmlNode) :
  add_attr_to_channel chn n =
  match last_attr "name" (properties n) with
  | None => (- EINVAL, chn)
  | Some name =>
      (0, set_chn_attrs
            (chn_attrs chn ++
             [{| ca_name := Some name;
                 ca_filename :=
                   Some (default name
                           (last_attr "filename" (properties n))) |}])
            chn)
  end.
Proof.
  unfold add_attr_to_channel. rewrite channel_attr_fields_last. simpl.
  destruct (last_attr "name" (properties n)); [|reflexivity].
  destruct (last_attr "filename" (properties n)); reflexivity.
Qed.

End Codec.

(** C1 at the descriptor "le:s8/8>>0". *)
Lemma format_decoding_examples_witness :
  fmt_repeat
    (chn_format
       (snd (setup_scan_element (PF := Reference.platform) zalloc_channel
               (scan_element_node [format_attr "le:s8/8>>0"])))) = 1.
Proof.
  apply (proj2 (proj2 (format_decoding_examples zalloc_channel))).
  reflexivity.
Defined.

(** C2 as stated fails: "be:s16/16>>0garbage" is not a descriptor of the
    strict grammar, with or without a repeat clause, and yet it decodes,
    to the same format as "be:s16/16>>0". *)
Lemma format_trailing_garbage_accepted :
  spec_format_shape false "be:s16/16>>0garbage" = false
  /\ spec_format_shape true "be:s16/16>>0garbage" = false
  /\ setup_scan_element (PF := Reference.platform) zalloc_channel
       (scan_element_node [format_attr "be:s16/16>>0garbage"])
     = (0, set_chn_format
             {| fmt_length := 16; fmt_bits := 16; fmt_shift := 0;
                fmt_is_signed := true; fmt_is_fully_defined := true;
                fmt_is_be := true; fmt_with_scale := false;
                fmt_scale := float_zero; fmt_repeat := 1 |} zalloc_channel).
Proof. repeat split. Qed.

(** C5 as stated fails: in "1.5abc" the characters "abc" are left unparsed,
    and yet the scale is accepted and [with_scale] set. *)
Lemma scale_trailing_characters_accepted :
  sf_consumed (strtof (Platform := Reference.platform) "1.5abc") = 3%nat
  /\ (3 < Reference.strlen "1.5abc")%nat
  /\ setup_scan_element (PF := Reference.platform) zalloc_channel
       (scan_element_node [scale_attr "1.5abc"])
     = (0, set_chn_format
             (set_fmt_scale (PF := Reference.platform)
                {| Reference.dec_neg := false; Reference.dec_mant := 15;
                   Reference.dec_exp10 := -1 |}
                (set_fmt_with_scale true zalloc_format)) zalloc_channel).
Proof. repeat split. simpl. lia. Qed.

(** C8 as stated fails: an attribute element whose name is the empty text
    is built, with an empty name and an empty filename. *)
Lemma channel_attribute_empty_name :
  add_attr_to_channel (PF := Reference.platform) zalloc_channel
    (XmlNode "attribute" [{| attr_name := "name"; attr_content := "" |}] [])
  = (0, set_chn_attrs
          [{| ca_name := Some ""; ca_filename := Some "" |}] zalloc_channel).
Proof. reflexivity. Qed.

(** ** The channels mask *)

Section MaskFacts.

Import Mask.

Lemma to_uint32_wrap_int (z : Z) : to_uint32 (wrap_int z) = z mod 2 ^ 32.
Proof.
  unfold to_uint32, wrap_int.
  rewrite Zminus_mod_idemp_l. f_equal. lia.
Qed.

Lemma bit_index_range (bit : Z) : 0 <= bit mod 32 < 32.
Proof. apply Z.mod_pos_bound. lia. Qed.

Lemma BIT_MASK_unsigned (bit : Z) :
  to_uint32 (BIT_MASK bit) = 2 ^ (bit mod 32).
Proof.
  unfold BIT_MASK, BIT. rewrite to_uint32_wrap_int, Z.shiftl_1_l.
  pose proof (bit_index_range bit) as Hk.
  apply Z.mod_small. split; [apply Z.pow_nonneg; lia|].
  apply Z.pow_lt_mono_r; lia.
Qed.

Lemma BIT_MASK_complement_bits (bit p : Z) :
  0 <= p < 32 ->
  Z.testbit (to_uint32 (Z.lnot (BIT_MASK bit))) p
  = negb (bit mod 32 =? p).
Proof.
  intros Hp. pose proof (bit_index_range bit) as Hk.
  unfold to_uint32. rewrite Z.mod_pow2_bits_low by lia.
  rewrite Z.lnot_spec by lia. f_equal.
  rewrite <- (Z.mod_pow2_bits_low (BIT_MASK bit) 32 p) by lia.
  fold (to_uint32 (BIT_MASK bit)). rewrite BIT_MASK_unsigned.
  apply Z.pow2_bits_eqb. lia.
Qed.

Lemma land_pow2_zero (w k : Z) :
  0 <= k -> (Z.land w (2 ^ k) =? 0) = negb (Z.testbit w k).
Proof.
  intros Hk. destruct (Z.testbit w k) eqn:Hb; simpl.
  - apply Z.eqb_neq. intros H0.
    assert (Hbit : Z.testbit (Z.land w (2 ^ k)) k = true).
    { rewrite Z.land_spec, Hb, Z.pow2_bits_true; auto. }
    rewrite H0, Z.bits_0 in Hbit. discriminate.
  - apply Z.eqb_eq. apply Z.bits_inj'. intros n Hn.
    rewrite Z.land_spec, Z.bits_0, Z.pow2_bits_eqb by assumption.
    destruct (Z.eqb_spec k n) as [->|_]; [rewrite Hb|];
      auto using andb_false_r.
Qed.

Lemma test_bit_testbit (m : iio_channels_mask) (bit : Z) :
  iio_channels_mask_test_bit m bit
  = Z.testbit (word_at m (BIT_WORD bit)) (bit mod 32).
Proof.
  unfold iio_channels_mask_test_bit.
  rewrite BIT_MASK_unsigned, land_pow2_zero, negb_involutive;
    [reflexivity|apply bit_index_range].
Qed.

Lemma word_in_range (m : iio_channels_mask) (bit : Z) :
  wf m -> in_range m bit ->
  0 <= BIT_WORD bit /\ (Z.to_nat (BIT_WORD bit) < length (mask m))%nat.
Proof.
  unfold wf, in_range, BIT_WORD. intros [-> _] Hb.
  assert (0 <= bit / 32 < Z.of_nat (words m)).
  { split; [apply Z.div_pos; lia|]. apply Z.div_lt_upper_bound; lia. }
  lia.
Qed.

Lemma word_at_set_word_eq (m : iio_channels_mask) (i w : Z) :
  (Z.to_nat i < length (mask m))%nat -> word_at (set_word m i w) i = w.
Proof.
  intros Hi. unfold word_at, set_word. simpl.
  rewrite list_lookup_insert_eq by assumption. reflexivity.
Qed.

Lemma word_at_set_word_ne (m : iio_channels_mask) (i j w : Z) :
  0 <= i -> 0 <= j -> i <> j ->
  word_at (set_word m i w) j = word_at m j.
Proof.
  intros Hi Hj Hij. unfold word_at, set_word. simpl.
  rewrite list_lookup_insert_ne by lia. reflexivity.
Qed.

Lemma word_at_zeroed (m : iio_channels_mask) (i : Z) :
  zeroed m -> word_at m i = 0.
Proof.
  unfold zeroed, word_at. intros Hz.
  destruct (mask m !! Z.to_nat i) as [w|] eqn:Hw; [|reflexivity].
  simpl. rewrite Forall_forall in Hz. apply Hz.
  eapply list_elem_of_lookup_2. eassumption.
Qed.

Lemma same_word_other_bit (i j : Z) :
  j <> i -> BIT_WORD i = BIT_WORD j -> i mod 32 <> j mod 32.
Proof.
  unfold BIT_WORD. intros Hne Hw Hm.
  apply Hne. rewrite (Z.div_mod j 32), (Z.div_mod i 32) by lia. lia.
Qed.

Lemma uint32_fixed (x : Z) : 0 <= x < 2 ^ 32 <-> Z.land x (Z.ones 32) = x.
Proof.
  rewrite Z.land_ones by lia. split.
  - intros. apply Z.mod_small. assumption.
  - intros <-. apply Z.mod_pos_bound. lia.
Qed.

Lemma lor_uint32 (a b : Z) :
  0 <= a < 2 ^ 32 -> 0 <= b < 2 ^ 32 -> 0 <= Z.lor a b < 2 ^ 32.
Proof.
  rewrite !uint32_fixed. intros Ha Hb.
  rewrite Z.land_lor_distr_l, Ha, Hb. reflexivity.
Qed.

Lemma land_uint32 (a b : Z) :
  0 <= a < 2 ^ 32 -> 0 <= Z.land a b < 2 ^ 32.
Proof.
  rewrite !uint32_fixed. intros Ha.
  rewrite <- Z.land_assoc, (Z.land_comm b), Z.land_assoc, Ha. reflexivity.
Qed.

Lemma word_at_uint32 (m : iio_channels_mask) (i : Z) :
  wf m -> 0 <= word_at m i < 2 ^ 32.
Proof.
  intros [_ Hr]. unfold word_at.
  destruct (mask m !! Z.to_nat i) as [w|] eqn:Hw; simpl; [|lia].
  rewrite Forall_forall in Hr. apply Hr.
  eapply list_elem_of_lookup_2. eassumption.
Qed.

Lemma set_word_wf (m : iio_channels_mask) (i w : Z) :
  wf m -> 0 <= w < 2 ^ 32 -> wf (set_word m i w).
Proof.
  intros [Hl Hr] Hw. split; simpl.
  - rewrite length_insert. assumption.
  - apply Forall_insert; assumption.
Qed.

Lemma set_bit_wf (m : iio_channels_mask) (bit : Z) :
  wf m -> wf (iio_channels_mask_set_bit m bit).
Proof.
  intros Hwf. apply set_word_wf; [assumption|].
  apply lor_uint32; [apply word_at_uint32; assumption|].
  apply Z.mod_pos_bound. lia.
Qed.

Lemma clear_bit_wf (m : iio_channels_mask) (bit : Z) :
  wf m -> wf (iio_channels_mask_clear_bit m bit).
Proof.
  intros Hwf. apply set_word_wf; [assumption|].
  apply land_uint32, word_at_uint32. assumption.
Qed.

Lemma create_channels_mask_wf (nb : Z) :
  wf (iio_create_channels_mask nb) /\ zeroed (iio_create_channels_mask nb).
Proof.
  unfold wf, zeroed, iio_create_channels_mask. simpl.
  rewrite length_replicate. repeat split.
  - apply Forall_replicate. lia.
  - apply Forall_replicate. reflexivity.
Qed.

(** C9.  On a mask of the library and indexes within its range: after
    SetBit(i), TestBit(i) is true; after ClearBit(i), TestBit(i) is
    false; SetBit(i) and ClearBit(i) leave TestBit(j) as it was for every
    other j; on zero-initialised storage every TestBit(j) is false, and
    stays so for j other than i after SetBit(i). *)
Theorem mask_set_test_clear (m : iio_channels_mask) (i j : Z) :
  wf m -> in_range m i -> in_range m j ->
  iio_channels_mask_test_bit (iio_channels_mask_set_bit m i) i = true
  /\ iio_channels_mask_test_bit (iio_channels_mask_clear_bit m i) i = false
  /\ (j <> i ->
      iio_channels_mask_test_bit (iio_channels_mask_set_bit m i) j
      = iio_channels_mask_test_bit m j
      /\ iio_channels_mask_test_bit (iio_channels_mask_clear_bit m i) j
         = iio_channels_mask_test_bit m j)
  /\ (zeroed m ->
      iio_channels_mask_test_bit m j = false
      /\ (j <> i ->
          iio_channels_mask_test_bit (iio_channels_mask_set_bit m i) j
          = false)).
Proof.
  intros Hwf Hi Hj.
  destruct (word_in_range m i Hwf Hi) as [Hwi Hli].
  destruct (word_in_range m j Hwf Hj) as [Hwj Hlj].
  pose proof (bit_index_range i) as Hki.
  pose proof (bit_index_range j) as Hkj.
  assert (Hother : j <> i ->
            iio_channels_mask_test_bit (iio_channels_mask_set_bit m i) j
            = iio_channels_mask_test_bit m j
            /\ iio_channels_mask_test_bit (iio_channels_mask_clear_bit m i) j
               = iio_channels_mask_test_bit m j).
  { intros Hne. rewrite !test_bit_testbit.
    unfold iio_channels_mask_set_bit, iio_channels_mask_clear_bit.
    destruct (Z.eq_dec (BIT_WORD i) (BIT_WORD j)) as [Heq|Hw].
    - pose proof (same_word_other_bit i j Hne Heq) as Hbit.
      rewrite <- Heq, !word_at_set_word_eq by assumption.
      rewrite Z.lor_spec, Z.land_spec, BIT_MASK_unsigned,
        BIT_MASK_complement_bits, Z.pow2_bits_eqb by lia.
      destruct (Z.eqb_spec (i mod 32) (j mod 32)); [contradiction|].
      simpl. rewrite orb_false_r, andb_true_r. auto.
    - rewrite !word_at_set_word_ne by assumption. auto. }
  split; [|split; [|split]].
  - rewrite test_bit_testbit. unfold iio_channels_mask_set_bit.
    rewrite word_at_set_word_eq by assumption.
    rewrite Z.lor_spec, BIT_MASK_unsigned, Z.pow2_bits_true by lia.
    apply orb_true_r.
  - rewrite test_bit_testbit. unfold iio_channels_mask_clear_bit.
    rewrite word_at_set_word_eq by assumption.
    rewrite Z.land_spec, BIT_MASK_complement_bits, Z.eqb_refl by lia.
    apply andb_false_r.
  - exact Hother.
  - intros Hz.
    assert (Hzero : iio_channels_mask_test_bit m j = false).
    { rewrite test_bit_testbit, word_at_zeroed by assumption.
      apply Z.bits_0. }
    split; [assumption|]. intros Hne.
    destruct (Hother Hne) as [-> _]. assumption.
Qed.

End MaskFacts.

(** C9 on a fresh mask for 70 channels, at bits 69 and 3. *)
Lemma mask_set_test_clear_witness :
  let m := Mask.iio_create_channels_mask 70 in
  Mask.iio_channels_mask_test_bit (Mask.iio_channels_mask_set_bit m 69) 69
  = true
  /\ Mask.iio_channels_mask_test_bit (Mask.iio_channels_mask_set_bit m 69) 3
     = false.
Proof.
  intros m.
  destruct (create_channels_mask_wf 70) as [Hwf Hz]. fold m in Hwf, Hz.
  assert (H69 : Mask.in_range m 69)
    by (unfold Mask.in_range; change (Mask.words m) with 3%nat; lia).
  assert (H3 : Mask.in_range m 3)
    by (unfold Mask.in_range; change (Mask.words m) with 3%nat; lia).
  destruct (mask_set_test_clear m 69 3 Hwf H69 H3) as (Hset & _ & _ & Hzero).
  split; [exact Hset|].
  apply (proj2 (Hzero Hz)). lia.
Defined.

(** ** Loops and attribute lists *)

Section Loops.

Context {A S : Type}.

Lemma for_each_leaves (body : S -> A -> flow * S) (l : list A) (x : A) :
  x ∈ l ->
  (forall s, exists e, fst (body s x) = Leave e) ->
  forall s, exists e, fst (for_each body l s) = Leave e.
Proof.
  intros Hx Hbody. induction l as [|y l IH]; intros s.
  - inversion Hx.
  - simpl. apply elem_of_cons in Hx as [->|Hx].
    + destruct (Hbody s) as [e He].
      destruct (body s y) as [[|e'] s']; simpl in *; [discriminate|eauto].
    + destruct (body s y) as [[|e'] s']; simpl; [apply IH; assumption|eauto].
Qed.

Lemma for_each_leave_code (Q : Z -> Prop) (body : S -> A -> flow * S)
    (l : list A) :
  (forall s x e, x ∈ l -> fst (body s x) = Leave e -> Q e) ->
  forall s e, fst (for_each body l s) = Leave e -> Q e.
Proof.
  induction l as [|y l IH]; intros Hbody s e; [discriminate|].
  simpl. pose proof (Hbody s y) as Hy.
  destruct (body s y) as [[|e'] s']; simpl in *.
  - apply IH. intros. eapply Hbody; [right|]; eassumption.
  - intros [= <-]. apply Hy; [left|reflexivity].
Qed.

Lemma leave_if_code (failed : Z -> bool) (r : Z * S) (e : Z) :
  fst (leave_if failed r) = Leave e -> failed e = true.
Proof.
  unfold leave_if. destruct (failed (fst r)) eqn:Hf; [|discriminate].
  intros [= <-]. assumption.
Qed.

Lemma for_each_invariant (P : S -> Prop) (body : S -> A -> flow * S)
    (l : list A) :
  (forall s x, x ∈ l -> P s -> P (snd (body s x))) ->
  forall s, P s -> P (snd (for_each body l s)).
Proof.
  induction l as [|y l IH]; intros Hbody s Hs; [assumption|].
  simpl. pose proof (Hbody s y ltac:(left) Hs) as Hy.
  destruct (body s y) as [[|e'] s']; simpl in *; [|assumption].
  apply IH; [|assumption]. intros. apply Hbody; [right|]; assumption.
Qed.

Lemma for_each_filter (keep : A -> bool) (body : S -> A -> flow * S)
    (l : list A) :
  (forall s x, keep x = false -> body s x = (Next, s)) ->
  forall s, for_each body (List.filter keep l) s = for_each body l s.
Proof.
  intros Hskip. induction l as [|y l IH]; intros s; [reflexivity|].
  simpl. destruct (keep y) eqn:Hy; simpl.
  - destruct (body s y) as [[|e'] s']; auto.
  - rewrite (Hskip s y Hy). apply IH.
Qed.

Lemma for_each_map {B : Type} (g : B -> A) (body : S -> A -> flow * S)
    (l : list B) :
  forall s,
    for_each body (map g l) s = for_each (fun s x => body s (g x)) l s.
Proof.
  induction l as [|y l IH]; intros s; [reflexivity|].
  simpl. destruct (body s (g y)) as [[|e'] s']; auto.
Qed.

Lemma for_each_ext (body body' : S -> A -> flow * S) (l : list A) :
  (forall s x, x ∈ l -> body s x = body' s x) ->
  forall s, for_each body l s = for_each body' l s.
Proof.
  induction l as [|y l IH]; intros Heq s; [reflexivity|].
  simpl. rewrite (Heq s y) by left.
  destruct (body' s y) as [[|e'] s']; [|reflexivity].
  apply IH. intros. apply Heq. right. assumption.
Qed.

Lemma fold_left_filter (keep : A -> bool) (f : S -> A -> S) (l : list A) :
  (forall s x, keep x = false -> f s x = s) ->
  forall s, fold_left f (List.filter keep l) s = fold_left f l s.
Proof.
  intros Hskip. induction l as [|y l IH]; intros s; [reflexivity|].
  simpl. destruct (keep y) eqn:Hy; simpl; [apply IH|].
  rewrite (Hskip s y Hy). apply IH.
Qed.

Lemma fold_left_invariant (P : S -> Prop) (f : S -> A -> S) (l : list A) :
  (forall s x, x ∈ l -> P s -> P (f s x)) ->
  forall s, P s -> P (fold_left f l s).
Proof.
  induction l as [|y l IH]; intros Hf s Hs; [assumption|].
  simpl. apply IH.
  - intros. apply Hf; [right|]; assumption.
  - apply Hf; [left|assumption].
Qed.

End Loops.

Section Attributes.

Import Libc.

Lemma streq_eq (a b : string) : streq a b = true <-> a = b.
Proof. apply String.eqb_eq. Qed.

Lemma last_attr_snoc (key : string) (attrs : list xmlAttr) (a : xmlAttr) :
  last_attr key (attrs ++ [a])
  = if streq (attr_name a) key then Some (attr_content a)
    else last_attr key attrs.
Proof. unfold last_attr. rewrite fold_left_app. reflexivity. Qed.

Lemma last_attr_absent (key : string) (n : xmlNode) :
  ~ has_attr key n -> last_attr key (properties n) = None.
Proof.
  unfold has_attr, last_attr. intros Hno.
  apply (fold_left_invariant (fun found => found = None)); [|reflexivity].
  intros found a Ha ->.
  destruct (streq (attr_name a) key) eqn:Hk; [|reflexivity].
  exfalso. eauto.
Qed.

Lemma last_attr_present (key : string) (n : xmlNode) :
  has_attr key n -> exists v, last_attr key (properties n) = Some v.
Proof.
  unfold has_attr. intros (a & Ha & Hk).
  induction (properties n) as [|b l IH] using rev_ind.
  - inversion Ha.
  - rewrite last_attr_snoc. destruct (streq (attr_name b) key) eqn:Hb;
      [eauto|].
    apply elem_of_app in Ha as [Ha|Ha]; [auto|].
    apply list_elem_of_singleton in Ha as ->. congruence.
Qed.

Lemma known_false (names : list string) (name key : string) :
  known names name = false -> key ∈ names -> streq name key = false.
Proof.
  unfold known. intros Hk Hin.
  destruct (streq name key) eqn:Hs; [|reflexivity].
  rewrite <- Hk. symmetry. apply existsb_exists.
  exists key. split; [|assumption]. apply list_elem_of_In. assumption.
Qed.

End Attributes.

(** ** The model builder *)

Section Builder.

Context {PF : Platform} {CO : Collaborators}.

Import Libc.

Lemma create_device_attr_id (attrs : list xmlAttr) :
  forall dev,
    dev_id (fold_left create_device_attr attrs dev)
    = match last_attr "id" attrs with
      | Some v => Some v
      | None => dev_id dev
      end.
Proof.
  induction attrs as [|a attrs IH] using rev_ind; intros dev;
    [reflexivity|].
  rewrite fold_left_app, last_attr_snoc. simpl.
  unfold create_device_attr at 1.
  destruct (streq (attr_name a) "id") eqn:Hid.
  - apply streq_eq in Hid. rewrite Hid. reflexivity.
  - destruct (streq (attr_name a) "name"), (streq (attr_name a) "label");
      simpl; apply IH.
Qed.

Lemma create_device_without_id (n : xmlNode) :
  ~ has_attr "id" n -> create_device n = Err (- EINVAL).
Proof.
  intros Hno. unfold create_device.
  rewrite create_device_attr_id, (last_attr_absent _ _ Hno). reflexivity.
Qed.

(** The codes [create_channel] and [create_device] encode in a pointer
    are negative, so that [iio_err] tells them from an object. *)
Lemma create_channel_err (n : xmlNode) (err : Z) :
  create_channel n = Err err -> err < 0.
Proof.
  unfold create_channel.
  destruct (chn_id _); [|intros [= <-]; reflexivity].
  destruct (for_each create_channel_child (children n) _) as [[|e] c] eqn:Hl;
    [discriminate|].
  intros [= <-].
  apply (for_each_leave_code (fun e => e < 0) create_channel_child
           (children n)) with (s := fold_left create_channel_attr (properties n)
                                      (set_chn_index (- ENOENT) zalloc_channel));
    [|rewrite Hl; reflexivity].
  intros st x e' _. unfold create_channel_child.
  destruct (streq (node_name x) "attribute");
    [|destruct (streq (node_name x) "scan-element"); [|discriminate]];
    intros He; apply leave_if_code in He; apply Z.ltb_lt; exact He.
Qed.

Lemma create_device_err (n : xmlNode) (err : Z) :
  create_device n = Err err -> err < 0.
Proof.
  unfold create_device.
  destruct (dev_id _); [|intros [= <-]; reflexivity].
  destruct (for_each create_device_child (children n) _) as [[|e] d] eqn:Hl;
    [discriminate|].
  intros [= <-].
  apply (for_each_leave_code (fun e => e < 0) create_device_child
           (children n)) with (s := fold_left create_device_attr
                                      (properties n) zalloc_device);
    [|rewrite Hl; reflexivity].
  intros st x e' _. unfold create_device_child.
  destruct (streq (node_name x) "channel").
  - destruct (create_channel x) as [err|chn] eqn:Hc; [|discriminate].
    intros [= <-]. eapply create_channel_err. eassumption.
  - repeat match goal with
           | |- context [if ?b then _ else _] => destruct b
           end;
      try discriminate;
      intros He; apply leave_if_code in He; apply Z.ltb_lt; exact He.
Qed.

Lemma populate_child_code (ctx : iio_context) (n : xmlNode) (e : Z) :
  fst (populate_child ctx n) = Leave e -> e <> 0.
Proof.
  unfold populate_child.
  assert (Hnz : forall r : Z * iio_context,
             fst (leave_if nonzero r) = Leave e -> e <> 0).
  { intros r He. apply leave_if_code in He. unfold nonzero in He.
    apply negb_true_iff, Z.eqb_neq in He. assumption. }
  destruct (streq (node_name n) "context-attribute"); [apply Hnz|].
  destruct (streq (node_name n) "device"); simpl; [|discriminate].
  destruct (create_device n) as [err|dev] eqn:Hd; [|apply Hnz].
  intros [= <-]. apply create_device_err in Hd. lia.
Qed.

(** C3.  A device element without an [id] attribute is refused with
    -EINVAL, and a document with such an element among the children of
    its root is never built: the result is an error, not a context,
    whatever comes before the element and whatever the functions outside
    [xml.c] do. *)
Theorem device_without_id_aborts (params : iio_context_params)
    (doc : xmlDoc) (n : xmlNode) :
  n ∈ children doc ->
  streq (node_name n) "device" = true ->
  ~ has_attr "id" n ->
  create_device n = Err (- EINVAL)
  /\ exists err, iio_create_xml_context_helper params doc = Err err.
Proof.
  intros Hin Hdev Hno.
  pose proof (create_device_without_id n Hno) as Hcreate.
  split; [assumption|].
  unfold iio_create_xml_context_helper.
  destruct (streq (node_name doc) "context"); simpl; [|eauto].
  destruct (iio_context_create_from_backend _ _) as [err|ctx]; [eauto|].
  unfold iio_populate_xml_context_helper.
  match goal with
  | |- context [for_each populate_child (children doc) ?c] =>
      remember c as ctx0 eqn:Hctx0; clear Hctx0;
      destruct (for_each_leaves populate_child (children doc) n Hin) with
        (s := ctx0) as [e He];
      [|pose proof (for_each_leave_code (fun e => e <> 0) populate_child
                      (children doc)
                      ltac:(intros s x e' _; apply populate_child_code)
                      ctx0 e He) as Hnz]
  end.
  - intros s. unfold populate_child.
    apply streq_eq in Hdev. rewrite Hdev. simpl. rewrite Hcreate. eauto.
  - destruct (for_each populate_child (children doc) ctx0) as [[|e'] ctx'];
      simpl in He; [discriminate|].
    injection He as ->. unfold nonzero.
    apply Z.eqb_neq in Hnz. rewrite Hnz. simpl. eauto.
Qed.

(** The helper followed with its calls returns what the helper
    returns. *)
Lemma traced_helper_result (params : iio_context_params) (doc : xmlDoc) :
  fst (iio_create_xml_context_helper_traced params doc)
  = iio_create_xml_context_helper params doc.
Proof.
  unfold iio_create_xml_context_helper_traced, iio_create_xml_context_helper.
  destruct (negb (streq (node_name doc) "context")); [reflexivity|].
  destruct (iio_context_create_from_backend _ _) as [err|ctx];
    [reflexivity|].
  destruct (iio_populate_xml_context_helper _ doc) as [err ctx'].
  destruct (nonzero err); reflexivity.
Qed.

(** A document with the expected root does reach the constructor, once
    and as the first call, whatever comes of it; a context whose
    population fails is released again. *)
Lemma recognized_root_constructs (params : iio_context_params)
    (doc : xmlDoc) :
  streq (node_name doc) "context" = true ->
  exists description rest,
    snd (iio_create_xml_context_helper_traced params doc)
    = Create_from_backend iio_xml_backend description :: rest
    /\ (rest = [] \/ exists ctx, rest = [Destroy ctx])
    /\ (forall ctx, iio_create_xml_context_helper params doc = Ptr ctx ->
                    rest = []).
Proof.
  intros Hroot. rewrite <- traced_helper_result.
  unfold iio_create_xml_context_helper_traced. rewrite Hroot. simpl negb.
  cbv iota.
  destruct (iio_context_create_from_backend _ _) as [err|ctx].
  - eexists _, []. simpl.
    split; [reflexivity|]. split; [left; reflexivity|discriminate].
  - destruct (iio_populate_xml_context_helper _ doc) as [err ctx'].
    destruct (nonzero err).
    + eexists _, [Destroy ctx']. simpl.
      split; [reflexivity|].
      split; [right; eexists; reflexivity|discriminate].
    + eexists _, []. simpl.
      split; [reflexivity|]. split; [left; reflexivity|reflexivity].
Qed.

(** C6.  A document whose root is not called "context" is refused with
    -EINVAL, and no context is constructed for it: the helper returns
    before it makes any call of [iio_context_create_from_backend] (or of
    [iio_context_destroy]), so that the list of its calls is empty and no
    context is left allocated. *)
Theorem unrecognized_root_refused (params : iio_context_params)
    (doc : xmlDoc) :
  streq (node_name doc) "context" = false ->
  iio_create_xml_context_helper params doc = Err (- EINVAL)
  /\ iio_create_xml_context_helper_traced params doc = (Err (- EINVAL), [])
  /\ live_contexts (snd (iio_create_xml_context_helper_traced params doc))
     = 0.
Proof.
  intros Hroot.
  unfold iio_create_xml_context_helper, iio_create_xml_context_helper_traced.
  rewrite Hroot. repeat split.
Qed.

(** *** The index of a channel *)

Lemma create_channel_attr_index (attrs : list xmlAttr) (chn : iio_channel) :
  chn_index (fold_left create_channel_attr attrs chn) = chn_index chn.
Proof.
  apply (fold_left_invariant (fun c => chn_index c = chn_index chn));
    [|reflexivity].
  intros c a _ Hc. unfold create_channel_attr.
  repeat match goal with
         | |- context [if ?b then _ else _] => destruct b
         end; assumption.
Qed.

Lemma add_attr_to_channel_index (chn : iio_channel) (n : xmlNode) :
  chn_index (snd (add_attr_to_channel chn n)) = chn_index chn.
Proof.
  unfold add_attr_to_channel.
  destruct (fold_left _ _ _) as [[nm|] fn]; reflexivity.
Qed.

Lemma setup_scan_element_attr_index (chn : iio_channel) (a : xmlAttr) :
  streq (attr_name a) "index" = false ->
  chn_index (snd (setup_scan_element_attr chn a)) = chn_index chn.
Proof.
  intros Hname. unfold setup_scan_element_attr. rewrite Hname.
  repeat match goal with
         | |- context [if ?b then _ else _] => destruct b
         | |- context [let '(_, _) := ?x in _] => destruct x
         end; reflexivity.
Qed.

Lemma setup_scan_element_index (chn : iio_channel) (n : xmlNode) :
  ~ has_attr "index" n ->
  chn_index (snd (setup_scan_element chn n)) = chn_index chn.
Proof.
  intros Hno. unfold setup_scan_element.
  pose proof (for_each_invariant (fun c => chn_index c = chn_index chn)
                setup_scan_element_attr (properties n)) as Hinv.
  destruct (for_each setup_scan_element_attr (properties n) chn)
    as [f chn'] eqn:Hloop.
  specialize (Hinv) with (s := chn). rewrite Hloop in Hinv. simpl in *.
  apply Hinv; [|reflexivity].
  intros c a Ha Hc. rewrite setup_scan_element_attr_index; [assumption|].
  destruct (streq (attr_name a) "index") eqn:Hk; [|reflexivity].
  exfalso. apply Hno. exists a. auto.
Qed.

Lemma snd_leave_if {T : Type} (failed : Z -> bool) (r : Z * T) :
  snd (leave_if failed r) = snd r.
Proof. unfold leave_if. destruct (failed (fst r)); reflexivity. Qed.

(** C4, as amended.  [create_channel] starts the index at -ENOENT, that
    is -2, a negative value that stands for "no index"; a channel none
    of whose scan-elements carries an [index] attribute (one without
    scan-element included) is built with that index, provided
    [iio_channel_init_finalize] leaves the index alone. *)
Theorem channel_index_default (n : xmlNode) (chn : iio_channel) :
  (forall c, chn_index (iio_channel_init_finalize c) = chn_index c) ->
  (forall c, c ∈ children n -> streq (node_name c) "scan-element" = true ->
             ~ has_attr "index" c) ->
  create_channel n = Ptr chn ->
  chn_index chn = - ENOENT /\ chn_index chn = -2.
Proof.
  intros Hfin Hscan. unfold create_channel.
  destruct (chn_id _); [|discriminate].
  match goal with
  | |- context [for_each create_channel_child (children n) ?c] =>
      pose proof (for_each_invariant (fun x => chn_index x = - ENOENT)
                    create_channel_child (children n)) as Hinv;
      specialize (Hinv) with (s := c);
      destruct (for_each create_channel_child (children n) c)
        as [[|e] chn'] eqn:Hloop; [|discriminate]
  end.
  intros [= <-]. rewrite Hfin. simpl in Hinv.
  assert (chn_index chn' = - ENOENT); [|auto].
  apply Hinv; [|apply create_channel_attr_index].
  intros c x Hx Hc. unfold create_channel_child.
  destruct (streq (node_name x) "attribute").
  - rewrite snd_leave_if, add_attr_to_channel_index. assumption.
  - destruct (streq (node_name x) "scan-element") eqn:Hse; [|assumption].
    rewrite snd_leave_if, setup_scan_element_index by auto. assumption.
Qed.

(** *** The version of the context *)

Lemma root_attr_fields (attrs : list xmlAttr) :
  fold_left root_attr attrs root_fields_init
  = {| rf_description := last_attr "description" attrs;
       rf_git_tag := last_attr "version-git" attrs;
       rf_major := parsed_number "version-major" attrs;
       rf_minor := parsed_number "version-minor" attrs |}.
Proof.
  unfold parsed_number.
  induction attrs as [|a attrs IH] using rev_ind; [reflexivity|].
  rewrite fold_left_app, !last_attr_snoc. simpl. rewrite IH.
  unfold root_attr. simpl.
  destruct (streq (attr_name a) "description") eqn:H1;
    [apply streq_eq in H1; rewrite ?H1; reflexivity|].
  destruct (streq (attr_name a) "version-major") eqn:H2;
    [apply streq_eq in H2; rewrite ?H2; reflexivity|].
  destruct (streq (attr_name a) "version-minor") eqn:H3;
    [apply streq_eq in H3; rewrite ?H3; reflexivity|].
  destruct (streq (attr_name a) "version-git") eqn:H4;
    [apply streq_eq in H4; rewrite ?H4; reflexivity|].
  reflexivity.
Qed.

Lemma populate_keeps_version (ctx : iio_context) (root : xmlNode) :
  keep_version CO ->
  version (snd (iio_populate_xml_context_helper ctx root)) = version ctx.
Proof.
  intros (_ & Hattr & Hdev & Hinit).
  unfold iio_populate_xml_context_helper.
  pose proof (for_each_invariant (fun c => version c = version ctx)
                populate_child (children root)) as Hinv.
  specialize (Hinv) with (s := ctx).
  destruct (for_each populate_child (children root) ctx) as [[|e] ctx'];
    simpl in Hinv; [rewrite Hinit|simpl]; apply Hinv; try reflexivity.
  all: intros c x _ Hc; unfold populate_child, parse_context_attr;
    repeat match goal with
      | |- context [if ?b then _ else _] => destruct b; simpl
      | |- context [match ?x with _ => _ end] =>
          destruct x; simpl
      end;
    rewrite ?snd_leave_if, ?Hattr, ?Hdev; assumption.
Qed.

(** C10.  The version read from the root is recorded only together with
    a git tag.  When the root has no [version-git] attribute the context
    returned has major 0, minor 0 and no git tag, whatever the
    [version-major] and [version-minor] attributes say; when it has one,
    the context has that tag and the numbers parsed (as [unsigned
    int]).  This holds when the functions outside [xml.c] create the
    context without a version and do not touch the version. *)
Theorem version_recorded_with_git_tag (params : iio_context_params)
    (doc : xmlDoc) (ctx : iio_context) :
  keep_version CO ->
  iio_create_xml_context_helper params doc = Ptr ctx ->
  (~ has_attr "version-git" doc -> version ctx = (0, 0, None))
  /\ (forall tag,
         last_attr "version-git" (properties doc) = Some tag ->
         version ctx
         = (to_uint (parsed_number "version-major" (properties doc)),
            to_uint (parsed_number "version-minor" (properties doc)),
            Some tag)).
Proof.
  intros Hkeep. pose proof Hkeep as (Hcreate & _).
  unfold iio_create_xml_context_helper.
  destruct (streq (node_name doc) "context"); simpl; [|discriminate].
  rewrite root_attr_fields. simpl.
  destruct (iio_context_create_from_backend _ _) as [err|ctx0] eqn:Hc;
    [discriminate|].
  apply Hcreate in Hc.
  match goal with
  | |- context [iio_populate_xml_context_helper ?c doc] =>
      pose proof (populate_keeps_version c doc Hkeep) as Hpop;
      destruct (iio_populate_xml_context_helper c doc) as [e ctx']
  end.
  destruct (nonzero e); [discriminate|]. intros [= <-]. simpl in Hpop.
  rewrite Hpop. split.
  - intros Hno. rewrite (last_attr_absent _ _ Hno). exact Hc.
  - intros tag ->. reflexivity.
Qed.

(** *** Unknown attributes and elements *)

Local Arguments known : simpl never.

Lemma add_attr_to_channel_strip (chn : iio_channel) (n : xmlNode) :
  add_attr_to_channel chn (strip_leaf ["name"; "filename"] n)
  = add_attr_to_channel chn n.
Proof.
  unfold add_attr_to_channel, strip_leaf, keep_attrs. simpl.
  rewrite fold_left_filter; [reflexivity|].
  intros st a Hk. unfold channel_attr_fields.
  rewrite 2(known_false _ _ _ Hk) by (repeat constructor). reflexivity.
Qed.

Lemma setup_scan_element_strip (chn : iio_channel) (n : xmlNode) :
  setup_scan_element chn (strip_leaf ["index"; "format"; "scale"] n)
  = setup_scan_element chn n.
Proof.
  unfold setup_scan_element, strip_leaf, keep_attrs. simpl.
  rewrite for_each_filter; [reflexivity|].
  intros st a Hk. unfold setup_scan_element_attr.
  rewrite 3(known_false _ _ _ Hk) by (repeat constructor). reflexivity.
Qed.

Lemma create_channel_child_strip (chn : iio_channel) (n : xmlNode) :
  create_channel_child chn (strip_channel_child n)
  = create_channel_child chn n.
Proof.
  unfold create_channel_child, strip_channel_child.
  destruct (streq (node_name n) "attribute") eqn:Ha; simpl; rewrite Ha.
  - rewrite add_attr_to_channel_strip. reflexivity.
  - destruct (streq (node_name n) "scan-element"); [|reflexivity].
    rewrite setup_scan_element_strip. reflexivity.
Qed.

Lemma create_channel_strip (n : xmlNode) :
  create_channel (strip_channel n) = create_channel n.
Proof.
  unfold create_channel, strip_channel, keep_attrs. simpl.
  rewrite fold_left_filter.
  2:{ intros st a Hk. unfold create_channel_attr.
      rewrite 3(known_false _ _ _ Hk) by (repeat constructor). reflexivity. }
  destruct (chn_id _); [|reflexivity].
  rewrite for_each_map.
  rewrite (for_each_ext _ create_channel_child)
    by (intros; apply create_channel_child_strip).
  rewrite for_each_filter; [reflexivity|].
  intros st c Hk. unfold create_channel_child.
  rewrite 2(known_false _ _ _ Hk) by (repeat constructor). reflexivity.
Qed.

Lemma add_attr_to_device_strip (dev : iio_device) (n : xmlNode)
    (type : iio_attr_type) :
  add_attr_to_device dev (strip_leaf ["name"] n) type
  = add_attr_to_device dev n type.
Proof.
  unfold add_attr_to_device, strip_leaf, keep_attrs. simpl.
  rewrite fold_left_filter; [reflexivity|].
  intros st a Hk. unfold device_attr_name.
  rewrite (known_false _ _ _ Hk) by (repeat constructor). reflexivity.
Qed.

Lemma create_device_child_strip (dev : iio_device) (n : xmlNode) :
  create_device_child dev (strip_device_child n)
  = create_device_child dev n.
Proof.
  unfold create_device_child, strip_device_child.
  destruct (streq (node_name n) "channel") eqn:Hc.
  - rewrite create_channel_strip.
    replace (node_name (strip_channel n)) with (node_name n) by reflexivity.
    rewrite Hc. reflexivity.
  - simpl. rewrite Hc, !add_attr_to_device_strip. reflexivity.
Qed.

Lemma create_device_strip (n : xmlNode) :
  create_device (strip_device n) = create_device n.
Proof.
  unfold create_device, strip_device, keep_attrs. simpl.
  rewrite fold_left_filter.
  2:{ intros st a Hk. unfold create_device_attr.
      rewrite 3(known_false _ _ _ Hk) by (repeat constructor). reflexivity. }
  destruct (dev_id _); [|reflexivity].
  rewrite for_each_map.
  rewrite (for_each_ext _ create_device_child)
    by (intros; apply create_device_child_strip).
  rewrite for_each_filter; [reflexivity|].
  intros st c Hk. unfold create_device_child.
  rewrite 4(known_false _ _ _ Hk) by (repeat constructor). reflexivity.
Qed.

Lemma parse_context_attr_strip (ctx : iio_context) (n : xmlNode) :
  parse_context_attr ctx (strip_leaf ["name"; "value"] n)
  = parse_context_attr ctx n.
Proof.
  unfold parse_context_attr, strip_leaf, keep_attrs. simpl.
  rewrite fold_left_filter; [reflexivity|].
  intros st a Hk. unfold context_attr_fields.
  rewrite 2(known_false _ _ _ Hk) by (repeat constructor). reflexivity.
Qed.

Lemma populate_child_strip (ctx : iio_context) (n : xmlNode) :
  populate_child ctx (strip_context_child n) = populate_child ctx n.
Proof.
  unfold populate_child, strip_context_child.
  destruct (streq (node_name n) "device") eqn:Hd.
  - rewrite create_device_strip.
    change (node_name (strip_device n)) with (node_name n).
    apply streq_eq in Hd. rewrite Hd. reflexivity.
  - simpl. rewrite Hd, parse_context_attr_strip. reflexivity.
Qed.

(** C7.  Unknown attributes and unknown child elements, at every level
    of the schema, change nothing: building a document gives the very
    result (the same error, or the same context in every field) of
    building the document with all of them removed.  In particular they
    never make a build fail. *)
Theorem unknown_parts_ignored (params : iio_context_params)
    (doc : xmlDoc) :
  iio_create_xml_context_helper params doc
  = iio_create_xml_context_helper params (strip_unknown doc).
Proof.
  unfold iio_create_xml_context_helper, strip_unknown, keep_attrs. simpl.
  destruct (streq (node_name doc) "context"); [|reflexivity]. simpl.
  rewrite fold_left_filter.
  2:{ intros st a Hk. unfold root_attr.
      rewrite 4(known_false _ _ _ Hk) by (repeat constructor). reflexivity. }
  destruct (iio_context_create_from_backend _ _) as [err|ctx];
    [reflexivity|].
  unfold iio_populate_xml_context_helper. simpl.
  rewrite for_each_map.
  rewrite (for_each_ext
             (fun s x => populate_child s (strip_context_child x))
             populate_child)
    by (intros; apply populate_child_strip).
  rewrite for_each_filter; [reflexivity|].
  intros st c Hk. unfold populate_child.
  rewrite 2(known_false _ _ _ Hk) by (repeat constructor). reflexivity.
Qed.

End Builder.

(** ** The builder at concrete documents *)

Lemma reference_keep_version : keep_version Reference.collaborators.
Proof.
  repeat split; simpl.
  - intros backend description ctx [= <-]. reflexivity.
  - intros ctx key value. unfold Reference.context_add_attr.
    destruct (Reference.has_key key (ctx_attrs ctx)); reflexivity.
Qed.

Example demo_document_builds :
  exists ctx,
    iio_create_xml_context_helper (PF := Reference.platform)
      (CO := Reference.collaborators) tt demo_document = Ptr ctx
    /\ ctx_attrs ctx = [("uri", "xml:demo")]
    /\ map dev_id (ctx_devices ctx) = [Some "iio:device0"]
    /\ map (fun d => map chn_index (dev_channels d)) (ctx_devices ctx)
       = [[0; -2]].
Proof. eexists. repeat split. Qed.

(** C3 at a document whose second device has no [id]: the build returns
    an error although the first device is well formed. *)
Lemma device_without_id_aborts_witness :
  create_device (PF := Reference.platform) (CO := Reference.collaborators)
    (XmlNode "device" [attr "name" "dac"] []) = Err (- EINVAL)
  /\ exists err,
       iio_create_xml_context_helper (PF := Reference.platform)
         (CO := Reference.collaborators) tt broken_document = Err err.
Proof.
  apply device_without_id_aborts.
  - unfold broken_document. simpl. repeat constructor.
  - reflexivity.
  - intros (a & Ha & Hk). simpl in Ha.
    apply list_elem_of_singleton in Ha as ->. discriminate Hk.
Defined.

(** C4 as stated fails: a channel without scan-element is built with
    index -2, not -1. *)
Lemma channel_index_is_not_minus_one :
  exists chn,
    create_channel (PF := Reference.platform) (CO := Reference.collaborators)
      (XmlNode "channel" [attr "id" "voltage1"] []) = Ptr chn
    /\ chn_index chn = -2 /\ chn_index chn <> -1.
Proof. eexists. split; [reflexivity|]. split; [reflexivity|discriminate]. Qed.

(** C4 at a channel whose scan-element has a format and no index. *)
Lemma channel_index_default_witness :
  exists chn,
    create_channel (PF := Reference.platform) (CO := Reference.collaborators)
      demo_channel = Ptr chn
    /\ chn_index chn = - ENOENT /\ chn_index chn = -2.
Proof.
  eexists. split; [reflexivity|].
  apply (channel_index_default (CO := Reference.collaborators) demo_channel);
    [| |reflexivity].
  - reflexivity.
  - intros c Hc Hname (a & Ha & Hk). simpl in Hc.
    apply elem_of_cons in Hc as [->|Hc].
    + simpl in Ha. apply list_elem_of_singleton in Ha as ->. discriminate Hk.
    + apply list_elem_of_singleton in Hc as ->. discriminate Hname.
Defined.

(** C6 at a document whose root is called "contexts". *)
Lemma unrecognized_root_refused_witness :
  let doc := XmlNode "contexts" [attr "version-major" "1"]
               [XmlNode "device" [attr "id" "iio:device0"] []] in
  iio_create_xml_context_helper (PF := Reference.platform)
    (CO := Reference.collaborators) tt doc
  = Err (- EINVAL)
  /\ iio_create_xml_context_helper_traced (PF := Reference.platform)
       (CO := Reference.collaborators) tt doc
     = (Err (- EINVAL), [])
  /\ live_contexts (PF := Reference.platform)
       (snd (iio_create_xml_context_helper_traced (PF := Reference.platform)
               (CO := Reference.collaborators) tt doc))
     = 0.
Proof. apply unrecognized_root_refused. reflexivity. Defined.

(** C10 at the sample document, which gives version 1.2 and no git tag. *)
Lemma version_recorded_with_git_tag_witness :
  exists ctx,
    iio_create_xml_context_helper (PF := Reference.platform)
      (CO := Reference.collaborators) tt demo_document = Ptr ctx
    /\ parsed_number "version-major" (properties demo_document) = 1
    /\ version ctx = (0, 0, None).
Proof.
  eexists. split; [reflexivity|]. split; [reflexivity|].
  eapply (proj1 (version_recorded_with_git_tag
                   (PF := Reference.platform) (CO := Reference.collaborators)
                   tt demo_document _ reference_keep_version eq_refl)).
  intros (a & Ha & Hk). simpl in Ha.
  repeat (apply elem_of_cons in Ha as [->|Ha]; [discriminate Hk|]).
  inversion Ha.
Defined.

(** * More of the builder *)

Section BuilderErrors.

Context {PF : Platform} {CO : Collaborators}.

Import Libc.

Lemma streq_refl (a : string) : streq a a = true.
Proof. apply streq_eq. reflexivity. Qed.

Lemma is_named_eq (name : string) (n : xmlNode) :
  is_named name n = true -> node_name n = name.
Proof. apply streq_eq. Qed.

(** Whether an attribute of a scan-element is refused does not depend on
    the channel it is stored into. *)
Lemma scan_attr_flow (chn chn' : iio_channel) (a : xmlAttr) :
  fst (setup_scan_element_attr chn a) = fst (setup_scan_element_attr chn' a).
Proof.
  unfold setup_scan_element_attr, iio_sscanf.
  destruct (streq (attr_name a) "index");
    [destruct (_ || _); reflexivity|].
  destruct (streq (attr_name a) "format").
  - destruct (strchr (attr_content a) "X");
      destruct (sscanf (attr_content a) _) as [ret vs];
      destruct (negb _); reflexivity.
  - destruct (streq (attr_name a) "scale"); [|reflexivity].
    destruct (_ || _); reflexivity.
Qed.

Lemma scan_attr_code (chn : iio_channel) (a : xmlAttr) (e : Z) :
  fst (setup_scan_element_attr chn a) = Leave e -> e = - EINVAL.
Proof.
  unfold setup_scan_element_attr, iio_sscanf.
  repeat match goal with
         | |- context [if ?b then _ else _] => destruct b
         | |- context [let '(_, _) := ?x in _] => destruct x
         end; simpl; congruence.
Qed.

Lemma setup_scan_element_returns (chn : iio_channel) (n : xmlNode) :
  fst (setup_scan_element chn n) = 0
  \/ fst (setup_scan_element chn n) = - EINVAL.
Proof.
  unfold setup_scan_element.
  destruct (for_each setup_scan_element_attr (properties n) chn)
    as [[|e] chn'] eqn:Hloop; simpl; [left; reflexivity|right].
  apply (for_each_leave_code (fun e => e = - EINVAL) setup_scan_element_attr
           (properties n)) with (s := chn); [|rewrite Hloop; reflexivity].
  intros st a e' _. apply scan_attr_code.
Qed.

Lemma setup_scan_element_rejects (chn : iio_channel) (n : xmlNode)
    (a : xmlAttr) (e : Z) :
  a ∈ properties n ->
  fst (setup_scan_element_attr zalloc_channel a) = Leave e ->
  fst (setup_scan_element chn n) = - EINVAL.
Proof.
  intros Ha Hrej. unfold setup_scan_element.
  destruct (for_each_leaves setup_scan_element_attr (properties n) a Ha)
    with (s := chn) as [e' He'].
  { intros st. exists e. rewrite <- Hrej. apply scan_attr_flow. }
  destruct (for_each setup_scan_element_attr (properties n) chn)
    as [[|e''] chn'] eqn:Hloop; simpl in *; [discriminate|].
  apply (for_each_leave_code (fun e => e = - EINVAL) setup_scan_element_attr
           (properties n)) with (s := chn); [|rewrite Hloop; reflexivity].
  intros st x e0 _. apply scan_attr_code.
Qed.

Lemma add_attr_to_channel_returns (chn : iio_channel) (n : xmlNode) :
  fst (add_attr_to_channel chn n) = 0
  \/ fst (add_attr_to_channel chn n) = - EINVAL.
Proof.
  unfold add_attr_to_channel.
  destruct (fold_left _ _ _) as [[nm|] fn]; auto.
Qed.

Lemma create_channel_child_code (chn : iio_channel) (n : xmlNode) (e : Z) :
  fst (create_channel_child chn n) = Leave e -> e = - EINVAL.
Proof.
  unfold create_channel_child, leave_if.
  destruct (streq (node_name n) "attribute").
  - destruct (add_attr_to_channel_returns chn n) as [-> | ->]; simpl;
      congruence.
  - destruct (streq (node_name n) "scan-element"); [|discriminate].
    destruct (setup_scan_element_returns
                (set_chn_is_scan_element true chn) n) as [-> | ->]; simpl;
      congruence.
Qed.

(** A channel that fails makes its device fail, with the same code. *)
Lemma channel_failure_aborts_device (dv ch : xmlNode) (e : Z) :
  ch ∈ children dv -> is_named "channel" ch = true ->
  create_channel ch = Err e ->
  exists err, create_device dv = Err err.
Proof.
  intros Hin Hname Hfail. unfold create_device.
  destruct (dev_id _); [|eauto].
  match goal with
  | |- context [for_each create_device_child (children dv) ?d] =>
      destruct (for_each_leaves create_device_child (children dv) ch Hin)
        with (s := d) as [e' He'];
      [|destruct (for_each create_device_child (children dv) d)
          as [[|e''] d']; simpl in He'; [discriminate|eauto]]
  end.
  intros st. unfold create_device_child.
  apply is_named_eq in Hname. rewrite Hname. simpl. rewrite Hfail. eauto.
Qed.

(** A device that fails makes the document fail. *)
Lemma device_failure_aborts_document (params : iio_context_params)
    (doc dv : xmlNode) (e : Z) :
  dv ∈ children doc -> is_named "device" dv = true ->
  create_device dv = Err e ->
  exists err, iio_create_xml_context_helper params doc = Err err.
Proof.
  intros Hin Hname Hfail. unfold iio_create_xml_context_helper.
  destruct (streq (node_name doc) "context"); simpl; [|eauto].
  destruct (iio_context_create_from_backend _ _) as [err|ctx]; [eauto|].
  unfold iio_populate_xml_context_helper.
  match goal with
  | |- context [for_each populate_child (children doc) ?c] =>
      remember c as ctx0 eqn:Hctx0; clear Hctx0
  end.
  destruct (for_each_leaves populate_child (children doc) dv Hin)
    with (s := ctx0) as [e' He'].
  { intros st. unfold populate_child. apply is_named_eq in Hname.
    rewrite Hname. simpl. rewrite Hfail. eauto. }
  pose proof (for_each_leave_code (fun e => e <> 0) populate_child
                (children doc)
                ltac:(intros st0 x0 e0 _; apply populate_child_code)
                ctx0 e' He') as Hnz.
  destruct (for_each populate_child (children doc) ctx0) as [[|e''] ctx'];
    simpl in He'; [discriminate|].
  injection He' as ->. unfold nonzero.
  apply Z.eqb_neq in Hnz. rewrite Hnz. simpl. eauto.
Qed.

(** X1.  A channel element without an [id] attribute is refused with
    -EINVAL, and the refusal goes all the way up: the device that holds
    the channel is not built, and neither is a document that holds that
    device. *)
Theorem channel_without_id_aborts (params : iio_context_params)
    (doc dv ch : xmlNode) :
  dv ∈ children doc -> is_named "device" dv = true ->
  ch ∈ children dv -> is_named "channel" ch = true ->
  ~ has_attr "id" ch ->
  create_channel ch = Err (- EINVAL)
  /\ (exists err, create_device dv = Err err)
  /\ exists err, iio_create_xml_context_helper params doc = Err err.
Proof.
  intros Hdv Hdev Hch Hchn Hno.
  assert (Hfail : create_channel ch = Err (- EINVAL)).
  { unfold create_channel.
    assert (Hid : forall attrs chn,
               chn_id (fold_left create_channel_attr attrs chn)
               = match last_attr "id" attrs with
                 | Some v => Some v
                 | None => chn_id chn
                 end).
    { induction attrs as [|a attrs IH] using rev_ind; intros chn;
        [reflexivity|].
      rewrite fold_left_app, last_attr_snoc. simpl.
      unfold create_channel_attr at 1.
      destruct (streq (attr_name a) "id") eqn:Hid.
      - apply streq_eq in Hid. rewrite Hid. reflexivity.
      - destruct (streq (attr_name a) "name");
          [|destruct (streq (attr_name a) "type");
            [destruct (streq (attr_content a) "output")|]];
          simpl; apply IH. }
    rewrite Hid, (last_attr_absent _ _ Hno). reflexivity. }
  split; [assumption|].
  destruct (channel_failure_aborts_device dv ch _ Hch Hchn Hfail)
    as [err Herr].
  split; [eauto|].
  eapply device_failure_aborts_document; eassumption.
Qed.

(** X2.  All-or-nothing for the contents of a scan-element: if one of its
    attributes is refused ([index], [format] or [scale] that does not
    decode), the channel fails with -EINVAL, and with it the device and
    the whole document, wherever the attribute stands and whatever the
    rest of the document is. *)
Theorem malformed_scan_element_aborts (params : iio_context_params)
    (doc dv ch se : xmlNode) (a : xmlAttr) (e : Z) :
  dv ∈ children doc -> is_named "device" dv = true ->
  ch ∈ children dv -> is_named "channel" ch = true ->
  se ∈ children ch -> is_named "scan-element" se = true ->
  a ∈ properties se ->
  fst (setup_scan_element_attr zalloc_channel a) = Leave e ->
  create_channel ch = Err (- EINVAL)
  /\ (exists err, create_device dv = Err err)
  /\ exists err, iio_create_xml_context_helper params doc = Err err.
Proof.
  intros Hdv Hdev Hch Hchn Hse Hscan Ha Hrej.
  assert (Hfail : create_channel ch = Err (- EINVAL)).
  { unfold create_channel. destruct (chn_id _); [|reflexivity].
    match goal with
    | |- context [for_each create_channel_child (children ch) ?c] =>
        remember c as chn0 eqn:Hchn0; clear Hchn0
    end.
    destruct (for_each_leaves create_channel_child (children ch) se Hse)
      with (s := chn0) as [e' He'].
    { intros st. unfold create_channel_child.
      apply is_named_eq in Hscan. rewrite Hscan. simpl.
      unfold leave_if.
      rewrite (setup_scan_element_rejects _ se a e Ha Hrej). simpl. eauto. }
    pose proof (for_each_leave_code (fun e => e = - EINVAL)
                  create_channel_child (children ch)
                  ltac:(intros st0 x0 e0 _; apply create_channel_child_code)
                  chn0 e' He') as Hcode.
    destruct (for_each create_channel_child (children ch) chn0)
      as [[|e''] c']; simpl in He'; [discriminate|].
    injection He' as ->. rewrite Hcode. reflexivity. }
  split; [assumption|].
  destruct (channel_failure_aborts_device dv ch _ Hch Hchn Hfail)
    as [err Herr].
  split; [eauto|].
  eapply device_failure_aborts_document; eassumption.
Qed.

(** X3.  Short of memory exhaustion a channel can only be refused with
    -EINVAL, and the code a refused device encodes is negative, so that
    [iio_err] always tells a refusal from an object. *)
Theorem builder_error_codes (n : xmlNode) (err : Z) :
  (create_channel n = Err err -> err = - EINVAL)
  /\ (create_device n = Err err -> err < 0 /\ iio_err (create_device n) <> 0).
Proof.
  split.
  - unfold create_channel.
    destruct (chn_id _); [|intros [= <-]; reflexivity].
    match goal with
    | |- context [for_each create_channel_child (children n) ?c] =>
        remember c as chn0 eqn:Hchn0; clear Hchn0
    end.
    destruct (for_each create_channel_child (children n) chn0)
      as [[|e] c'] eqn:Hloop; [discriminate|].
    intros [= <-].
    apply (for_each_leave_code (fun e => e = - EINVAL) create_channel_child
             (children n)) with (s := chn0); [|rewrite Hloop; reflexivity].
    intros st x e' _. apply create_channel_child_code.
  - intros H. pose proof (create_device_err n err H) as Hneg.
    rewrite H. simpl. lia.
Qed.

(** X4.  A context-attribute element needs both [name] and [value]: when
    either is missing it is refused with -EINVAL, nothing is added to the
    context, and the whole document fails. *)
Theorem context_attribute_requires_both (params : iio_context_params)
    (doc n : xmlNode) :
  n ∈ children doc -> is_named "context-attribute" n = true ->
  last_attr "name" (properties n) = None
  \/ last_attr "value" (properties n) = None ->
  (forall ctx, parse_context_attr ctx n = (- EINVAL, ctx))
  /\ exists err, iio_create_xml_context_helper params doc = Err err.
Proof.
  intros Hin Hname Hmiss.
  assert (Hfields : forall attrs st,
             fold_left context_attr_fields attrs st
             = (match last_attr "name" attrs with
                | Some v => Some v
                | None => fst st
                end,
                match last_attr "value" attrs with
                | Some v => Some v
                | None => snd st
                end)).
  { induction attrs as [|a attrs IH] using rev_ind; intros [nm vl];
      [reflexivity|].
    rewrite fold_left_app, !last_attr_snoc. simpl. rewrite IH. simpl.
    unfold context_attr_fields. simpl.
    destruct (streq (attr_name a) "name") eqn:Hn.
    - apply streq_eq in Hn. rewrite Hn. reflexivity.
    - destruct (streq (attr_name a) "value"); reflexivity. }
  assert (Hparse : forall ctx, parse_context_attr ctx n = (- EINVAL, ctx)).
  { intros ctx. unfold parse_context_attr. rewrite Hfields. simpl.
    destruct Hmiss as [-> | ->]; [reflexivity|].
    destruct (last_attr "name" (properties n)); reflexivity. }
  split; [assumption|].
  unfold iio_create_xml_context_helper.
  destruct (streq (node_name doc) "context"); simpl; [|eauto].
  destruct (iio_context_create_from_backend _ _) as [err|ctx]; [eauto|].
  unfold iio_populate_xml_context_helper.
  match goal with
  | |- context [for_each populate_child (children doc) ?c] =>
      remember c as ctx0 eqn:Hctx0; clear Hctx0
  end.
  destruct (for_each_leaves populate_child (children doc) n Hin)
    with (s := ctx0) as [e' He'].
  { intros st. unfold populate_child.
    unfold is_named in Hname. rewrite Hname, Hparse. simpl. eauto. }
  pose proof (for_each_leave_code (fun e => e <> 0) populate_child
                (children doc)
                ltac:(intros st0 x0 e0 _; apply populate_child_code)
                ctx0 e' He') as Hnz.
  destruct (for_each populate_child (children doc) ctx0) as [[|e''] ctx'];
    simpl in He'; [discriminate|].
  injection He' as ->. unfold nonzero.
  apply Z.eqb_neq in Hnz. rewrite Hnz. simpl. eauto.
Qed.

(** X7.  An attribute element of a device (attribute, debug-attribute
    or buffer-attribute) needs a [name]: without one it is refused with
    -EINVAL whatever its kind, the device is left as it was and
    [add_iio_dev_attr] is not asked; the device that holds the element
    is not built, and neither is a document that holds that device. *)
Theorem device_attribute_requires_name (params : iio_context_params)
    (doc dv n : xmlNode) :
  dv ∈ children doc -> is_named "device" dv = true ->
  n ∈ children dv -> is_device_attribute n = true ->
  ~ has_attr "name" n ->
  (forall dev type, add_attr_to_device dev n type = (- EINVAL, dev))
  /\ (exists err, create_device dv = Err err)
  /\ exists err, iio_create_xml_context_helper params doc = Err err.
Proof.
  intros Hdv Hdev Hn Hkind Hno.
  assert (Hname : forall attrs st,
             fold_left device_attr_name attrs st
             = match last_attr "name" attrs with
               | Some v => Some v
               | None => st
               end).
  { induction attrs as [|a attrs IH] using rev_ind; intros st;
      [reflexivity|].
    rewrite fold_left_app, last_attr_snoc. simpl.
    unfold device_attr_name at 1.
    destruct (streq (attr_name a) "name"); [reflexivity|apply IH]. }
  assert (Hadd : forall dev type,
             add_attr_to_device dev n type = (- EINVAL, dev)).
  { intros dev type. unfold add_attr_to_device.
    rewrite Hname, (last_attr_absent _ _ Hno). reflexivity. }
  split; [assumption|].
  assert (Hfail : exists err, create_device dv = Err err).
  { unfold create_device. destruct (dev_id _); [|eauto].
    match goal with
    | |- context [for_each create_device_child (children dv) ?d] =>
        destruct (for_each_leaves create_device_child (children dv) n Hn)
          with (s := d) as [e' He'];
        [|destruct (for_each create_device_child (children dv) d)
            as [[|e''] d']; simpl in He'; [discriminate|eauto]]
    end.
    intros st. unfold create_device_child, is_device_attribute in *.
    apply orb_true_iff in Hkind as [Hkind|Hkind];
      [apply orb_true_iff in Hkind as [Hkind|Hkind]|];
      apply is_named_eq in Hkind; rewrite Hkind; simpl; rewrite Hadd;
      exists (- EINVAL); reflexivity. }
  split; [assumption|].
  destruct Hfail as [err Herr].
  eapply device_failure_aborts_document; eassumption.
Qed.

End BuilderErrors.

Section BuilderResults.

Context {PF : Platform} {CO : Collaborators}.

Import Libc.

(** *** Devices *)

Lemma add_attr_to_device_frame (dev : iio_device) (n : xmlNode)
    (type : iio_attr_type) :
  let dev' := snd (add_attr_to_device dev n type) in
  dev_name dev' = dev_name dev /\ dev_id dev' = dev_id dev
  /\ dev_label dev' = dev_label dev
  /\ dev_channels dev' = dev_channels dev
  /\ dev_mask dev' = dev_mask dev.
Proof.
  unfold add_attr_to_device.
  destruct (fold_left device_attr_name (properties n) None) as [name|].
  - destruct type;
      match goal with
      | |- context [add_iio_dev_attr ?d ?r ?nm ?sf] =>
          destruct (add_iio_dev_attr d r nm sf) as [ret attrs]
      end; simpl; repeat split.
  - simpl. repeat split.
Qed.

Lemma create_device_attr_fields (attrs : list xmlAttr) :
  forall dev,
    let dev' := fold_left create_device_attr attrs dev in
    dev_name dev' = match last_attr "name" attrs with
                    | Some v => Some v
                    | None => dev_name dev
                    end
    /\ dev_label dev' = match last_attr "label" attrs with
                        | Some v => Some v
                        | None => dev_label dev
                        end
    /\ dev_channels dev' = dev_channels dev.
Proof.
  induction attrs as [|a attrs IH] using rev_ind; intros dev;
    [repeat split|].
  simpl. rewrite fold_left_app, !last_attr_snoc. simpl.
  destruct (IH dev) as (Hn & Hl & Hc).
  set (d := fold_left create_device_attr attrs dev) in *.
  unfold create_device_attr.
  destruct (streq (attr_name a) "name") eqn:H1;
    [apply streq_eq in H1; rewrite ?H1; simpl; auto|].
  destruct (streq (attr_name a) "label") eqn:H2;
    [apply streq_eq in H2; rewrite ?H2; simpl; auto|].
  destruct (streq (attr_name a) "id"); simpl; auto.
Qed.

Lemma device_children_loop (l : list xmlNode) :
  forall dev dev',
    for_each create_device_child l dev = (Next, dev') ->
    dev_name dev' = dev_name dev /\ dev_id dev' = dev_id dev
    /\ dev_label dev' = dev_label dev
    /\ map Ptr (dev_channels dev')
       = map Ptr (dev_channels dev)
         ++ map create_channel (List.filter (is_named "channel") l).
Proof.
  induction l as [|x l IH]; intros dev dev'.
  - intros [= <-]. simpl. rewrite app_nil_r. auto.
  - simpl. unfold is_named at 1.
    destruct (create_device_child dev x) as [[|e] dev1] eqn:Hstep;
      [|discriminate].
    intros Hloop. destruct (IH _ _ Hloop) as (Hn & Hi & Hl & Hc).
    rewrite Hn, Hi, Hl, Hc. clear IH Hloop Hn Hi Hl Hc.
    unfold create_device_child in Hstep.
    destruct (streq (node_name x) "channel").
    + destruct (create_channel x) as [err|chn] eqn:Hchn; [discriminate|].
      injection Hstep as <-. simpl. rewrite map_app, <- app_assoc, Hchn.
      repeat split; reflexivity.
    + assert (Hframe : forall type,
                 leave_if negative (add_attr_to_device dev x type)
                 = (Next, dev1) ->
                 dev_name dev1 = dev_name dev /\ dev_id dev1 = dev_id dev
                 /\ dev_label dev1 = dev_label dev
                 /\ dev_channels dev1 = dev_channels dev).
      { intros type Hl.
        pose proof (add_attr_to_device_frame dev x type) as Hf.
        assert (Hd : snd (add_attr_to_device dev x type) = dev1).
        { rewrite <- (snd_leave_if negative), Hl. reflexivity. }
        rewrite Hd in Hf. simpl in Hf. tauto. }
      repeat match type of Hstep with
             | context [if ?b then _ else _] => destruct b
             end;
        try (destruct (Hframe _ Hstep) as (-> & -> & -> & ->); auto).
      injection Hstep as <-. auto.
Qed.

(** X5.  The channels of a device are the channels of its <channel>
    children, each built by [create_channel], in document order: their
    number is the number of those children and nothing else adds or
    removes a channel. *)
Theorem device_channels_in_order (n : xmlNode) (dev : iio_device) :
  create_device n = Ptr dev ->
  map Ptr (dev_channels dev)
  = map create_channel (List.filter (is_named "channel") (children n))
  /\ length (dev_channels dev)
     = length (List.filter (is_named "channel") (children n)).
Proof.
  unfold create_device. destruct (dev_id _); [|discriminate].
  destruct (for_each create_device_child (children n) _)
    as [[|e] dev'] eqn:Hloop; [|discriminate].
  intros [= <-].
  destruct (device_children_loop _ _ _ Hloop) as (_ & _ & _ & Hc).
  destruct (create_device_attr_fields (properties n) zalloc_device)
    as (_ & _ & Hc0).
  rewrite Hc0 in Hc. simpl in Hc. split; [assumption|].
  rewrite <- (length_map Ptr), Hc, length_map. reflexivity.
Qed.

(** X6.  A device that is built has an id, and its id, name and label
    are the texts of the last [id], [name] and [label] attributes of its
    element (no name or label when the attribute is absent); no child
    element changes them. *)
Theorem device_fields_from_attributes (n : xmlNode) (dev : iio_device) :
  create_device n = Ptr dev ->
  (exists id, dev_id dev = Some id)
  /\ dev_id dev = last_attr "id" (properties n)
  /\ dev_name dev = last_attr "name" (properties n)
  /\ dev_label dev = last_attr "label" (properties n).
Proof.
  unfold create_device.
  destruct (dev_id _) as [id|] eqn:Hid; [|discriminate].
  destruct (for_each create_device_child (children n) _)
    as [[|e] dev'] eqn:Hloop; [|discriminate].
  intros [= <-].
  destruct (device_children_loop _ _ _ Hloop) as (Hn & Hi & Hl & _).
  destruct (create_device_attr_fields (properties n) zalloc_device)
    as (Hn0 & Hl0 & _).
  rewrite Hn, Hi, Hl, Hn0, Hl0, Hid.
  rewrite create_device_attr_id in Hid. simpl in *.
  destruct (last_attr "id" (properties n)); [|discriminate].
  destruct (last_attr "name" (properties n)),
    (last_attr "label" (properties n)); eauto.
Qed.

End BuilderResults.

Section ChannelResults.

Context {PF : Platform} {CO : Collaborators}.

Import Libc.

Lemma setup_scan_element_attr_frame (chn : iio_channel) (a : xmlAttr) :
  outside_scan_element (snd (setup_scan_element_attr chn a))
  = outside_scan_element chn.
Proof.
  unfold setup_scan_element_attr, iio_sscanf.
  repeat match goal with
         | |- context [if ?b then _ else _] => destruct b
         | |- context [let '(_, _) := ?x in _] => destruct x
         end; reflexivity.
Qed.

Lemma setup_scan_element_frame (chn : iio_channel) (n : xmlNode) :
  outside_scan_element (snd (setup_scan_element chn n))
  = outside_scan_element chn.
Proof.
  unfold setup_scan_element.
  pose proof (for_each_invariant
                (fun c => outside_scan_element c = outside_scan_element chn)
                setup_scan_element_attr (properties n)) as Hinv.
  specialize (Hinv) with (s := chn).
  destruct (for_each setup_scan_element_attr (properties n) chn)
    as [f chn']. simpl in *. apply Hinv; [|reflexivity].
  intros c a _ <-. apply setup_scan_element_attr_frame.
Qed.

Lemma create_channel_attr_fields (attrs : list xmlAttr) :
  forall chn,
    let chn' := fold_left create_channel_attr attrs chn in
    chn_id chn' = match last_attr "id" attrs with
                  | Some v => Some v
                  | None => chn_id chn
                  end
    /\ chn_name chn' = match last_attr "name" attrs with
                       | Some v => Some v
                       | None => chn_name chn
                       end
    /\ chn_is_output chn'
       = chn_is_output chn || has_attr_value "type" "output" attrs
    /\ chn_is_scan_element chn' = chn_is_scan_element chn
    /\ chn_attrs chn' = chn_attrs chn.
Proof.
  induction attrs as [|a attrs IH] using rev_ind; intros chn.
  - simpl. rewrite orb_false_r. repeat split.
  - simpl. rewrite fold_left_app, !last_attr_snoc. simpl.
    unfold has_attr_value. rewrite existsb_app. simpl.
    fold (has_attr_value "type" "output" attrs).
    destruct (IH chn) as (Hi & Hn & Ho & Hs & Ha).
    set (c := fold_left create_channel_attr attrs chn) in *.
    unfold create_channel_attr.
    destruct (streq (attr_name a) "name") eqn:H1;
      [apply streq_eq in H1; rewrite ?H1; simpl;
       rewrite ?orb_false_r; auto 6|].
    destruct (streq (attr_name a) "id") eqn:H2;
      [apply streq_eq in H2; rewrite ?H2; simpl;
       rewrite ?orb_false_r; auto 6|].
    destruct (streq (attr_name a) "type") eqn:H3; simpl;
      [|rewrite ?orb_false_r; auto 6].
    destruct (streq (attr_content a) "output"); simpl;
      rewrite ?orb_false_r, ?orb_true_r; auto 6.
Qed.

Lemma channel_children_loop (l : list xmlNode) :
  forall chn chn',
    for_each create_channel_child l chn = (Next, chn') ->
    chn_id chn' = chn_id chn /\ chn_name chn' = chn_name chn
    /\ chn_is_output chn' = chn_is_output chn
    /\ chn_is_scan_element chn'
       = chn_is_scan_element chn || existsb (is_named "scan-element") l
    /\ chn_attrs chn'
       = chn_attrs chn
         ++ map channel_attr_of (List.filter (is_named "attribute") l).
Proof.
  induction l as [|x l IH]; intros chn chn'.
  - intros [= <-]. simpl. rewrite orb_false_r, app_nil_r. auto 6.
  - simpl. unfold is_named at 1 3.
    destruct (create_channel_child chn x) as [[|e] chn1] eqn:Hstep;
      [|discriminate].
    intros Hloop. destruct (IH _ _ Hloop) as (Hi & Hn & Ho & Hs & Ha).
    rewrite Hi, Hn, Ho, Hs, Ha. clear IH Hloop Hi Hn Ho Hs Ha.
    unfold create_channel_child in Hstep.
    destruct (streq (node_name x) "attribute") eqn:Hattr.
    + apply streq_eq in Hattr as Hname. rewrite Hname. simpl.
      unfold leave_if, add_attr_to_channel in Hstep.
      rewrite channel_attr_fields_last in Hstep. simpl in Hstep.
      unfold channel_attr_of.
      destruct (last_attr "name" (properties x)) as [nm|];
        [|discriminate].
      simpl in Hstep. injection Hstep as <-. simpl.
      rewrite <- app_assoc. simpl.
      destruct (last_attr "filename" (properties x)); auto 6.
    + destruct (streq (node_name x) "scan-element") eqn:Hse.
      * pose proof (setup_scan_element_frame
                      (set_chn_is_scan_element true chn) x) as Hf.
        assert (Hd : snd (setup_scan_element
                            (set_chn_is_scan_element true chn) x) = chn1).
        { rewrite <- (snd_leave_if negative), Hstep. reflexivity. }
        rewrite Hd in Hf. unfold outside_scan_element in Hf. simpl in Hf.
        injection Hf as -> -> -> -> ->.
        rewrite !orb_true_r. simpl. auto 6.
      * injection Hstep as <-. simpl. auto 6.
Qed.

(** X8.  The fields of a built channel are read off its element: it has
    an id, the text of the last [id] attribute; its name is the text of
    the last [name] attribute, if any; it is an output channel exactly
    when some [type] attribute says "output" (a later "input" does not
    take that back); and it is a scan element exactly when it has a
    <scan-element> child. *)
Theorem channel_fields_from_document (n : xmlNode) (chn : iio_channel) :
  finalize_keeps_parsed CO ->
  create_channel n = Ptr chn ->
  (exists id, chn_id chn = Some id)
  /\ chn_id chn = last_attr "id" (properties n)
  /\ chn_name chn = last_attr "name" (properties n)
  /\ chn_is_output chn = has_attr_value "type" "output" (properties n)
  /\ chn_is_scan_element chn
     = existsb (is_named "scan-element") (children n).
Proof.
  intros Hfin. unfold create_channel.
  destruct (chn_id _) as [id|] eqn:Hid; [|discriminate].
  destruct (for_each create_channel_child (children n) _)
    as [[|e] chn'] eqn:Hloop; [|discriminate].
  intros [= <-].
  destruct (Hfin chn') as (-> & -> & _ & -> & -> & _ & _).
  destruct (channel_children_loop _ _ _ Hloop) as (-> & -> & -> & -> & _).
  destruct (create_channel_attr_fields (properties n)
              (set_chn_index (- ENOENT) zalloc_channel))
    as (Hi & Hn & Ho & Hs & _).
  rewrite Hi in Hid. rewrite Hi, Hn, Ho, Hs. simpl in *.
  destruct (last_attr "id" (properties n)); [|discriminate].
  destruct (last_attr "name" (properties n)); eauto 6.
Qed.

(** X9.  The attributes of a built channel are its <attribute> children
    in document order, one pair for each: the name is the text of the
    [name] attribute, the filename the text of the [filename] attribute
    or the name when there is none; every pair has both. *)
Theorem channel_attributes_in_order (n : xmlNode) (chn : iio_channel) :
  finalize_keeps_parsed CO ->
  create_channel n = Ptr chn ->
  chn_attrs chn
  = map channel_attr_of (List.filter (is_named "attribute") (children n))
  /\ Forall (fun a => exists name file,
                        ca_name a = Some name /\ ca_filename a = Some file)
            (chn_attrs chn).
Proof.
  intros Hfin. unfold create_channel.
  destruct (chn_id _) as [id|] eqn:Hid; [|discriminate].
  match goal with
  | |- context [for_each create_channel_child (children n) ?c] =>
      remember c as chn0 eqn:Hchn0
  end.
  destruct (for_each create_channel_child (children n) chn0)
    as [[|e] chn'] eqn:Hloop; [|discriminate].
  intros [= <-].
  destruct (Hfin chn') as (_ & _ & _ & _ & _ & _ & ->).
  assert (Hatt0 : chn_attrs chn0 = []).
  { subst chn0.
    destruct (create_channel_attr_fields (properties n)
                (set_chn_index (- ENOENT) zalloc_channel))
      as (_ & _ & _ & _ & ->). reflexivity. }
  clear Hchn0 Hid.
  assert (Hgen : forall l c c',
             for_each create_channel_child l c = (Next, c') ->
             Forall (fun a => exists name file,
                        ca_name a = Some name /\ ca_filename a = Some file)
                    (chn_attrs c) ->
             Forall (fun a => exists name file,
                        ca_name a = Some name /\ ca_filename a = Some file)
                    (chn_attrs c')).
  { induction l as [|x l IH]; intros c c'; [intros [= <-]; auto|].
    simpl. destruct (create_channel_child c x) as [[|e] c1] eqn:Hstep;
      [|discriminate].
    intros Hl Hc. apply (IH _ _ Hl). clear IH Hl.
    unfold create_channel_child in Hstep.
    destruct (streq (node_name x) "attribute").
    - unfold leave_if, add_attr_to_channel in Hstep.
      rewrite channel_attr_fields_last in Hstep. simpl in Hstep.
      destruct (last_attr "name" (properties x)) as [nm|];
        [|discriminate].
      simpl in Hstep. injection Hstep as <-. simpl.
      apply Forall_app. split; [assumption|].
      repeat constructor.
      destruct (last_attr "filename" (properties x)); simpl; eauto.
    - destruct (streq (node_name x) "scan-element").
      + pose proof (setup_scan_element_frame
                      (set_chn_is_scan_element true c) x) as Hf.
        assert (Hd : snd (setup_scan_element
                            (set_chn_is_scan_element true c) x) = c1).
        { rewrite <- (snd_leave_if negative), Hstep. reflexivity. }
        rewrite Hd in Hf. unfold outside_scan_element in Hf. simpl in Hf.
        injection Hf as _ _ _ _ ->. assumption.
      + injection Hstep as <-. assumption. }
  split.
  - destruct (channel_children_loop _ _ _ Hloop) as (_ & _ & _ & _ & ->).
    rewrite Hatt0. reflexivity.
  - apply (Hgen _ _ _ Hloop). rewrite Hatt0. constructor.
Qed.

End ChannelResults.

Section ChannelIndex.

Context {PF : Platform} {CO : Collaborators}.

Import Libc.

(** What [strtoll] returns lies in the range of a [long long]. *)
Lemma strtoll_range (content : string) (base : Z) :
  LONG_MIN <= st_value (strtoll content base) <= LONG_MAX.
Proof.
  unfold strtoll, strto_signed.
  destruct (scan_sign (skip_space content)) as [neg s1].
  destruct (select_base base s1) as [b s2].
  destruct (starts_with_digit b s2); [|simpl; unfold LONG_MIN, LONG_MAX; lia].
  destruct (scan_digits b 0 s2) as [m rest].
  destruct (_ <? LONG_MIN) eqn:Hlo; [simpl; unfold LONG_MIN, LONG_MAX; lia|].
  destruct (LONG_MAX <? _) eqn:Hhi; [simpl; unfold LONG_MIN, LONG_MAX; lia|].
  simpl. apply Z.ltb_ge in Hlo, Hhi. lia.
Qed.

Lemma setup_scan_element_attr_index_range (chn : iio_channel)
    (a : xmlAttr) :
  chn_index (snd (setup_scan_element_attr chn a)) = chn_index chn
  \/ 0 <= chn_index (snd (setup_scan_element_attr chn a)) <= LONG_MAX.
Proof.
  unfold setup_scan_element_attr, iio_sscanf.
  destruct (streq (attr_name a) "index").
  - destruct (negb _ || (st_value (strtoll (attr_content a) 0) <? 0)
              || _) eqn:Hc; simpl; [left; reflexivity|right].
    apply orb_false_elim in Hc as [Hc _].
    apply orb_false_elim in Hc as [_ Hc]. apply Z.ltb_ge in Hc.
    pose proof (strtoll_range (attr_content a) 0). lia.
  - left.
    repeat match goal with
           | |- context [if ?b then _ else _] => destruct b
           | |- context [let '(_, _) := ?x in _] => destruct x
           end; reflexivity.
Qed.

(** X10.  The index of a built channel is either the "no index" value
    -ENOENT or a number from 0 to [LLONG_MAX]: no other negative index
    and no out-of-range index is ever stored. *)
Theorem channel_index_range (n : xmlNode) (chn : iio_channel) :
  finalize_keeps_parsed CO ->
  create_channel n = Ptr chn ->
  chn_index chn = - ENOENT \/ 0 <= chn_index chn <= LONG_MAX.
Proof.
  intros Hfin. unfold create_channel.
  destruct (chn_id _); [|discriminate].
  set (P := fun c : iio_channel =>
              chn_index c = - ENOENT \/ 0 <= chn_index c <= LONG_MAX).
  match goal with
  | |- context [for_each create_channel_child (children n) ?c] =>
      pose proof (for_each_invariant P create_channel_child (children n))
        as Hinv;
      specialize (Hinv) with (s := c);
      destruct (for_each create_channel_child (children n) c)
        as [[|e] chn'] eqn:Hloop; [|discriminate]
  end.
  intros [= <-].
  destruct (Hfin chn') as (_ & _ & _ & _ & _ & -> & _).
  simpl in Hinv. apply Hinv;
    [|left; apply create_channel_attr_index].
  intros c x _ Hc. unfold create_channel_child.
  destruct (streq (node_name x) "attribute").
  - rewrite snd_leave_if. unfold P. rewrite add_attr_to_channel_index.
    assumption.
  - destruct (streq (node_name x) "scan-element"); [|assumption].
    rewrite snd_leave_if. unfold setup_scan_element.
    pose proof (for_each_invariant P setup_scan_element_attr
                  (properties x)) as Hinv2.
    specialize (Hinv2) with (s := set_chn_is_scan_element true c).
    destruct (for_each setup_scan_element_attr (properties x) _)
      as [f c']. simpl in *. apply Hinv2; [|exact Hc].
    intros c0 a _ Hc0. unfold P in *.
    destruct (setup_scan_element_attr_index_range c0 a) as [-> | H];
      [assumption|right; assumption].
Qed.

Lemma decimal_from_nonneg (ds : string) :
  all_chars isdigit ds = true ->
  forall acc, 0 <= acc -> 0 <= decimal_from acc ds.
Proof.
  induction ds as [|c ds IH]; intros Hall acc Hacc; [assumption|].
  simpl in *. apply andb_prop in Hall as [Hc Hall].
  apply IH; [assumption|].
  unfold isdigit in Hc. apply andb_prop in Hc as [H1 _].
  apply Z.leb_le in H1. lia.
Qed.

(** X11.  An [index] attribute written in decimal is read as that
    number: for digits [ds] that do not begin with 0 and denote at most
    [LLONG_MAX], followed by any text that does not go on with a digit,
    the index becomes the value of [ds], the call returns 0 and nothing
    else of the channel changes. *)
Theorem index_decimal_text (chn : iio_channel) (ds rest : string) :
  decimal_index_text ds ->
  starts_with_digit 10 rest = false ->
  setup_scan_element chn (scan_element_node [index_attr (ds +:+ rest)])
  = (0, set_chn_index (decimal_value ds) chn).
Proof.
  intros (Hall & Hstart & Hzero & Hmax) Hrest.
  unfold setup_scan_element, scan_element_node. simpl.
  unfold setup_scan_element_attr. simpl.
  assert (Hr : strtoll (ds +:+ rest) 0
               = {| st_value := decimal_value ds; st_end := rest;
                    st_moved := true; st_erange := false |}).
  { unfold strtoll, strto_signed.
    destruct ds as [|d ds]; [discriminate|].
    simpl in Hall. apply andb_prop in Hall as [Hd Hall].
    pose proof (digit_not_space d Hd) as Hsp.
    destruct (digit_not_sign d Hd) as [Hm Hp].
    assert (Hd0 : Ascii.eqb d "0" = false).
    { apply Ascii.eqb_neq. intros ->. eapply Hzero. reflexivity. }
    rewrite append_cons. simpl skip_space. rewrite Hsp.
    unfold scan_sign. rewrite Hm, Hp.
    assert (Hbase : select_base 0 (String d (ds +:+ rest))
                    = (10, String d (ds +:+ rest))).
    { unfold select_base. rewrite Hd0. simpl.
      destruct (ds +:+ rest); reflexivity. }
    rewrite Hbase.
    assert (Hsd : starts_with_digit 10 (String d (ds +:+ rest)) = true).
    { simpl. rewrite digit_in_10. exact Hd. }
    rewrite Hsd, <- append_cons.
    rewrite scan_digits_10_complete
      by (simpl; rewrite ?Hd; assumption).
    fold (decimal_value (String d ds)).
    assert (Hpos : 0 <= decimal_value (String d ds)).
    { apply decimal_from_nonneg; [simpl; rewrite Hd; exact Hall|lia]. }
    destruct (_ <? LONG_MIN) eqn:Hlo;
      [apply Z.ltb_lt in Hlo; unfold LONG_MIN in Hlo; lia|].
    destruct (LONG_MAX <? _) eqn:Hhi;
      [apply Z.ltb_lt in Hhi; lia|]. reflexivity. }
  rewrite Hr. simpl.
  assert (Hpos : (decimal_value ds <? 0) = false).
  { apply Z.ltb_ge. apply decimal_from_nonneg; [assumption|lia]. }
  rewrite Hpos. reflexivity.
Qed.

End ChannelIndex.

Section AttributeLists.

Context {PF : Platform} {CO : Collaborators}.

Import Libc.

Lemma last_attr_filter (key : string) (keep : xmlAttr -> bool)
    (attrs : list xmlAttr) :
  (forall a, streq (attr_name a) key = true -> keep a = true) ->
  last_attr key (List.filter keep attrs) = last_attr key attrs.
Proof.
  intros Hkeep. unfold last_attr. apply fold_left_filter.
  intros found a Ha. destruct (streq (attr_name a) key) eqn:Hk;
    [|reflexivity].
  rewrite (Hkeep a Hk) in Ha. discriminate.
Qed.

(** X12.  Without a [version-git] attribute the [version-major] and
    [version-minor] attributes of the root are dead: whatever they hold,
    also text that is no number, the build gives the result of the
    document without them. *)
Theorem version_numbers_unused_without_git_tag
    (params : iio_context_params) (doc : xmlDoc) :
  ~ has_attr "version-git" doc ->
  iio_create_xml_context_helper params (without_version_numbers doc)
  = iio_create_xml_context_helper params doc.
Proof.
  intros Hno. unfold iio_create_xml_context_helper, without_version_numbers.
  simpl. destruct (streq (node_name doc) "context"); [|reflexivity]. simpl.
  rewrite !root_attr_fields. simpl.
  rewrite !last_attr_filter.
  2,3: intros a Ha; apply streq_eq in Ha; rewrite Ha; reflexivity.
  rewrite (last_attr_absent _ _ Hno). reflexivity.
Qed.

Lemma fold_left_permutation {A S K : Type} (key : A -> K)
    (f : S -> A -> S) (l l' : list A) :
  l ≡ₚ l' ->
  NoDup (map key l) ->
  (forall s a b, key a <> key b -> f (f s a) b = f (f s b) a) ->
  forall s, fold_left f l s = fold_left f l' s.
Proof.
  intros Hperm Hnd Hcomm. induction Hperm as [|x l l' _ IH|x y l|l l' l'' H1 IH1 H2 IH2];
    intros s.
  - reflexivity.
  - simpl. apply IH. simpl in Hnd. apply NoDup_cons in Hnd. tauto.
  - simpl. rewrite Hcomm; [reflexivity|].
    simpl in Hnd. apply NoDup_cons in Hnd as [Hnotin _].
    intros Heq. apply Hnotin. rewrite Heq. left.
  - rewrite IH1 by assumption. apply IH2.
    eapply NoDup_Permutation_proper; [|exact Hnd].
    symmetry. apply fmap_Permutation. assumption.
Qed.

Local Ltac commute_by_names :=
  repeat match goal with
         | |- context [streq (attr_name ?a) ?k] =>
             let H := fresh "H" in
             destruct (streq (attr_name a) k) eqn:H;
             [apply streq_eq in H|]
         end;
  try reflexivity; try congruence.

Lemma create_channel_attr_comm (c : iio_channel) (a b : xmlAttr) :
  attr_name a <> attr_name b ->
  create_channel_attr (create_channel_attr c a) b
  = create_channel_attr (create_channel_attr c b) a.
Proof.
  intros Hne. unfold create_channel_attr. commute_by_names.
  all: destruct (streq (attr_content a) "output"),
         (streq (attr_content b) "output"); reflexivity.
Qed.

Lemma create_device_attr_comm (d : iio_device) (a b : xmlAttr) :
  attr_name a <> attr_name b ->
  create_device_attr (create_device_attr d a) b
  = create_device_attr (create_device_attr d b) a.
Proof. intros Hne. unfold create_device_attr. commute_by_names. Qed.

Lemma channel_attr_fields_comm (st : option string * option string)
    (a b : xmlAttr) :
  attr_name a <> attr_name b ->
  channel_attr_fields (channel_attr_fields st a) b
  = channel_attr_fields (channel_attr_fields st b) a.
Proof. intros Hne. unfold channel_attr_fields. commute_by_names. Qed.

Lemma context_attr_fields_comm (st : option string * option string)
    (a b : xmlAttr) :
  attr_name a <> attr_name b ->
  context_attr_fields (context_attr_fields st a) b
  = context_attr_fields (context_attr_fields st b) a.
Proof. intros Hne. unfold context_attr_fields. commute_by_names. Qed.

Lemma device_attr_name_comm (st : option string) (a b : xmlAttr) :
  attr_name a <> attr_name b ->
  device_attr_name (device_attr_name st a) b
  = device_attr_name (device_attr_name st b) a.
Proof. intros Hne. unfold device_attr_name. commute_by_names. Qed.

Lemma root_attr_comm (st : root_fields) (a b : xmlAttr) :
  attr_name a <> attr_name b ->
  root_attr (root_attr st a) b = root_attr (root_attr st b) a.
Proof. intros Hne. unfold root_attr. commute_by_names. Qed.

(** X13.  The order of the attributes of an element is insignificant:
    for two elements with the same name and children whose attribute
    lists are permutations of each other, with no attribute name twice,
    every builder of [xml.c] gives the same result on both, as a channel,
    as a device, as an attribute element of a channel or of a device, as a
    context-attribute, and as the root of a document. *)
Theorem attribute_order_insignificant (n n' : xmlNode) :
  node_name n' = node_name n ->
  children n' = children n ->
  properties n ≡ₚ properties n' ->
  NoDup (map attr_name (properties n)) ->
  create_channel n' = create_channel n
  /\ create_device n' = create_device n
  /\ (forall chn, add_attr_to_channel chn n' = add_attr_to_channel chn n)
  /\ (forall dev type,
         add_attr_to_device dev n' type = add_attr_to_device dev n type)
  /\ (forall ctx, parse_context_attr ctx n' = parse_context_attr ctx n)
  /\ (forall params,
         iio_create_xml_context_helper params n'
         = iio_create_xml_context_helper params n).
Proof.
  intros Hname Hch Hperm Hnd.
  unfold create_channel, create_device, add_attr_to_channel,
    add_attr_to_device, parse_context_attr, iio_create_xml_context_helper,
    iio_populate_xml_context_helper.
  rewrite Hname, Hch.
  rewrite <- (fold_left_permutation attr_name create_channel_attr _ _
                Hperm Hnd create_channel_attr_comm).
  rewrite <- (fold_left_permutation attr_name create_device_attr _ _
                Hperm Hnd create_device_attr_comm).
  repeat split; intros.
  - rewrite <- (fold_left_permutation attr_name channel_attr_fields _ _
                  Hperm Hnd channel_attr_fields_comm). reflexivity.
  - rewrite <- (fold_left_permutation attr_name device_attr_name _ _
                  Hperm Hnd device_attr_name_comm). reflexivity.
  - rewrite <- (fold_left_permutation attr_name context_attr_fields _ _
                  Hperm Hnd context_attr_fields_comm). reflexivity.
  - rewrite <- (fold_left_permutation attr_name root_attr _ _
                  Hperm Hnd root_attr_comm). reflexivity.
Qed.

End AttributeLists.

Section ScanElementOrder.

Context {PF : Platform}.

Import Libc.

Lemma store_map_format (g : iio_data_format -> iio_data_format)
    (t : scan_target) (v : scan_value) (st : scan_state) :
  beside_descriptor g ->
  store t v (map_format g st) = map_format g (store t v st).
Proof.
  intros (Hb & Hl & Hr & Hs & _).
  destruct t, v; unfold store, map_format; simpl;
    rewrite ?Hb, ?Hl, ?Hr, ?Hs; reflexivity.
Qed.

Lemma store_all_map_format (g : iio_data_format -> iio_data_format)
    (ts : list scan_target) :
  beside_descriptor g ->
  forall vs st,
    store_all ts vs (map_format g st) = map_format g (store_all ts vs st).
Proof.
  intros Hg. induction ts as [|t ts IH]; intros vs st; [reflexivity|].
  destruct vs as [|v vs]; [reflexivity|].
  simpl. rewrite store_map_format by assumption. apply IH.
Qed.

Lemma format_flags_map_format (g : iio_data_format -> iio_data_format)
    (st : scan_state) :
  beside_descriptor g ->
  format_flags (map_format g st) = g (format_flags st).
Proof.
  intros (_ & _ & _ & _ & Hf & Hb & Hl).
  unfold format_flags, map_format. simpl. rewrite Hb, Hl, Hf. reflexivity.
Qed.

Lemma with_scale_beside_descriptor (w : bool) :
  beside_descriptor (set_fmt_with_scale w).
Proof. repeat split. Qed.

Lemma scale_beside_descriptor (w : bool) (v : float) :
  beside_descriptor (fun f => set_fmt_scale v (set_fmt_with_scale w f)).
Proof. repeat split. Qed.

(** The format branch, seen from a format changed beside it. *)
Lemma format_step_beside (g : iio_data_format -> iio_data_format)
    (c : iio_channel) (a : xmlAttr) :
  beside_descriptor g ->
  streq (attr_name a) "index" = false ->
  streq (attr_name a) "format" = true ->
  scan_attr_step (set_chn_format (g (chn_format c)) c) a
  = set_chn_format (g (chn_format (scan_attr_step c a))) c.
Proof.
  intros Hg Hi Hf. pose proof Hg as (_ & _ & Hrep & _).
  unfold scan_attr_step, setup_scan_element_attr, iio_sscanf.
  rewrite Hi, Hf.
  change (attr_content a) with (attr_content a).
  change (chn_format (set_chn_format (g (chn_format c)) c))
    with (g (chn_format c)).
  destruct (strchr (attr_content a) "X").
  - destruct (sscanf (attr_content a) FORMAT_REPEAT) as [ret vs].
    change {| loc_e := None; loc_s := None;
              loc_format := g (chn_format c) |}
      with (map_format g {| loc_e := None; loc_s := None;
                            loc_format := chn_format c |}).
    rewrite store_all_map_format by assumption.
    destruct (negb (ret =? 6));
      [reflexivity|rewrite format_flags_map_format by assumption;
                   reflexivity].
  - destruct (sscanf (attr_content a) FORMAT_PLAIN) as [ret vs].
    rewrite <- Hrep.
    change {| loc_e := None; loc_s := None;
              loc_format := g (set_fmt_repeat 1 (chn_format c)) |}
      with (map_format g {| loc_e := None; loc_s := None;
                            loc_format := set_fmt_repeat 1 (chn_format c) |}).
    rewrite store_all_map_format by assumption.
    destruct (negb (ret =? 5));
      [reflexivity|rewrite format_flags_map_format by assumption;
                   reflexivity].
Qed.

Lemma other_step_beside_index (v : Z) (c : iio_channel) (b : xmlAttr) :
  streq (attr_name b) "index" = false ->
  scan_attr_step (set_chn_index v c) b
  = set_chn_index v (scan_attr_step c b).
Proof.
  intros Hbi. unfold scan_attr_step, setup_scan_element_attr, iio_sscanf.
  rewrite Hbi.
  change (chn_format (set_chn_index v c)) with (chn_format c).
  destruct (streq (attr_name b) "format").
  - destruct (strchr (attr_content b) "X");
      destruct (sscanf (attr_content b) _) as [ret vs];
      destruct (negb _); reflexivity.
  - destruct (streq (attr_name b) "scale"); [|reflexivity].
    destruct (_ || _); reflexivity.
Qed.

Lemma index_step (c : iio_channel) (a : xmlAttr) :
  streq (attr_name a) "index" = true ->
  (forall c0, scan_attr_step c0 a = c0)
  \/ exists v, forall c0, scan_attr_step c0 a = set_chn_index v c0.
Proof.
  intros Hai. unfold scan_attr_step, setup_scan_element_attr. rewrite Hai.
  destruct (_ || _); [left|right; eexists]; intros c0; reflexivity.
Qed.

Lemma scale_step (a : xmlAttr) :
  streq (attr_name a) "index" = false ->
  streq (attr_name a) "format" = false ->
  streq (attr_name a) "scale" = true ->
  exists g, beside_descriptor g /\
            forall c0, scan_attr_step c0 a
                       = set_chn_format (g (chn_format c0)) c0.
Proof.
  intros Hi Hf Hs. unfold scan_attr_step, setup_scan_element_attr.
  rewrite Hi, Hf, Hs. destruct (_ || _).
  - exists (set_fmt_with_scale false).
    split; [apply with_scale_beside_descriptor|reflexivity].
  - exists (fun f => set_fmt_scale (sf_value (strtof (attr_content a)))
                       (set_fmt_with_scale true f)).
    split; [apply (scale_beside_descriptor true)|reflexivity].
Qed.

Lemma unknown_step (a : xmlAttr) :
  streq (attr_name a) "index" = false ->
  streq (attr_name a) "format" = false ->
  streq (attr_name a) "scale" = false ->
  forall c0, scan_attr_step c0 a = c0.
Proof.
  intros Hi Hf Hs c0. unfold scan_attr_step, setup_scan_element_attr.
  rewrite Hi, Hf, Hs. reflexivity.
Qed.

Lemma set_chn_format_twice (f g : iio_data_format) (c : iio_channel) :
  set_chn_format f (set_chn_format g c) = set_chn_format f c.
Proof. reflexivity. Qed.

Lemma format_step_shape (c : iio_channel) (a : xmlAttr) :
  streq (attr_name a) "index" = false ->
  streq (attr_name a) "format" = true ->
  scan_attr_step c a = set_chn_format (chn_format (scan_attr_step c a)) c.
Proof.
  intros Hi Hf. unfold scan_attr_step, setup_scan_element_attr, iio_sscanf.
  rewrite Hi, Hf.
  destruct (strchr (attr_content a) "X");
    destruct (sscanf (attr_content a) _) as [ret vs];
    destruct (negb _); reflexivity.
Qed.

Lemma scan_attr_step_comm (c : iio_channel) (a b : xmlAttr) :
  attr_name a <> attr_name b ->
  scan_attr_step (scan_attr_step c a) b
  = scan_attr_step (scan_attr_step c b) a.
Proof.
  intros Hne.
  destruct (streq (attr_name a) "index") eqn:Hai;
    destruct (streq (attr_name b) "index") eqn:Hbi.
  - apply streq_eq in Hai, Hbi. congruence.
  - destruct (index_step c a Hai) as [Ha|[v Ha]]; rewrite !Ha;
      [reflexivity|]. apply other_step_beside_index. assumption.
  - destruct (index_step c b Hbi) as [Hb|[v Hb]]; rewrite !Hb;
      [reflexivity|]. symmetry. apply other_step_beside_index. assumption.
  - destruct (streq (attr_name a) "format") eqn:Haf;
      destruct (streq (attr_name b) "format") eqn:Hbf.
    + apply streq_eq in Haf, Hbf. congruence.
    + destruct (streq (attr_name b) "scale") eqn:Hbs.
      * destruct (scale_step b Hbi Hbf Hbs) as (g & Hg & Hb).
        rewrite (Hb c), (Hb (scan_attr_step c a)).
        rewrite (format_step_beside g c a Hg Hai Haf).
        pose proof (format_step_shape c a Hai Haf) as HS.
        set (S := scan_attr_step c a) in *.
        transitivity (set_chn_format (g (chn_format S))
                        (set_chn_format (chn_format S) c));
          [rewrite <- HS; reflexivity|reflexivity].
      * rewrite !(unknown_step b Hbi Hbf Hbs). reflexivity.
    + destruct (streq (attr_name a) "scale") eqn:Has.
      * destruct (scale_step a Hai Haf Has) as (g & Hg & Ha).
        rewrite (Ha c), (Ha (scan_attr_step c b)).
        rewrite (format_step_beside g c b Hg Hbi Hbf).
        pose proof (format_step_shape c b Hbi Hbf) as HS.
        set (S := scan_attr_step c b) in *.
        transitivity (set_chn_format (g (chn_format S))
                        (set_chn_format (chn_format S) c));
          [reflexivity|rewrite <- HS; reflexivity].
      * rewrite !(unknown_step a Hai Haf Has). reflexivity.
    + destruct (streq (attr_name a) "scale") eqn:Has;
        destruct (streq (attr_name b) "scale") eqn:Hbs.
      * apply streq_eq in Has, Hbs. congruence.
      * rewrite !(unknown_step b Hbi Hbf Hbs). reflexivity.
      * rewrite !(unknown_step a Hai Haf Has). reflexivity.
      * rewrite !(unknown_step b Hbi Hbf Hbs). reflexivity.
Qed.

End ScanElementOrder.

Section ScanElementPermutation.

Context {PF : Platform} {CO : Collaborators}.

Import Libc.

Lemma for_each_app {A S : Type} (body : S -> A -> flow * S)
    (l1 l2 : list A) :
  forall s,
    for_each body (l1 ++ l2) s
    = match for_each body l1 s with
      | (Next, s') => for_each body l2 s'
      | (Leave e, s') => (Leave e, s')
      end.
Proof.
  induction l1 as [|x l1 IH]; intros s; simpl.
  - reflexivity.
  - destruct (body s x) as [[|e] s']; [apply IH|reflexivity].
Qed.

Lemma scan_loop_accepted (l : list xmlAttr) :
  forallb scan_attr_accepted l = true ->
  forall chn,
    for_each setup_scan_element_attr l chn
    = (Next, fold_left scan_attr_step l chn).
Proof.
  induction l as [|a l IH]; intros Hall chn; [reflexivity|].
  simpl in *. apply andb_prop in Hall as [Ha Hall].
  unfold scan_attr_accepted in Ha.
  rewrite (scan_attr_flow zalloc_channel chn a) in Ha.
  change (scan_attr_step chn a) with (snd (setup_scan_element_attr chn a)).
  destruct (setup_scan_element_attr chn a) as [[|e] chn1];
    simpl in *; [apply IH; assumption|discriminate].
Qed.

Lemma scan_loop_rejected (l : list xmlAttr) (n : xmlNode)
    (chn : iio_channel) :
  properties n = l ->
  forallb scan_attr_accepted l = false ->
  fst (setup_scan_element chn n) = - EINVAL.
Proof.
  intros Hl Hrej.
  assert (Hex : exists a, a ∈ l /\ scan_attr_accepted a = false).
  { clear Hl. induction l as [|a l IH]; [discriminate|].
    simpl in Hrej. destruct (scan_attr_accepted a) eqn:Ha.
    - destruct (IH Hrej) as (b & Hb & Hbr). exists b. split; [right|];
        assumption.
    - exists a. split; [left|assumption]. }
  destruct Hex as (a & Ha & Har). unfold scan_attr_accepted in Har.
  destruct (fst (setup_scan_element_attr zalloc_channel a)) as [|e] eqn:He;
    [discriminate|].
  apply (setup_scan_element_rejects chn n a e); [rewrite Hl|]; assumption.
Qed.

Lemma forallb_permutation {A : Type} (p : A -> bool) (l l' : list A) :
  l ≡ₚ l' -> forallb p l = forallb p l'.
Proof.
  induction 1 as [|x l l' _ IH|x y l|l l' l'' _ IH1 _ IH2]; simpl.
  - reflexivity.
  - rewrite IH. reflexivity.
  - destruct (p x), (p y); reflexivity.
  - congruence.
Qed.

(** X14.  The order of the attributes of a scan-element is insignificant
    too: for two scan-elements whose attribute lists are permutations of
    each other, with no attribute name twice, [setup_scan_element]
    returns the same code, and when that code is 0 it leaves the same
    channel; a channel built with the one in the place of the other is
    the same channel, or fails alike. *)
Theorem scan_element_attribute_order (se se' : xmlNode) :
  node_name se' = node_name se ->
  properties se ≡ₚ properties se' ->
  NoDup (map attr_name (properties se)) ->
  (forall chn,
      fst (setup_scan_element chn se') = fst (setup_scan_element chn se)
      /\ (fst (setup_scan_element chn se) = 0 ->
          setup_scan_element chn se' = setup_scan_element chn se))
  /\ forall name attrs before after,
       create_channel (XmlNode name attrs (before ++ se' :: after))
       = create_channel (XmlNode name attrs (before ++ se :: after)).
Proof.
  intros Hname Hperm Hnd.
  assert (Hscan : forall chn,
             (setup_scan_element chn se' = setup_scan_element chn se
              /\ fst (setup_scan_element chn se) = 0)
             \/ (fst (setup_scan_element chn se') = - EINVAL
                 /\ fst (setup_scan_element chn se) = - EINVAL)).
  { intros chn.
    destruct (forallb scan_attr_accepted (properties se)) eqn:Hall.
    - left. pose proof Hall as Hall'.
      rewrite (forallb_permutation _ _ _ Hperm) in Hall'.
      unfold setup_scan_element.
      rewrite (scan_loop_accepted _ Hall), (scan_loop_accepted _ Hall').
      rewrite (fold_left_permutation attr_name scan_attr_step _ _
                 Hperm Hnd scan_attr_step_comm). auto.
    - right. pose proof Hall as Hall'.
      rewrite (forallb_permutation _ _ _ Hperm) in Hall'.
      split; eapply scan_loop_rejected; eauto. }
  split.
  - intros chn. destruct (Hscan chn) as [[Heq H0]|[H1 H2]].
    + rewrite Heq. auto.
    + rewrite H1, H2. split; [reflexivity|]. discriminate.
  - intros name attrs before after. unfold create_channel. simpl.
    destruct (chn_id _); [|reflexivity].
    rewrite !for_each_app.
    destruct (for_each create_channel_child before _) as [[|e] c1];
      [|reflexivity].
    simpl. unfold create_channel_child at 1 3. rewrite Hname.
    destruct (streq (node_name se) "attribute") eqn:Hattr.
    + unfold add_attr_to_channel.
      assert (Hf : fold_left channel_attr_fields (properties se') (None, None)
                   = fold_left channel_attr_fields (properties se)
                       (None, None)).
      { symmetry. apply (fold_left_permutation attr_name); auto.
        intros. apply channel_attr_fields_comm. assumption. }
      rewrite Hf. reflexivity.
    + destruct (streq (node_name se) "scan-element"); [|reflexivity].
      unfold leave_if.
      destruct (Hscan (set_chn_is_scan_element true c1))
        as [[Heq H0]|[H1 H2]].
      * rewrite Heq. reflexivity.
      * rewrite H1, H2. reflexivity.
Qed.

End ScanElementPermutation.

(** * The other inline functions of [iio-private.h] *)

Section MaskAlgebra.

Import Mask.

Lemma uint32_high_bits (w n : Z) :
  0 <= w < 2 ^ 32 -> 32 <= n -> Z.testbit w n = false.
Proof.
  intros Hw Hn. apply uint32_fixed in Hw. rewrite <- Hw.
  rewrite Z.land_spec, Z.ones_spec_high by lia. apply andb_false_r.
Qed.

Lemma set_word_same (m : iio_channels_mask) (i : Z) :
  set_word m i (word_at m i) = m.
Proof.
  unfold set_word, word_at. destruct m as [n l]. simpl. f_equal.
  destruct (l !! Z.to_nat i) as [w|] eqn:Hw; simpl.
  - apply list_insert_id. assumption.
  - apply list_insert_ge. apply lookup_ge_None. assumption.
Qed.

Lemma set_word_twice (m : iio_channels_mask) (i v w : Z) :
  set_word (set_word m i v) i w = set_word m i w.
Proof.
  unfold set_word. simpl. f_equal. apply list_insert_insert_eq.
Qed.

Lemma set_word_comm (m : iio_channels_mask) (i j v w : Z) :
  0 <= i -> 0 <= j -> i <> j ->
  set_word (set_word m i v) j w = set_word (set_word m j w) i v.
Proof.
  intros Hi Hj Hne. unfold set_word. simpl. f_equal.
  apply list_insert_insert_ne. lia.
Qed.

(** Two updates of the mask, each of which rewrites the word of its bit
    by a function of that word, can be made in either order when the
    functions commute on 32-bit words. *)
Lemma word_updates_commute (f g : Z -> Z) (m : iio_channels_mask) (i j : Z) :
  wf m -> in_range m i -> in_range m j ->
  (BIT_WORD i = BIT_WORD j ->
   f (g (word_at m (BIT_WORD i))) = g (f (word_at m (BIT_WORD i)))) ->
  set_word (set_word m (BIT_WORD j) (g (word_at m (BIT_WORD j))))
    (BIT_WORD i)
    (f (word_at (set_word m (BIT_WORD j) (g (word_at m (BIT_WORD j))))
          (BIT_WORD i)))
  = set_word (set_word m (BIT_WORD i) (f (word_at m (BIT_WORD i))))
      (BIT_WORD j)
      (g (word_at (set_word m (BIT_WORD i) (f (word_at m (BIT_WORD i))))
            (BIT_WORD j))).
Proof.
  intros Hwf Hi Hj Hfg.
  destruct (word_in_range m i Hwf Hi) as [Hwi Hli].
  destruct (word_in_range m j Hwf Hj) as [Hwj Hlj].
  destruct (Z.eq_dec (BIT_WORD i) (BIT_WORD j)) as [Heq|Hne].
  - rewrite <- Heq in *. rewrite !word_at_set_word_eq by assumption.
    rewrite !set_word_twice, Hfg by reflexivity. reflexivity.
  - rewrite (word_at_set_word_ne m (BIT_WORD i) (BIT_WORD j))
      by (assumption || congruence).
    rewrite (word_at_set_word_ne m (BIT_WORD j) (BIT_WORD i))
      by (assumption || congruence).
    apply set_word_comm; assumption || congruence.
Qed.

(** X15.  The operations on different bits of a mask do not interfere,
    so that the order in which channels are enabled and disabled is
    insignificant: on a well-formed mask and bits in range, two SetBits
    commute, two ClearBits commute, and a SetBit commutes with the
    ClearBit of another bit. *)
Theorem mask_operations_commute (m : iio_channels_mask) (i j : Z) :
  wf m -> in_range m i -> in_range m j ->
  iio_channels_mask_set_bit (iio_channels_mask_set_bit m j) i
  = iio_channels_mask_set_bit (iio_channels_mask_set_bit m i) j
  /\ iio_channels_mask_clear_bit (iio_channels_mask_clear_bit m j) i
     = iio_channels_mask_clear_bit (iio_channels_mask_clear_bit m i) j
  /\ (i <> j ->
      iio_channels_mask_set_bit (iio_channels_mask_clear_bit m j) i
      = iio_channels_mask_clear_bit (iio_channels_mask_set_bit m i) j).
Proof.
  intros Hwf Hi Hj.
  unfold iio_channels_mask_set_bit, iio_channels_mask_clear_bit.
  split; [|split; [|intros Hne]].
  - apply (word_updates_commute
             (fun w => Z.lor w (to_uint32 (BIT_MASK i)))
             (fun w => Z.lor w (to_uint32 (BIT_MASK j)))); try assumption.
    intros _. rewrite <- !Z.lor_assoc.
    rewrite (Z.lor_comm (to_uint32 (BIT_MASK j))). reflexivity.
  - apply (word_updates_commute
             (fun w => Z.land w (to_uint32 (Z.lnot (BIT_MASK i))))
             (fun w => Z.land w (to_uint32 (Z.lnot (BIT_MASK j)))));
      try assumption.
    intros _. rewrite <- !Z.land_assoc.
    rewrite (Z.land_comm (to_uint32 (Z.lnot (BIT_MASK j)))). reflexivity.
  - apply (word_updates_commute
             (fun w => Z.lor w (to_uint32 (BIT_MASK i)))
             (fun w => Z.land w (to_uint32 (Z.lnot (BIT_MASK j)))));
      try assumption.
    intros Hword.
    assert (Hmod : i mod 32 <> j mod 32).
    { intros Hmod. apply Hne. unfold BIT_WORD in Hword.
      rewrite (Z.div_mod i 32), (Z.div_mod j 32) by lia.
      rewrite Hword, Hmod. reflexivity. }
    pose proof (bit_index_range i) as Hki.
    pose proof (bit_index_range j) as Hkj.
    rewrite !BIT_MASK_unsigned.
    apply Z.bits_inj'. intros n Hn.
    rewrite !Z.lor_spec, !Z.land_spec, !Z.lor_spec, Z.pow2_bits_eqb by lia.
    destruct (Z.eqb_spec (i mod 32) n) as [<-|_].
    + rewrite BIT_MASK_complement_bits by lia.
      destruct (Z.eqb_spec (j mod 32) (i mod 32)) as [Heq|_];
        [congruence|].
      simpl. rewrite !orb_true_r. reflexivity.
    + rewrite !orb_false_r. reflexivity.
Qed.

(** X16.  ClearBit undoes SetBit and SetBit undoes ClearBit: on a bit
    that is clear, setting and then clearing it gives back the very same
    mask, and on a bit that is set, clearing and then setting it does;
    setting or clearing twice is the same as once. *)
Theorem mask_set_clear_round_trip (m : iio_channels_mask) (i : Z) :
  wf m -> in_range m i ->
  (iio_channels_mask_test_bit m i = false ->
   iio_channels_mask_clear_bit (iio_channels_mask_set_bit m i) i = m)
  /\ (iio_channels_mask_test_bit m i = true ->
      iio_channels_mask_set_bit (iio_channels_mask_clear_bit m i) i = m)
  /\ iio_channels_mask_set_bit (iio_channels_mask_set_bit m i) i
     = iio_channels_mask_set_bit m i
  /\ iio_channels_mask_clear_bit (iio_channels_mask_clear_bit m i) i
     = iio_channels_mask_clear_bit m i.
Proof.
  intros Hwf Hi.
  destruct (word_in_range m i Hwf Hi) as [Hwi Hli].
  pose proof (bit_index_range i) as Hk.
  pose proof (word_at_uint32 m (BIT_WORD i) Hwf) as Hw.
  set (w := word_at m (BIT_WORD i)) in *.
  set (k := i mod 32) in *.
  assert (Hbits : forall x y, 0 <= x < 2 ^ 32 ->
             (forall n, 0 <= n < 32 -> Z.testbit y n = Z.testbit x n) ->
             (forall n, 32 <= n -> Z.testbit y n = false) -> y = x).
  { intros x y Hx Hlow Hhigh. apply Z.bits_inj'. intros n Hn.
    destruct (Z.lt_ge_cases n 32).
    - apply Hlow. lia.
    - rewrite Hhigh, uint32_high_bits by (assumption || lia). reflexivity. }
  assert (Hcompl_high : forall n, 32 <= n ->
             Z.testbit (to_uint32 (Z.lnot (BIT_MASK i))) n = false).
  { intros n Hn. unfold to_uint32. apply Z.mod_pow2_bits_high. lia. }
  unfold iio_channels_mask_set_bit, iio_channels_mask_clear_bit.
  rewrite !word_at_set_word_eq by assumption.
  rewrite !set_word_twice. fold w. rewrite !BIT_MASK_unsigned. fold k.
  rewrite test_bit_testbit. fold w k.
  repeat split.
  - intros Hclear. rewrite <- (set_word_same m (BIT_WORD i)) at 2. fold w.
    f_equal. apply Hbits; [assumption| |].
    + intros n Hn.
      rewrite Z.land_spec, Z.lor_spec, BIT_MASK_complement_bits,
        Z.pow2_bits_eqb by lia. fold k.
      destruct (Z.eqb_spec k n) as [<-|_]; simpl;
        [rewrite Hclear; apply andb_false_r|].
      rewrite orb_false_r, andb_true_r. reflexivity.
    + intros n Hn. rewrite Z.land_spec, Hcompl_high by assumption.
      apply andb_false_r.
  - intros Hset. rewrite <- (set_word_same m (BIT_WORD i)) at 2. fold w.
    f_equal. apply Hbits; [assumption| |].
    + intros n Hn.
      rewrite Z.lor_spec, Z.land_spec, BIT_MASK_complement_bits,
        Z.pow2_bits_eqb by lia. fold k.
      destruct (Z.eqb_spec k n) as [<-|_]; simpl;
        [rewrite Hset; reflexivity|].
      rewrite orb_false_r, andb_true_r. reflexivity.
    + intros n Hn.
      rewrite Z.lor_spec, Z.land_spec, Hcompl_high, Z.pow2_bits_eqb
        by (assumption || lia).
      destruct (Z.eqb_spec k n); [lia|]. rewrite andb_false_r. reflexivity.
  - f_equal. rewrite <- Z.lor_assoc, Z.lor_diag. reflexivity.
  - f_equal. rewrite <- Z.land_assoc, Z.land_diag. reflexivity.
Qed.

End MaskAlgebra.

Section ByteOrder.

Import Endian.

Lemma byte_mask_bits (k n : Z) :
  0 <= k -> Z.testbit (Z.shiftl (Z.ones 8) k) n = (k <=? n) && (n <? k + 8).
Proof.
  intros Hk. destruct (Z.leb_spec k n) as [Hkn|Hkn]; simpl.
  - rewrite Z.shiftl_spec by lia.
    destruct (Z.ltb_spec n (k + 8)).
    + apply Z.ones_spec_low. lia.
    + apply Z.ones_spec_high. lia.
  - destruct (Z.ltb_spec n 0).
    + apply Z.testbit_neg_r. lia.
    + rewrite Z.shiftl_spec by lia. apply Z.testbit_neg_r. lia.
Qed.

Lemma bswap32_bits (w n : Z) :
  0 <= n ->
  Z.testbit (bswap32 w) n = (n <? 32) && Z.testbit w (swapped_bit n).
Proof.
  intros Hn. unfold bswap32, shl32, swapped_bit.
  change 255 with (Z.shiftl (Z.ones 8) 0).
  change 65280 with (Z.shiftl (Z.ones 8) 8).
  rewrite !Z.lor_spec, !Z.land_spec, !Z.shiftr_spec, !byte_mask_bits by lia.
  destruct (Z.ltb_spec n 32) as [H32|H32].
  - rewrite !Z.mod_pow2_bits_low by lia.
    rewrite !Z.shiftl_spec, !Z.land_spec, !byte_mask_bits by lia.
    destruct (Z.ltb_spec n 8), (Z.ltb_spec n 16), (Z.ltb_spec n 24);
      try lia;
      repeat match goal with
             | |- context [?a <=? ?b] => destruct (Z.leb_spec a b); try lia
             | |- context [?a <? ?b] => destruct (Z.ltb_spec a b); try lia
             end; simpl;
      rewrite ?andb_false_r, ?andb_true_r, ?orb_false_r; simpl;
      try reflexivity.
  - rewrite !Z.mod_pow2_bits_high by lia.
    repeat match goal with
           | |- context [?a <=? ?b] => destruct (Z.leb_spec a b); try lia
           | |- context [?a <? ?b] => destruct (Z.ltb_spec a b); try lia
           end; simpl; rewrite ?andb_false_r; reflexivity.
Qed.

Lemma swapped_bit_range (n : Z) :
  0 <= n < 32 ->
  0 <= swapped_bit n < 32 /\ swapped_bit (swapped_bit n) = n.
Proof.
  intros Hn. unfold swapped_bit.
  repeat match goal with
         | |- context [?a <? ?b] => destruct (Z.ltb_spec a b); try lia
         end.
Qed.

Lemma bswap32_range (w : Z) : 0 <= bswap32 w < 2 ^ 32.
Proof.
  apply uint32_fixed. apply Z.bits_inj'. intros n Hn.
  rewrite Z.land_spec, bswap32_bits by assumption.
  destruct (Z.ltb_spec n 32); simpl; [|reflexivity].
  rewrite Z.ones_spec_low by lia. apply andb_true_r.
Qed.

Lemma bswap32_involutive (w : Z) :
  0 <= w < 2 ^ 32 -> bswap32 (bswap32 w) = w.
Proof.
  intros Hw. apply Z.bits_inj'. intros n Hn.
  rewrite bswap32_bits by assumption.
  destruct (Z.ltb_spec n 32) as [H32|H32]; simpl.
  - destruct (swapped_bit_range n ltac:(lia)) as [Hr Hs].
    rewrite bswap32_bits by lia.
    destruct (Z.ltb_spec (swapped_bit n) 32); [|lia].
    simpl. rewrite Hs. reflexivity.
  - symmetry. apply uint32_high_bits; assumption.
Qed.

(** X17.  Conversion to big-endian and back is the identity on 32-bit
    words, on little-endian and on big-endian hosts alike, and the
    conversion of a 32-bit word is a 32-bit word. *)
Theorem be32_round_trip (is_little_endian : bool) (w : Z) :
  0 <= w < 2 ^ 32 ->
  iio_be32toh is_little_endian (iio_htobe32 is_little_endian w) = w
  /\ iio_htobe32 is_little_endian (iio_be32toh is_little_endian w) = w
  /\ 0 <= iio_htobe32 is_little_endian w < 2 ^ 32.
Proof.
  intros Hw. unfold iio_htobe32, iio_be32toh.
  destruct is_little_endian; simpl.
  - rewrite bswap32_involutive by assumption.
    auto using bswap32_range.
  - auto.
Qed.

Lemma byte_high_bits (b n : Z) :
  is_byte b -> 8 <= n -> Z.testbit b n = false.
Proof.
  intros Hb Hn.
  assert (H : Z.land b (Z.ones 8) = b).
  { rewrite Z.land_ones by lia. apply Z.mod_small. exact Hb. }
  rewrite <- H, Z.land_spec, Z.ones_spec_high by lia. apply andb_false_r.
Qed.

Lemma word_of_bytes_bits (b3 b2 b1 b0 n : Z) :
  is_byte b3 -> is_byte b2 -> is_byte b1 -> is_byte b0 -> 0 <= n ->
  Z.testbit (word_of_bytes b3 b2 b1 b0) n
  = if n <? 8 then Z.testbit b0 n
    else if n <? 16 then Z.testbit b1 (n - 8)
    else if n <? 24 then Z.testbit b2 (n - 16)
    else Z.testbit b3 (n - 24).
Proof.
  intros H3 H2 H1 H0 Hn. unfold word_of_bytes.
  rewrite !Z.lor_spec.
  assert (Hsh : forall b k, is_byte b -> 0 <= k ->
             Z.testbit (Z.shiftl b k) n
             = (k <=? n) && (n <? k + 8) && Z.testbit b (n - k)).
  { intros b k Hb Hk. destruct (Z.leb_spec k n); simpl.
    - rewrite Z.shiftl_spec by lia.
      destruct (Z.ltb_spec n (k + 8)); simpl; [reflexivity|].
      apply byte_high_bits; [assumption|lia].
    - destruct (Z.ltb_spec n 0); [lia|].
      rewrite Z.shiftl_spec by lia. apply Z.testbit_neg_r. lia. }
  rewrite !Hsh by (assumption || lia).
  destruct (Z.ltb_spec n 8), (Z.ltb_spec n 16), (Z.ltb_spec n 24);
    try lia;
    repeat match goal with
           | |- context [?a <=? ?b] => destruct (Z.leb_spec a b); try lia
           | |- context [?a <? ?b] => destruct (Z.ltb_spec a b); try lia
           end; simpl;
    rewrite ?orb_false_r, ?(byte_high_bits b0) by (assumption || lia);
    rewrite ?orb_false_r; try reflexivity;
    symmetry; apply byte_high_bits; (assumption || lia).
Qed.

(** X18.  On a little-endian host [iio_be32toh] reverses the four bytes
    of a word: the word with bytes [b3 b2 b1 b0] (most significant first)
    becomes the word with bytes [b0 b1 b2 b3]; on a big-endian host the
    word is returned as it is. *)
Theorem be32toh_reverses_bytes (b3 b2 b1 b0 : Z) :
  is_byte b3 -> is_byte b2 -> is_byte b1 -> is_byte b0 ->
  iio_be32toh true (word_of_bytes b3 b2 b1 b0) = word_of_bytes b0 b1 b2 b3
  /\ iio_be32toh false (word_of_bytes b3 b2 b1 b0)
     = word_of_bytes b3 b2 b1 b0.
Proof.
  intros H3 H2 H1 H0. split; [|reflexivity].
  unfold iio_be32toh. simpl. apply Z.bits_inj'. intros n Hn.
  rewrite bswap32_bits by assumption.
  destruct (Z.ltb_spec n 32) as [H32|H32]; simpl.
  - destruct (swapped_bit_range n ltac:(lia)) as [Hr _].
    rewrite !word_of_bytes_bits by (assumption || lia).
    unfold swapped_bit in *.
    repeat match goal with
           | |- context [?a <? ?b] => destruct (Z.ltb_spec a b); try lia
           end; f_equal; lia.
  - rewrite word_of_bytes_bits by (assumption || lia).
    repeat match goal with
           | |- context [?a <? ?b] => destruct (Z.ltb_spec a b); try lia
           end.
    symmetry. apply byte_high_bits; [assumption|lia].
Qed.

End ByteOrder.

Section Cursor.

Import XmlIndexes.

Variable size : Z.

Lemma moved_moved (r s : Z) (c : cursor) :
  moved s (moved r c) = moved (r + s) c.
Proof.
  unfold moved. destruct c as [[p|] l a]; simpl;
    rewrite ?Z.add_assoc, ?Z.sub_add_distr; reflexivity.
Qed.

Lemma moved_0 (c : cursor) : moved 0 c = c.
Proof.
  unfold moved. destruct c as [[p|] l a]; simpl;
    rewrite ?Z.add_0_r, ?Z.sub_0_r; reflexivity.
Qed.

(** One update is defined exactly when the moved cursor is one C can
    hold, and then it is that cursor. *)
Lemma update_defined (ret : Z) (c c' : cursor) :
  iio_update_xml_indexes size ret c = Some c'
  <-> representable size (moved ret c) /\ c' = moved ret c.
Proof.
  unfold iio_update_xml_indexes, representable, moved.
  destruct c as [[p|] l a]; simpl.
  - destruct (0 <=? p + ret) eqn:H0; simpl;
      [|split; [discriminate|intros [(_ & ? & _) _]; lia]].
    destruct (p + ret <=? size) eqn:H1; simpl;
      [|split; [discriminate|intros [(_ & ? & _) _]; lia]].
    destruct (in_ssize (l - ret)) eqn:H2; simpl;
      [|split; [discriminate|intros [(_ & _ & ?) _]; discriminate]].
    destruct (in_ssize (a + ret)) eqn:H3;
      [|split; [discriminate|intros [(? & _) _]; discriminate]].
    split.
    + intros [= <-]. repeat split; lia.
    + intros [_ ->]. reflexivity.
  - destruct (in_ssize (a + ret)) eqn:H3;
      [|split; [discriminate|intros [(? & _) _]; discriminate]].
    split.
    + intros [= <-]. repeat split.
    + intros [_ ->]. reflexivity.
Qed.

Lemma update_all_defined (rets : list Z) :
  forall (acc : Z) (c c' : cursor),
    update_all size rets (moved acc c) = Some c'
    <-> Forall (fun s => representable size (moved s c))
          (prefix_sums acc rets)
        /\ c' = moved (acc + total rets) c.
Proof.
  induction rets as [|r rets IH]; intros acc c c'; simpl.
  - rewrite Z.add_0_r. split.
    + intros [= <-]. split; [constructor|reflexivity].
    + intros [_ ->]. reflexivity.
  - destruct (iio_update_xml_indexes size r (moved acc c)) as [c1|] eqn:Hc1.
    + apply update_defined in Hc1 as [Hrep ->].
      rewrite moved_moved in *. rewrite IH, Z.add_assoc. split.
      * intros [Hall ->]. split; [constructor; assumption|reflexivity].
      * intros [Hall ->]. inversion Hall. split; [assumption|reflexivity].
    + split; [discriminate|]. intros [Hall _]. inversion Hall as [|? ? Hrep _].
      rewrite <- moved_moved in Hrep.
      assert (Hsome : iio_update_xml_indexes size r (moved acc c)
                      = Some (moved r (moved acc c)))
        by (apply update_defined; split; [assumption|reflexivity]).
      congruence.
Qed.

(** X19.  The cursor of the XML printers adds up, as long as the C
    arithmetic is defined.  For a buffer of [size] bytes, the updates for
    a sequence of pieces are all defined exactly when every running sum
    of their lengths keeps the accumulated length, and with a buffer the
    room left, a value of [ssize_t] and the position inside the buffer
    or one past its end.  The cursor then is the first one moved by the
    sum of the lengths: the accumulated length has grown by the sum; with
    a buffer the position has advanced and the room has shrunk by it, so
    that position plus room stays where it was; without a buffer (the
    sizing pass) position and room do not move. *)
Theorem xml_indexes_accumulate (rets : list Z) (c c' : cursor) :
  (update_all size rets c = Some c'
   <-> Forall (fun s => representable size (moved s c)) (prefix_sums 0 rets)
       /\ c' = moved (total rets) c)
  /\ (update_all size rets c = Some c' ->
      alen c' = alen c + total rets
      /\ (forall p, ptr c = Some p ->
                    ptr c' = Some (p + total rets)
                    /\ p + total rets + len c' = p + len c)
      /\ (ptr c = None -> ptr c' = None /\ len c' = len c)).
Proof.
  assert (Hiff : update_all size rets c = Some c'
                 <-> Forall (fun s => representable size (moved s c))
                       (prefix_sums 0 rets)
                     /\ c' = moved (total rets) c).
  { rewrite <- (moved_0 c) at 1. rewrite update_all_defined. reflexivity. }
  split; [assumption|].
  intros Hsome. apply Hiff in Hsome as [_ ->]. unfold moved.
  destruct c as [[p|] l a]; simpl.
  - split; [reflexivity|]. split; [|discriminate].
    intros p0 [= <-]. split; [reflexivity|lia].
  - split; [reflexivity|]. split; [discriminate|]. intros _.
    split; reflexivity.
Qed.

End Cursor.

(** * More of the format codec and the entry points *)

Section FormatTexts.

Context {PF : Platform}.

Import Libc.

Lemma append_nil_r (s : string) : s +:+ "" = s.
Proof.
  induction s as [|c s IH]; [reflexivity|].
  rewrite append_cons, IH. reflexivity.
Qed.

Lemma strchr_append (a b : string) (c : ascii) :
  strchr (a +:+ b) c = strchr a c || strchr b c.
Proof.
  induction a as [|x a IH]; [reflexivity|].
  rewrite append_cons. simpl. destruct (Ascii.eqb x c); auto.
Qed.

Lemma starts_with_digit_append (a b : string) :
  starts_with_digit 10 a = false -> starts_with_digit 10 b = false ->
  starts_with_digit 10 (a +:+ b) = false.
Proof. destruct a; [rewrite append_nil|rewrite append_cons]; auto. Qed.

Lemma scans_append (fmt : list directive) (inp : string)
    (vs : list scan_value) (tail : string) :
  scans fmt inp vs ->
  starts_with_digit 10 tail = false ->
  scans fmt (inp +:+ tail) vs.
Proof.
  intros Hs Htail.
  induction Hs as [inp|c fmt inp vs _ IH|x fmt inp vs _ IH
                  |f u rest fmt vs Hf Hrest _ IH].
  - constructor.
  - rewrite append_cons. constructor. assumption.
  - rewrite append_cons. constructor. assumption.
  - rewrite append_assoc. constructor; [assumption| |assumption].
    apply starts_with_digit_append; assumption.
Qed.

Lemma sscanf_append (fmt : list directive) (content tail : string) :
  ends_in_conversion fmt = true ->
  fst (sscanf content fmt) = Z.of_nat (conversions fmt) ->
  starts_with_digit 10 tail = false ->
  sscanf (content +:+ tail) fmt = sscanf content fmt.
Proof.
  intros Hend Hfull Htail.
  destruct (sscanf_full fmt content Hend Hfull) as (vs & -> & Hs).
  apply sscanf_scans, scans_append; assumption.
Qed.

(** X20.  What follows a descriptor is ignored: when a format text
    decodes, the same text followed by anything that neither begins with
    a digit nor holds an 'X' decodes to the same format. *)
Theorem format_trailing_text_ignored (chn : iio_channel)
    (content tail : string) :
  strchr tail "X" = false ->
  starts_with_digit 10 tail = false ->
  fst (setup_scan_element chn (scan_element_node [format_attr content])) = 0 ->
  setup_scan_element chn (scan_element_node [format_attr (content +:+ tail)])
  = setup_scan_element chn (scan_element_node [format_attr content]).
Proof.
  intros HX Hdigit.
  unfold setup_scan_element, scan_element_node. simpl.
  unfold setup_scan_element_attr. simpl.
  rewrite strchr_append, HX, orb_false_r.
  unfold iio_sscanf.
  destruct (strchr content "X").
  - destruct (sscanf content FORMAT_REPEAT) as [ret vs] eqn:Hs.
    destruct (ret =? 6) eqn:Hret; simpl; [|discriminate]. intros _.
    apply Z.eqb_eq in Hret. subst ret.
    rewrite (sscanf_append FORMAT_REPEAT content tail eq_refl
               ltac:(rewrite Hs; reflexivity) Hdigit), Hs.
    reflexivity.
  - destruct (sscanf content FORMAT_PLAIN) as [ret vs] eqn:Hs.
    destruct (ret =? 5) eqn:Hret; simpl; [|discriminate]. intros _.
    apply Z.eqb_eq in Hret. subst ret.
    rewrite (sscanf_append FORMAT_PLAIN content tail eq_refl
               ltac:(rewrite Hs; reflexivity) Hdigit), Hs.
    reflexivity.
Qed.

Lemma digits_have_no_X (ds : string) :
  all_chars isdigit ds = true -> strchr ds "X" = false.
Proof.
  induction ds as [|c ds IH]; [reflexivity|]. simpl.
  intros H. apply andb_prop in H as [Hc Hall].
  destruct (Ascii.eqb c "X") eqn:Hx; [|auto].
  apply Ascii.eqb_eq in Hx. subst c. discriminate.
Qed.

Lemma printed_field (ds : string) :
  digits_below (2 ^ 32) ds -> uint_field ds (decimal_value ds).
Proof.
  intros (Hne & Hall & Hlt). exists "", "", ds.
  repeat split; auto.
  unfold uint_of. simpl.
  assert (0 <= decimal_value ds) by (apply decimal_from_nonneg; [assumption|lia]).
  destruct (ULONG_MAX <? decimal_value ds) eqn:Hbig.
  - apply Z.ltb_lt in Hbig. unfold ULONG_MAX in Hbig. lia.
  - symmetry. apply Z.mod_small. unfold UINT_MODULUS. lia.
Qed.

(** X21.  A descriptor printed with plain decimal fields decodes to
    those fields: bits, length, shift (and repeat, when the clause is
    there) are the numbers written, repeat is 1 without the clause, and
    the flags follow the two characters, for any endianness and sign
    characters other than 'X' and any fields below 2^32. *)
Theorem format_printed_fields_decode (chn : iio_channel) (e s : ascii)
    (B L R H : string) :
  e <> "X"%char -> s <> "X"%char ->
  digits_below (2 ^ 32) B -> digits_below (2 ^ 32) L ->
  digits_below (2 ^ 32) R -> digits_below (2 ^ 32) H ->
  setup_scan_element chn
    (scan_element_node [format_attr (plain_descriptor e s B L H)])
  = (0, set_chn_format
          (decoded_format e s (decimal_value B) (decimal_value L) 1
             (decimal_value H) (chn_format chn)) chn)
  /\ setup_scan_element chn
       (scan_element_node [format_attr (repeat_descriptor e s B L R H)])
     = (0, set_chn_format
             (decoded_format e s (decimal_value B) (decimal_value L)
                (decimal_value R) (decimal_value H) (chn_format chn)) chn).
Proof.
  intros He Hs HB HL HR HH.
  pose proof (printed_field B HB) as HfB.
  pose proof (printed_field L HL) as HfL.
  pose proof (printed_field R HR) as HfR.
  pose proof (printed_field H HH) as HfH.
  assert (HeX : Ascii.eqb e "X" = false) by (apply Ascii.eqb_neq; assumption).
  assert (HsX : Ascii.eqb s "X" = false) by (apply Ascii.eqb_neq; assumption).
  destruct HB as (_ & HB & _), HL as (_ & HL & _), HR as (_ & HR & _),
    HH as (_ & HH & _).
  apply digits_have_no_X in HB, HL, HR, HH.
  split.
  - assert (HnoX : strchr (plain_descriptor e s B L H) "X" = false).
    { unfold plain_descriptor. simpl. rewrite HeX. simpl. rewrite HsX.
      rewrite !strchr_append, HB, HL, HH. reflexivity. }
    assert (Hshape : plain_shape (plain_descriptor e s B L H) e s
                       (decimal_value B) (decimal_value L) (decimal_value H)).
    { exists B, L, H, "". rewrite append_nil_r. auto 6. }
    apply plain_shape_scans, sscanf_scans in Hshape.
    remember (plain_descriptor e s B L H) as content.
    unfold setup_scan_element, scan_element_node. simpl.
    unfold setup_scan_element_attr. simpl. unfold iio_sscanf.
    rewrite HnoX, Hshape. reflexivity.
  - assert (HhasX : strchr (repeat_descriptor e s B L R H) "X" = true).
    { unfold repeat_descriptor. simpl. rewrite HeX. simpl. rewrite HsX.
      rewrite !strchr_append, HB, HL. reflexivity. }
    assert (Hshape : repeat_shape (repeat_descriptor e s B L R H) e s
                       (decimal_value B) (decimal_value L) (decimal_value R)
                       (decimal_value H)).
    { exists B, L, R, H, "". rewrite append_nil_r. auto 7. }
    apply repeat_shape_scans, sscanf_scans in Hshape.
    remember (repeat_descriptor e s B L R H) as content.
    unfold setup_scan_element, scan_element_node. simpl.
    unfold setup_scan_element_attr. simpl. unfold iio_sscanf.
    rewrite HhasX, Hshape. reflexivity.
Qed.

End FormatTexts.

Section EntryPoints.

Context {PF : Platform} {CO : Collaborators} {XR : XmlReader}.

Lemma strncmp_prefix (h rest : string) :
  strncmp_eq (h +:+ rest) h (strlen h) = true.
Proof.
  induction h as [|c h IH]; [reflexivity|].
  rewrite append_cons. simpl. rewrite Ascii.eqb_refl. exact IH.
Qed.

Lemma substring_all (s : string) : String.substring 0 (strlen s) s = s.
Proof.
  induction s as [|c s IH]; [reflexivity|]. simpl. f_equal. exact IH.
Qed.

(** X22.  An argument that begins with the XML header is the document
    itself: [xml_create_context] gives on it what
    [xml_create_context_mem] gives on the whole text, and no file is
    read.  Either entry point returns -EINVAL when the reader finds no
    document, and otherwise what the builder makes of the document. *)
Theorem inline_document_is_read_from_memory (params : iio_context_params)
    (rest : string) :
  let arg := XML_HEADER +:+ rest in
  xml_create_context params arg
  = xml_create_context_mem params arg (strlen arg)
  /\ xml_create_context params arg
     = match xmlReadMemory arg with
       | None => Err (- EINVAL)
       | Some doc => iio_create_xml_context_helper params doc
       end.
Proof.
  intros arg. unfold xml_create_context, xml_create_context_mem.
  unfold arg. rewrite strncmp_prefix, substring_all. auto.
Qed.

End EntryPoints.

(** * The further properties at concrete inputs *)

Section Samples.

#[local] Existing Instance Reference.platform.
#[local] Existing Instance Reference.collaborators.

Lemma reference_finalize_keeps_parsed :
  finalize_keeps_parsed Reference.collaborators.
Proof. intros c. repeat split. Qed.

(** X1 at a document whose only channel has a name and no id. *)
Lemma channel_without_id_aborts_witness :
  create_channel (PF := Reference.platform) (CO := Reference.collaborators)
    (XmlNode "channel" [attr "name" "voltage0"] []) = Err (- EINVAL)
  /\ (exists err,
         create_device (PF := Reference.platform)
           (CO := Reference.collaborators)
           (XmlNode "device" [attr "id" "iio:device0"]
              [XmlNode "channel" [attr "name" "voltage0"] []]) = Err err)
  /\ exists err,
       iio_create_xml_context_helper (PF := Reference.platform)
         (CO := Reference.collaborators) tt anonymous_channel_document
       = Err err.
Proof.
  apply channel_without_id_aborts.
  - repeat constructor.
  - reflexivity.
  - repeat constructor.
  - reflexivity.
  - intros (a & Ha & Hk). simpl in Ha.
    apply list_elem_of_singleton in Ha as ->. discriminate Hk.
Defined.

(** X2 at a document whose scan-element has the index "-1" after a
    well-formed format. *)
Lemma malformed_scan_element_aborts_witness :
  create_channel (PF := Reference.platform) (CO := Reference.collaborators)
    (XmlNode "channel" [attr "id" "voltage0"]
       [XmlNode "scan-element"
          [attr "format" "le:s12/16>>4"; attr "index" "-1"] []])
  = Err (- EINVAL)
  /\ (exists err,
         create_device (PF := Reference.platform)
           (CO := Reference.collaborators)
           (XmlNode "device" [attr "id" "iio:device0"]
              [XmlNode "channel" [attr "id" "voltage0"]
                 [XmlNode "scan-element"
                    [attr "format" "le:s12/16>>4"; attr "index" "-1"] []]])
         = Err err)
  /\ exists err,
       iio_create_xml_context_helper (PF := Reference.platform)
         (CO := Reference.collaborators) tt negative_index_document
       = Err err.
Proof.
  apply (malformed_scan_element_aborts (CO := Reference.collaborators) tt
           negative_index_document _ _
           (XmlNode "scan-element"
              [attr "format" "le:s12/16>>4"; attr "index" "-1"] [])
           (attr "index" "-1") (- EINVAL)).
  - repeat constructor.
  - reflexivity.
  - repeat constructor.
  - reflexivity.
  - repeat constructor.
  - reflexivity.
  - repeat constructor.
  - reflexivity.
Defined.

(** X3 at a device without id. *)
Lemma builder_error_codes_witness :
  - EINVAL < 0
  /\ iio_err (create_device (PF := Reference.platform)
                (CO := Reference.collaborators)
                (XmlNode "device" [attr "name" "dac"] [])) <> 0.
Proof.
  apply (proj2 (builder_error_codes (CO := Reference.collaborators)
                  (XmlNode "device" [attr "name" "dac"] []) (- EINVAL))).
  reflexivity.
Defined.

(** X4 at a document whose context-attribute has a name and no value. *)
Lemma context_attribute_requires_both_witness :
  (forall ctx,
      parse_context_attr (PF := Reference.platform)
        (CO := Reference.collaborators) ctx
        (XmlNode "context-attribute" [attr "name" "uri"] [])
      = (- EINVAL, ctx))
  /\ exists err,
       iio_create_xml_context_helper (PF := Reference.platform)
         (CO := Reference.collaborators) tt valueless_attribute_document
       = Err err.
Proof.
  apply context_attribute_requires_both.
  - repeat constructor.
  - reflexivity.
  - right. reflexivity.
Defined.

(** X5 at the sample device: two channels, in the order of the
    document. *)
Lemma device_channels_in_order_witness :
  exists dev,
    create_device (PF := Reference.platform) (CO := Reference.collaborators)
      demo_device = Ptr dev
    /\ map chn_id (dev_channels dev) = [Some "voltage0"; Some "voltage2"]
    /\ (map Ptr (dev_channels dev)
        = map create_channel
            (List.filter (is_named "channel") (children demo_device))
        /\ length (dev_channels dev)
           = length (List.filter (is_named "channel")
                       (children demo_device))).
Proof.
  eexists. split; [reflexivity|]. split; [reflexivity|].
  apply (device_channels_in_order (CO := Reference.collaborators)).
  reflexivity.
Defined.

(** X6 at the sample device. *)
Lemma device_fields_from_attributes_witness :
  exists dev,
    create_device (PF := Reference.platform) (CO := Reference.collaborators)
      demo_device = Ptr dev
    /\ ((exists id, dev_id dev = Some id)
        /\ dev_id dev = last_attr "id" (properties demo_device)
        /\ dev_name dev = last_attr "name" (properties demo_device)
        /\ dev_label dev = last_attr "label" (properties demo_device)).
Proof.
  eexists. split; [reflexivity|].
  apply (device_fields_from_attributes (CO := Reference.collaborators)).
  reflexivity.
Defined.

(** X7 at a document whose device has a debug-attribute without name. *)
Lemma device_attribute_requires_name_witness :
  (forall dev type,
      add_attr_to_device (PF := Reference.platform)
        (CO := Reference.collaborators) dev
        (XmlNode "debug-attribute" [attr "filename" "direct_reg_access"] [])
        type
      = (- EINVAL, dev))
  /\ (exists err,
         create_device (PF := Reference.platform)
           (CO := Reference.collaborators)
           (XmlNode "device" [attr "id" "iio:device0"]
              [XmlNode "debug-attribute"
                 [attr "filename" "direct_reg_access"] []]) = Err err)
  /\ exists err,
       iio_create_xml_context_helper (PF := Reference.platform)
         (CO := Reference.collaborators) tt nameless_attribute_document
       = Err err.
Proof.
  apply device_attribute_requires_name.
  - repeat constructor.
  - reflexivity.
  - repeat constructor.
  - reflexivity.
  - intros (a & Ha & Hk). simpl in Ha.
    apply list_elem_of_singleton in Ha as ->. discriminate Hk.
Defined.

(** X8 at the first channel of the sample device. *)
Lemma channel_fields_from_document_witness :
  exists chn,
    create_channel (PF := Reference.platform) (CO := Reference.collaborators)
      (XmlNode "channel" [attr "id" "voltage0"; attr "type" "output";
                          attr "type" "input"]
         [XmlNode "attribute" [attr "name" "raw"] []]) = Ptr chn
    /\ chn_is_output chn = true
    /\ chn_is_scan_element chn = false.
Proof.
  eexists. split; [reflexivity|].
  destruct (channel_fields_from_document (CO := Reference.collaborators)
              (XmlNode "channel" [attr "id" "voltage0"; attr "type" "output";
                                  attr "type" "input"]
                 [XmlNode "attribute" [attr "name" "raw"] []])
              _ reference_finalize_keeps_parsed eq_refl)
    as (_ & _ & _ & Hout & Hscan).
  split; [exact Hout|exact Hscan].
Defined.

(** X9 at the sample channel. *)
Lemma channel_attributes_in_order_witness :
  exists chn,
    create_channel (PF := Reference.platform) (CO := Reference.collaborators)
      demo_channel = Ptr chn
    /\ chn_attrs chn
       = map channel_attr_of
           (List.filter (is_named "attribute") (children demo_channel)).
Proof.
  eexists. split; [reflexivity|].
  apply (channel_attributes_in_order (CO := Reference.collaborators)
           demo_channel _ reference_finalize_keeps_parsed eq_refl).
Defined.

(** X10 at the sample channel. *)
Lemma channel_index_range_witness :
  exists chn,
    create_channel (PF := Reference.platform) (CO := Reference.collaborators)
      demo_channel = Ptr chn
    /\ (chn_index chn = - ENOENT \/ 0 <= chn_index chn <= LONG_MAX).
Proof.
  eexists. split; [reflexivity|].
  apply (channel_index_range (CO := Reference.collaborators)
           demo_channel _ reference_finalize_keeps_parsed eq_refl).
Defined.

(** X11 at the index "12" followed by a blank. *)
Lemma index_decimal_text_witness :
  setup_scan_element (PF := Reference.platform) zalloc_channel
    (scan_element_node [index_attr ("12" +:+ " ")])
  = (0, set_chn_index (decimal_value "12") zalloc_channel).
Proof.
  apply index_decimal_text.
  - repeat split; try reflexivity; try discriminate.
  - reflexivity.
Defined.

(** X12 at the sample document, which has version numbers and no git
    tag. *)
Lemma version_numbers_unused_without_git_tag_witness :
  iio_create_xml_context_helper (PF := Reference.platform)
    (CO := Reference.collaborators) tt
    (without_version_numbers demo_document)
  = iio_create_xml_context_helper (PF := Reference.platform)
      (CO := Reference.collaborators) tt demo_document.
Proof.
  apply version_numbers_unused_without_git_tag.
  intros (a & Ha & Hk). simpl in Ha.
  repeat (apply elem_of_cons in Ha as [->|Ha]; [discriminate Hk|]).
  inversion Ha.
Defined.

(** X13 at a channel with its two attributes in either order. *)
Lemma attribute_order_insignificant_witness :
  create_channel (PF := Reference.platform) (CO := Reference.collaborators)
    (XmlNode "channel" [attr "type" "output"; attr "id" "voltage0"] [])
  = create_channel (PF := Reference.platform)
      (CO := Reference.collaborators)
      (XmlNode "channel" [attr "id" "voltage0"; attr "type" "output"] []).
Proof.
  apply (attribute_order_insignificant (CO := Reference.collaborators)
           (XmlNode "channel" [attr "id" "voltage0"; attr "type" "output"] [])
           (XmlNode "channel" [attr "type" "output"; attr "id" "voltage0"] [])).
  - reflexivity.
  - reflexivity.
  - apply perm_swap.
  - apply (bool_decide_unpack _). vm_compute. exact I.
Defined.

(** X14 at a scan-element with index and format in either order. *)
Lemma scan_element_attribute_order_witness :
  fst (setup_scan_element (PF := Reference.platform) zalloc_channel
         (scan_element_node [attr "format" "be:u8/8>>0"; attr "index" "3"]))
  = fst (setup_scan_element (PF := Reference.platform) zalloc_channel
           (scan_element_node
              [attr "index" "3"; attr "format" "be:u8/8>>0"])).
Proof.
  assert (Hnodup : NoDup (map attr_name
                            [attr "index" "3"; attr "format" "be:u8/8>>0"])).
  { apply (bool_decide_unpack _). vm_compute. exact I. }
  apply (proj1 (scan_element_attribute_order (CO := Reference.collaborators)
                  (scan_element_node
                     [attr "index" "3"; attr "format" "be:u8/8>>0"])
                  (scan_element_node
                     [attr "format" "be:u8/8>>0"; attr "index" "3"])
                  eq_refl (perm_swap _ _ _) Hnodup)).
Defined.

(** X15 on a fresh mask for 70 channels, at bits 37 and 5. *)
Lemma mask_operations_commute_witness :
  let m := Mask.iio_create_channels_mask 70 in
  Mask.iio_channels_mask_set_bit (Mask.iio_channels_mask_set_bit m 5) 37
  = Mask.iio_channels_mask_set_bit (Mask.iio_channels_mask_set_bit m 37) 5
  /\ Mask.iio_channels_mask_clear_bit
       (Mask.iio_channels_mask_clear_bit m 5) 37
     = Mask.iio_channels_mask_clear_bit
         (Mask.iio_channels_mask_clear_bit m 37) 5
  /\ (37 <> 5 ->
      Mask.iio_channels_mask_set_bit (Mask.iio_channels_mask_clear_bit m 5) 37
      = Mask.iio_channels_mask_clear_bit
          (Mask.iio_channels_mask_set_bit m 37) 5).
Proof.
  intros m.
  apply (mask_operations_commute m 37 5).
  - apply create_channels_mask_wf.
  - unfold Mask.in_range. change (Mask.words m) with 3%nat. lia.
  - unfold Mask.in_range. change (Mask.words m) with 3%nat. lia.
Defined.

(** X16 on a fresh mask for 70 channels, at bit 37. *)
Lemma mask_set_clear_round_trip_witness :
  Mask.iio_channels_mask_clear_bit
    (Mask.iio_channels_mask_set_bit (Mask.iio_create_channels_mask 70) 37) 37
  = Mask.iio_create_channels_mask 70.
Proof.
  apply (proj1 (mask_set_clear_round_trip
                  (Mask.iio_create_channels_mask 70) 37
                  (proj1 (create_channels_mask_wf 70))
                  ltac:(unfold Mask.in_range;
                        change (Mask.words (Mask.iio_create_channels_mask 70))
                          with 3%nat; lia))).
  reflexivity.
Defined.

(** X17 at the word 0x12345678 on a little-endian host. *)
Lemma be32_round_trip_witness :
  Endian.iio_be32toh true (Endian.iio_htobe32 true 305419896) = 305419896
  /\ Endian.iio_htobe32 true (Endian.iio_be32toh true 305419896) = 305419896
  /\ 0 <= Endian.iio_htobe32 true 305419896 < 2 ^ 32.
Proof. apply be32_round_trip. lia. Defined.

(** X18 at the bytes 0x12 0x34 0x56 0x78. *)
Lemma be32toh_reverses_bytes_witness :
  Endian.iio_be32toh true (Endian.word_of_bytes 18 52 86 120)
  = Endian.word_of_bytes 120 86 52 18
  /\ Endian.iio_be32toh false (Endian.word_of_bytes 18 52 86 120)
     = Endian.word_of_bytes 18 52 86 120.
Proof.
  apply be32toh_reverses_bytes; unfold Endian.is_byte; lia.
Defined.

(** X19 at two pieces of 10 and 20 bytes written into a buffer of 64. *)
Lemma xml_indexes_accumulate_witness :
  XmlIndexes.update_all 64 [10; 20]
    {| XmlIndexes.ptr := Some 0; XmlIndexes.len := 64; XmlIndexes.alen := 0 |}
  = Some {| XmlIndexes.ptr := Some 30; XmlIndexes.len := 34;
            XmlIndexes.alen := 30 |}.
Proof.
  apply (proj2 (proj1 (xml_indexes_accumulate 64 [10; 20] _ _))).
  split; [|reflexivity].
  repeat constructor; simpl; lia.
Defined.

(** X20 at a descriptor followed by a comment. *)
Lemma format_trailing_text_ignored_witness :
  setup_scan_element (PF := Reference.platform) zalloc_channel
    (scan_element_node [format_attr ("le:s12/16>>4" +:+ " (raw)")])
  = setup_scan_element (PF := Reference.platform) zalloc_channel
      (scan_element_node [format_attr "le:s12/16>>4"]).
Proof.
  apply format_trailing_text_ignored; reflexivity.
Defined.

(** X21 at the fields of "le:s12/16>>4" and "le:s12/16X2>>4". *)
Lemma format_printed_fields_decode_witness :
  setup_scan_element (PF := Reference.platform) zalloc_channel
    (scan_element_node [format_attr (plain_descriptor "l" "s" "12" "16" "4")])
  = (0, set_chn_format
          (decoded_format "l" "s" (decimal_value "12") (decimal_value "16") 1
             (decimal_value "4") (chn_format zalloc_channel)) zalloc_channel)
  /\ setup_scan_element (PF := Reference.platform) zalloc_channel
       (scan_element_node
          [format_attr (repeat_descriptor "l" "s" "12" "16" "2" "4")])
     = (0, set_chn_format
             (decoded_format "l" "s" (decimal_value "12") (decimal_value "16")
                (decimal_value "2") (decimal_value "4")
                (chn_format zalloc_channel)) zalloc_channel).
Proof.
  apply format_printed_fields_decode;
    try discriminate; repeat split; try discriminate; reflexivity.
Defined.

End Samples.
